(** * SmartID-AI: identity-document extraction pipeline and job tracker

    A shallow embedding of the Python sources

      - [models/state.py], [models/settings.py], [models/prompts.py]
      - [utils/api_utils.py], [utils/image_utils.py], [utils/ocr_utils.py]
      - [nodes/image_processing.py], [nodes/llm.py]
      - [pipeline.py], [main.py]

    followed by the properties of the job-tracked two-stage pipeline.

    Conventions of the embedding.

      - A Python [str] is a [string] holding the UTF-8 encoding of the text;
        [bytes] is a [list byte].  The string built-ins used by the sources
        ([strip], [lower], [startswith], [endswith], slicing, [split], [len])
        are defined in module [Py] on that encoding.
      - A Python [float] is an exact rational ([Q]); the properties below
        depend on which quantities are combined, never on rounding.
      - Everything outside the repository (clock, uuid generator, file
        system, Google Vision, OpenAI, [json.loads], float formatting) is
        read from an environment record [Env]; the mutable part of the world
        (clock position, files, log of collaborator calls) is threaded
        through a small state monad [M].
      - An exception is a value: a call that may raise returns [exn + A] and
        every [try]/[except] of the sources is a [match] on it. *)

From Stdlib Require Import ZArith QArith Strings.String Strings.Ascii Strings.Byte.
From Stdlib Require Import Lists.List Numbers.DecimalString Lia.
From Stdlib Require OrderedTypeEx.
From stdpp Require Import base gmap strings list.

Set Warnings "-register-all".

#[local] Open Scope string_scope.
#[local] Open Scope list_scope.

(* ===================================================================== *)
(** * Python built-ins on strings and bytes *)
(* ===================================================================== *)

Module Py.

Definition chars : string -> list ascii := list_ascii_of_string.
Definition str : list ascii -> string := string_of_list_ascii.

(** [s.startswith(p)], on the character lists. *)
Fixpoint starts (p s : list ascii) : bool :=
  match p, s with
  | [], _ => true
  | a :: p', b :: s' => Ascii.eqb a b && starts p' s'
  | _ :: _, [] => false
  end.

Definition startswith (s p : string) : bool := starts (chars p) (chars s).

Definition endswith (s p : string) : bool :=
  starts (rev (chars p)) (rev (chars s)).

(** [s[n:]] and [s[:-n]] for [n >= 1]. *)
Definition slice_from (n : nat) (s : string) : string := str (drop n (chars s)).

Definition slice_to_neg (n : nat) (s : string) : string :=
  str (take (length (chars s) - n) (chars s)).

(** [len(s)]: the number of code points, i.e. of bytes that are not UTF-8
    continuation bytes (10xxxxxx). *)
Definition is_continuation (a : ascii) : bool :=
  let n := N_of_ascii a in (128 <=? n)%N && (n <? 192)%N.

Definition len (s : string) : nat :=
  length (List.filter (fun a => negb (is_continuation a)) (chars s)).

(** [str(n)] for a non-negative integer. *)
Definition str_of_nat (n : nat) : string := NilZero.string_of_uint (Nat.to_uint n).

Definition str_of_Z (z : Z) : string := NilZero.string_of_int (Z.to_int z).

(** [sep.join(l)]. *)
Fixpoint join (sep : string) (l : list string) : string :=
  match l with
  | [] => ""
  | [x] => x
  | x :: rest => x +:+ sep +:+ join sep rest
  end.

(** [s.lower()].  Only the ASCII letters are mapped; every other byte is
    kept.  The sources use [lower] solely to compare file-name extensions
    with ASCII literals, for which this agrees with Python. *)
Definition lower_char (a : ascii) : ascii :=
  let n := N_of_ascii a in
  if (65 <=? n)%N && (n <=? 90)%N then ascii_of_N (n + 32) else a.

Definition lower (s : string) : string := str (map lower_char (chars s)).

(** [s.split(sep)[-1]] for a one-character separator: the text after the
    last separator, the whole text when there is none. *)
Fixpoint last_segment (sep : ascii) (s : list ascii) : list ascii :=
  match s with
  | [] => []
  | a :: s' =>
      if existsb (Ascii.eqb sep) s' then last_segment sep s'
      else if Ascii.eqb sep a then s' else s
  end.

Definition split_last (sep : ascii) (s : string) : string :=
  str (last_segment sep (chars s)).

(** [sep in s]. *)
Definition contains_char (sep : ascii) (s : string) : bool :=
  existsb (Ascii.eqb sep) (chars s).

(** ** Whitespace and [strip]

    The code points Python's [str.strip()] removes, by their UTF-8
    encoding: U+0009..U+000D, U+001C..U+0020, U+0085, U+00A0, U+1680,
    U+2000..U+200A, U+2028, U+2029, U+202F, U+205F, U+3000. *)
Definition bytes_of (l : list N) : list ascii := map ascii_of_N l.

Definition whitespace : list (list ascii) :=
  map bytes_of
    [ [9]; [10]; [11]; [12]; [13]; [28]; [29]; [30]; [31]; [32];
      [194; 133]; [194; 160];
      [225; 154; 128];
      [226; 128; 128]; [226; 128; 129]; [226; 128; 130]; [226; 128; 131];
      [226; 128; 132]; [226; 128; 133]; [226; 128; 134]; [226; 128; 135];
      [226; 128; 136]; [226; 128; 137]; [226; 128; 138];
      [226; 128; 168]; [226; 128; 169]; [226; 128; 175];
      [226; 129; 159];
      [227; 128; 128] ]%N.

Definition list_ascii_eqb (x y : list ascii) : bool :=
  (length x =? length y)%nat && starts x y.

Definition is_space (w : list ascii) : bool := existsb (list_ascii_eqb w) whitespace.

(** Leading whitespace is dropped one code point (one, two or three bytes)
    at a time. *)
Fixpoint lstrip_chars (s : list ascii) : list ascii :=
  match s with
  | [] => []
  | a :: s1 =>
      if is_space [a] then lstrip_chars s1
      else
        match s1 with
        | [] => s
        | b :: s2 =>
            if is_space [a; b] then lstrip_chars s2
            else
              match s2 with
              | [] => s
              | c :: s3 => if is_space [a; b; c] then lstrip_chars s3 else s
              end
        end
  end.

(** The same from the end, on the reversed text: the bytes of a code point
    arrive last byte first. *)
Fixpoint rstrip_rev (s : list ascii) : list ascii :=
  match s with
  | [] => []
  | a :: s1 =>
      if is_space [a] then rstrip_rev s1
      else
        match s1 with
        | [] => s
        | b :: s2 =>
            if is_space [b; a] then rstrip_rev s2
            else
              match s2 with
              | [] => s
              | c :: s3 => if is_space [c; b; a] then rstrip_rev s3 else s
              end
        end
  end.

Definition strip_chars (s : list ascii) : list ascii :=
  rev (rstrip_rev (rev (lstrip_chars s))).

Definition strip (s : string) : string := str (strip_chars (chars s)).

(** A text made of whitespace code points only (possibly none). *)
Definition whitespace_only (s : string) : Prop :=
  exists ws : list (list ascii),
    Forall (fun w => In w whitespace) ws /\ chars s = concat ws.

(** [b.startswith(magic)] on bytes. *)
Fixpoint bytes_starts (p s : list byte) : bool :=
  match p, s with
  | [], _ => true
  | a :: p', b :: s' => Byte.eqb a b && bytes_starts p' s'
  | _ :: _, [] => false
  end.

(** Truthiness of a [str]: [not s] holds for the empty string only. *)
Definition truthy (s : string) : bool := negb (String.eqb s "").

End Py.

(* ===================================================================== *)
(** * Exceptions and JSON values *)
(* ===================================================================== *)

(** The exceptions the sources raise or catch.  [HTTPException] is
    FastAPI's; [KeyError] is a failed dictionary subscript; every other
    exception is identified by its text, [str(e)]. *)
Inductive exn : Type :=
| HTTPException (status_code : Z) (detail : string)
| KeyError (key : string)
| Exception (text : string).

(** What an [await] can raise: an exception derived from [Exception], or
    [asyncio.CancelledError], which derives from [BaseException] only, so
    that a handler [except Exception] lets it pass. *)
Inductive base_exn : Type :=
| OfException (e : exn)
| CancelledError.

(** What [json.loads] returns. *)
Inductive json : Type :=
| JNull
| JBool (b : bool)
| JInt (z : Z)
| JFloat (q : Q)
| JString (s : string)
| JArray (items : list json)
| JObject (fields : gmap string json).

(* ===================================================================== *)
(** * models/settings.py *)
(* ===================================================================== *)

Module Settings.

(** One row of [openai_pricing]. *)
Record Pricing : Type := { input : Q; output : Q }.

(** The fields of [Settings] the modelled code reads. *)
Record Settings : Type := {
  openai_api_key : string;
  max_image_size_mb : Z;
  temp_dir : string;
  llm_model : string;
  llm_temperature : Q;
  openai_pricing : gmap string Pricing
}.

Definition default_openai_pricing : gmap string Pricing :=
  <["gpt-4o" := {| input := 25 # 10000; output := 1 # 100 |}]>
  (<["gpt-4o-mini" := {| input := 15 # 100000; output := 6 # 10000 |}]>
  (<["gpt-3.5-turbo" := {| input := 1 # 1000; output := 2 # 1000 |}]> ∅)).

(** What [Settings()] holds for a given (required) API key: the [Field]
    defaults, [temp_dir] as its validator returns it, [str(Path("./temp"))]. *)
Definition defaults (api_key : string) : Settings :=
  {| openai_api_key := api_key;
     max_image_size_mb := 10;
     temp_dir := "temp";
     llm_model := "gpt-4o-mini";
     llm_temperature := 1 # 10;
     openai_pricing := default_openai_pricing |}.

End Settings.

(* ===================================================================== *)
(** * The world outside the repository *)
(* ===================================================================== *)

(** ** Collaborator messages *)

(** The part of a Vision response the sources read:
    [response.error.message] and [response.full_text_annotation] with its
    text and, page by page down to the words, the per-word confidences (in
    0..1). *)
Record FullTextAnnotation : Type := {
  text : string;
  word_confidences : list Q
}.

Record VisionResponse : Type := {
  error_message : string;
  full_text_annotation : option FullTextAnnotation
}.

(** The arguments of [client.chat.completions.create]. *)
Record ChatRequest : Type := {
  req_model : string;
  req_system : string;
  req_user : string;
  req_max_tokens : Z;
  req_temperature : Q;
  req_top_p : Q
}.

(** The part of the completion the sources read: the [message.content] of
    each choice (it may be [None]) and [usage.total_tokens] (the [usage]
    object may be absent). *)
Record ChatResponse : Type := {
  choices : list (option string);
  usage : option Z
}.

(** ** The environment *)

Record Env : Type := {
  (** Clock and generators, by the position of the reading. *)
  time_time : nat -> Q;                 (* time.time() *)
  now_hms : nat -> string;              (* datetime.now().strftime("%H:%M:%S") *)
  now_isoformat : nat -> string;        (* datetime.now().isoformat() *)
  uuid4 : nat -> string;                (* str(uuid.uuid4()) *)
  uuid4_hex : nat -> string;            (* uuid.uuid4().hex *)
  (** Python's float formatting and rounding: [f"{x:.nf}"], [round(x, n)]. *)
  format_float : nat -> Q -> string;
  round_float : Q -> nat -> Q;
  (** Import-time flags and the process environment. *)
  VISION_AVAILABLE : bool;
  GOOGLE_APPLICATION_CREDENTIALS : option string;
  PIL_AVAILABLE : bool;
  (** [repr(s)] of a [str]: the text in quotes, with Python's choice of the
      quote and its escapes. *)
  repr_str : string -> string;
  (** The file system calls that may fail.  [temp_dir.mkdir(exist_ok=True)];
      [open(path, 'wb')]; the write and the close that follow it, which may
      raise after the file was created, leaving in it the bytes that got
      through; [os.stat] on a path that holds no file, when it fails with
      an error that [Path.exists()] does not take for absence (a name that
      is too long, a directory that may not be searched); [os.unlink] on a
      path that holds a file. *)
  mkdir : string -> option exn;
  open_for_writing : string -> option exn;
  write_bytes : string -> list byte -> option (exn * list byte);
  os_stat_error : string -> option exn;
  os_unlink_error : string -> option exn;
  (** Google Vision: client construction followed by the detection call. *)
  document_text_detection : list byte -> exn + VisionResponse;
  text_detection : list byte -> exn + VisionResponse;
  (** OpenAI: client construction ([OpenAI(api_key=...)]) and the chat call. *)
  openai_client : string -> option exn;
  chat_completions_create : ChatRequest -> exn + ChatResponse;
  (** [json.loads]. *)
  json_loads : string -> exn + json;
  (** LangGraph: [None] when the compiled graph runs its nodes, [Some e]
      when the invocation itself raises [e]. *)
  graph_failure : option exn
}.

(** [str(e)]: Starlette prints an [HTTPException] as its status code and
    its detail, a [KeyError] prints the [repr] of the missing key. *)
Definition exn_text (env : Env) (e : exn) : string :=
  match e with
  | HTTPException status_code detail => Py.str_of_Z status_code +:+ ": " +:+ detail
  | KeyError key => repr_str env key
  | Exception text => text
  end.

(** ** The mutable world and the monad threading it *)

Inductive Event : Type :=
| EvOcr (image : list byte)
| EvLlm (request : ChatRequest)
| EvUnlink (path : string).

Record World : Type := {
  tick : nat;                       (* readings of the clock so far *)
  files : gmap string (list byte);  (* the file system, by path *)
  trace : list Event                (* collaborator calls, oldest first *)
}.

Definition M (A : Type) : Type := World -> A * World.

#[export] Instance M_ret : MRet M := fun A a w => (a, w).

#[export] Instance M_bind : MBind M :=
  fun A B k m w => let (a, w') := m w in k a w'.

(** A reading of the clock (or of a generator): the reading's position is
    handed to the caller, and the position advances. *)
Definition read_clock : M nat :=
  fun w => (tick w, {| tick := S (tick w); files := files w; trace := trace w |}).

Definition emit (e : Event) : M unit :=
  fun w => (tt, {| tick := tick w; files := files w; trace := trace w ++ [e] |}).

Definition get_files : M (gmap string (list byte)) := fun w => (files w, w).

Definition set_files (fs : gmap string (list byte)) : M unit :=
  fun w => (tt, {| tick := tick w; files := fs; trace := trace w |}).

(** The number of calls made to the LLM collaborator. *)
Definition is_llm_call (e : Event) : bool :=
  match e with EvLlm _ => true | _ => false end.

Definition llm_calls (w : World) : nat := length (List.filter is_llm_call (trace w)).

Definition is_ocr_call (e : Event) : bool :=
  match e with EvOcr _ => true | _ => false end.

Definition ocr_calls (w : World) : nat := length (List.filter is_ocr_call (trace w)).

(* ===================================================================== *)
(** * models/state.py *)
(* ===================================================================== *)

(** The two entries the stages store in [logging.debug_info]. *)
Inductive DebugStats : Type :=
| ImageProcessingStats
    (file_size_mb processing_time_seconds : Q) (characters_extracted : nat)
    (ocr_engine file_extension : string)
| LlmStats
    (model_used : string) (tokens_used : Z) (temperature : Q) (max_tokens : Z)
    (top_p : Q) (fields_extracted response_length : nat)
    (extraction_successful : bool)
    (prompt_system_length prompt_user_length : nat).

Module ProcessingMetrics.
Record t : Type := {
  tokens_used : Z;
  processing_time : Q;
  cost_estimate : Q;
  llm_model : string
}.
Definition default : t :=
  {| tokens_used := 0; processing_time := 0; cost_estimate := 0;
     llm_model := "gpt-4o-mini" |}.
End ProcessingMetrics.

Module DocumentInfo.
Record t : Type := {
  document_input : gmap string json;
  file_path : string;
  filename : string;
  file_size : Z
}.
Definition default : t :=
  {| document_input := ∅; file_path := ""; filename := ""; file_size := 0 |}.
End DocumentInfo.

Module ProcessingData.
Record t : Type := {
  raw_text : option string;
  ocr_confidence : Q
}.
Definition default : t := {| raw_text := None; ocr_confidence := 0 |}.
End ProcessingData.

Module ProcessingControl.
Record t : Type := {
  processing_stage : string;
  status : string
}.
Definition default : t :=
  {| processing_stage := "ingestion"; status := "PROCESSING" |}.
End ProcessingControl.

Module LoggingData.
Record t : Type := {
  messages : list string;
  errors : list string;
  warnings : list string;
  debug_info : gmap string DebugStats
}.
Definition default : t :=
  {| messages := []; errors := []; warnings := []; debug_info := ∅ |}.
End LoggingData.

Module PipelineState.

Record t : Type := {
  document_info : DocumentInfo.t;
  processing_data : ProcessingData.t;
  processing_control : ProcessingControl.t;
  metrics : ProcessingMetrics.t;
  logging : LoggingData.t;
  extracted_data : gmap string json
}.

Definition default : t :=
  {| document_info := DocumentInfo.default;
     processing_data := ProcessingData.default;
     processing_control := ProcessingControl.default;
     metrics := ProcessingMetrics.default;
     logging := LoggingData.default;
     extracted_data := ∅ |}.

(** *** Convenience properties *)

Definition status (self : t) : string :=
  ProcessingControl.status (processing_control self).

Definition processing_stage (self : t) : string :=
  ProcessingControl.processing_stage (processing_control self).

Definition confidence_score (self : t) : Q :=
  ProcessingData.ocr_confidence (processing_data self).

(** *** Attribute assignments ([self.a.b = v]) *)

Definition set_processing_stage (stage : string) (self : t) : t :=
  {| document_info := document_info self;
     processing_data := processing_data self;
     processing_control :=
       {| ProcessingControl.processing_stage := stage;
          ProcessingControl.status := status self |};
     metrics := metrics self;
     logging := logging self;
     extracted_data := extracted_data self |}.

Definition set_status (s : string) (self : t) : t :=
  {| document_info := document_info self;
     processing_data := processing_data self;
     processing_control :=
       {| ProcessingControl.processing_stage := processing_stage self;
          ProcessingControl.status := s |};
     metrics := metrics self;
     logging := logging self;
     extracted_data := extracted_data self |}.

Definition set_raw_text (txt : string) (self : t) : t :=
  {| document_info := document_info self;
     processing_data :=
       {| ProcessingData.raw_text := Some txt;
          ProcessingData.ocr_confidence :=
            ProcessingData.ocr_confidence (processing_data self) |};
     processing_control := processing_control self;
     metrics := metrics self;
     logging := logging self;
     extracted_data := extracted_data self |}.

Definition set_extracted_data (d : gmap string json) (self : t) : t :=
  {| document_info := document_info self;
     processing_data := processing_data self;
     processing_control := processing_control self;
     metrics := metrics self;
     logging := logging self;
     extracted_data := d |}.

Definition set_metrics (m : ProcessingMetrics.t) (self : t) : t :=
  {| document_info := document_info self;
     processing_data := processing_data self;
     processing_control := processing_control self;
     metrics := m;
     logging := logging self;
     extracted_data := extracted_data self |}.

Definition set_logging (l : LoggingData.t) (self : t) : t :=
  {| document_info := document_info self;
     processing_data := processing_data self;
     processing_control := processing_control self;
     metrics := metrics self;
     logging := l;
     extracted_data := extracted_data self |}.

(** [self.logging.debug_info.update({key: stats})] *)
Definition debug_info_update (key : string) (stats : DebugStats) (self : t) : t :=
  set_logging
    {| LoggingData.messages := LoggingData.messages (logging self);
       LoggingData.errors := LoggingData.errors (logging self);
       LoggingData.warnings := LoggingData.warnings (logging self);
       LoggingData.debug_info := <[key := stats]> (LoggingData.debug_info (logging self)) |}
    self.

(** *** State methods.  Each one mutates [self] and returns it; the clock
    is read once for the time stamp. *)

Section Methods.
Variable env : Env.

Definition stamped (n : nat) (message : string) : string :=
  "[" +:+ now_hms env n +:+ "] " +:+ message.

Definition add_message (message : string) (self : t) : M t :=
  n ← read_clock;
  mret (set_logging
          {| LoggingData.messages :=
               LoggingData.messages (logging self) ++ [stamped n message];
             LoggingData.errors := LoggingData.errors (logging self);
             LoggingData.warnings := LoggingData.warnings (logging self);
             LoggingData.debug_info := LoggingData.debug_info (logging self) |}
          self).

Definition update_stage (stage : string) (self : t) : M t :=
  add_message ("Iniciando etapa: " +:+ stage) (set_processing_stage stage self).

Definition add_error (error : string) (self : t) : M t :=
  n ← read_clock;
  mret (set_status "FAILED"
          (set_logging
             {| LoggingData.messages := LoggingData.messages (logging self);
                LoggingData.errors :=
                  LoggingData.errors (logging self) ++ [stamped n error];
                LoggingData.warnings := LoggingData.warnings (logging self);
                LoggingData.debug_info := LoggingData.debug_info (logging self) |}
             self)).

Definition add_warning (warning : string) (self : t) : M t :=
  n ← read_clock;
  mret (set_logging
          {| LoggingData.messages := LoggingData.messages (logging self);
             LoggingData.errors := LoggingData.errors (logging self);
             LoggingData.warnings :=
               LoggingData.warnings (logging self) ++ [stamped n warning];
             LoggingData.debug_info := LoggingData.debug_info (logging self) |}
          self).

End Methods.

(** [update_metrics(tokens=0, time_delta=0.0)].  The cost is computed with
    the literal price of the source (its comment: the price of
    gpt-4o-mini); no setting is consulted.  The cost is the exact rational;
    [tokens / 1000], a true division of an [int], raises [OverflowError]
    for a token total beyond the range of a float, and the definition holds
    for totals within that range (below [2 ^ 1000] in absolute value, as
    the end-to-end property of the happy path assumes). *)
Definition update_metrics (tokens : Z) (time_delta : Q) (self : t) : t :=
  let input_cost := ((inject_Z tokens / 1000) * (15 # 100000))%Q in
  set_metrics
    {| ProcessingMetrics.tokens_used :=
         (ProcessingMetrics.tokens_used (metrics self) + tokens)%Z;
       ProcessingMetrics.processing_time :=
         (ProcessingMetrics.processing_time (metrics self) + time_delta)%Q;
       ProcessingMetrics.cost_estimate :=
         (ProcessingMetrics.cost_estimate (metrics self) + input_cost)%Q;
       ProcessingMetrics.llm_model := ProcessingMetrics.llm_model (metrics self) |}
    self.

End PipelineState.

(* ===================================================================== *)
(** * models/prompts.py *)
(* ===================================================================== *)

Module Prompts.

(** The double quote and the line feed, which a literal cannot hold. *)
Definition dq : string := String (ascii_of_nat 34) EmptyString.
Definition nl : string := String (ascii_of_nat 10) EmptyString.

Definition EXTRACTION_SYSTEM_PROMPT : string :=
  "Eres un experto en analizar texto de licencias de conducir o DNIs".

(** [EXTRACTION_USER_PROMPT] up to the placeholder [{cleaned_text}], line by
    line. *)
Definition EXTRACTION_USER_PROMPT_before : string :=
  Py.join nl
    [ "Analiza el siguiente texto de una licencia o dni y extrae los datos solicitados:";
      "";
      "INSTRUCCIONES:";
      "1. Extrae SOLO la información que esté explícitamente presente en el texto";
      "2. Si un campo no está presente, usa null o lo que se especifique";
      "3. Mantén formatos originales (no inventes ni normalices a menos que se diga lo contrario)";
      "4. Responde ÚNICAMENTE en JSON válido, sin explicaciones";
      "5. Si encuentras múltiples valores para un campo, usa el más específico";
      "";
      "CAMPOS A EXTRAER:";
      "- apellido_paterno: Apellido paterno o primer apellido";
      "    - Debe estar en mayúsculas y sin abreviaciones";
      "    - Debe estar en la sección de apellidos y es el primero ";
      "- apellio_materno: Apellido materno o segundo apellido";
      "    - Debe estar en mayúsculas y sin abreviaciones";
      "    - Debe estar en la sección de apellidos y es el segundo";
      "- nombres: Nombres completos";
      "    - Debe estar en mayúsculas y sin abreviaciones";
      "    - Debe estar en la sección de nombres y puede incluir múltiples nombres";
      "- fecha_emision: Fecha de emisión    ";
      "    - Formato: " +:+ dq +:+ "DD/MM/AAAA" +:+ dq;
      "    - También puede llamarse fecha de expedición o emisión";
      "- fecha_caducidad: Fecha de caducidad";
      "    - Formato: " +:+ dq +:+ "DD/MM/AAAA" +:+ dq;
      "    - También puede llamarse fecha de vencimiento, expiración o revalidación";
      "- tipo_documento: Tipo de documento";
      "    - Debe ser uno de: " +:+ dq +:+ "DNI" +:+ dq +:+ ", " +:+ dq +:+ "LICENCIA DE CONDUCIR" +:+ dq +:+ ", " +:+ dq +:+ "PASAPORTE" +:+ dq +:+ ", " +:+ dq +:+ "CARNET DE EXTRANJERÍA" +:+ dq;
      "    - Si no está claro, usa null";
      "- numero_documento: Número del documento";
      "    - Debe ser el número completo, sin espacios ni guiones, en los DNI suele estar después de la palabra PER";
      "    - Si es DNI tiene 8 digitos";
      "    - Si no está claro, usa null";
      "";
      "TEXTO DEL DOCUMENTO DE IDENTIDAD:";
      "" ].

(** ... and after it. *)
Definition EXTRACTION_USER_PROMPT_after : string :=
  Py.join nl
    [ "";
      "";
      "Responde en formato JSON:" ].

(** [EXTRACTION_USER_PROMPT.format(cleaned_text=t)] *)
Definition EXTRACTION_USER_PROMPT_format (cleaned_text : string) : string :=
  EXTRACTION_USER_PROMPT_before +:+ cleaned_text +:+ EXTRACTION_USER_PROMPT_after.

(** The seven fields listed under [CAMPOS A EXTRAER], spelled as the prompt
    spells them. *)
Definition recognized_fields : list string :=
  [ "apellido_paterno"; "apellio_materno"; "nombres"; "fecha_emision";
    "fecha_caducidad"; "tipo_documento"; "numero_documento" ].

(** [generate_extraction_prompts(state)] *)
Definition generate_extraction_prompts (state : PipelineState.t)
  : exn + (string * string) :=
  let system_prompt := EXTRACTION_SYSTEM_PROMPT in
  match ProcessingData.raw_text (PipelineState.processing_data state) with
  | None => inl (Exception "No hay texto extraído disponible en el estado")
  | Some raw_text =>
      if negb (Py.truthy raw_text)
      then inl (Exception "No hay texto extraído disponible en el estado")
      else inr (system_prompt, EXTRACTION_USER_PROMPT_format raw_text)
  end.

End Prompts.

(* ===================================================================== *)
(** * pathlib and the file system *)
(* ===================================================================== *)

Module Path.

(** Paths are kept as strings in pathlib's normal form, so [Path(s)] and
    [str(p)] are the identity. *)

(** [p.name]: the last component. *)
Definition name (p : string) : string := Py.split_last "/" p.

(** [s.rfind(c)] *)
Fixpoint rfind (c : ascii) (s : list ascii) : option nat :=
  match s with
  | [] => None
  | a :: s' =>
      match rfind c s' with
      | Some i => Some (S i)
      | None => if Ascii.eqb c a then Some 0%nat else None
      end
  end.

(** [p.suffix]: from the last dot of the name on, unless that dot opens or
    closes the name. *)
Definition suffix (p : string) : string :=
  let nm := Py.chars (name p) in
  match rfind "." nm with
  | Some i =>
      if (0 <? i)%nat && (i <? length nm - 1)%nat then Py.str (drop i nm) else ""
  | None => ""
  end.

(** [dir / name] *)
Definition join (dir nm : string) : string := dir +:+ "/" +:+ nm.

(** [p.exists()], [os.path.exists(p)] *)
Definition exists_ (p : string) : M bool :=
  fs ← get_files; mret (bool_decide (is_Some (fs !! p))).

(** [os.unlink(p)], called on existing paths only: the call is logged in
    the trace; it removes the file, or fails and leaves it. *)
Definition unlink (env : Env) (p : string) : M (option exn) :=
  emit (EvUnlink p);;
  match os_unlink_error env p with
  | Some e => mret (Some e)
  | None => fs ← get_files; set_files (delete p fs);; mret None
  end.

(** The components of a path, split at the slashes. *)
Fixpoint components (s : list ascii) : list (list ascii) :=
  match s with
  | [] => [[]]
  | a :: s' =>
      if Ascii.eqb a "/" then [] :: components s'
      else match components s' with
           | c :: cs => (a :: c) :: cs
           | [] => [[a]]
           end
  end.

(** A path string in the form pathlib prints, so that [str(Path(s))] is [s]:
    after at most one leading slash, components that are neither empty nor
    a single dot. *)
Definition normal (p : string) : bool :=
  let s := Py.chars p in
  let relative := match s with "/"%char :: s' => s' | _ => s end in
  forallb (fun c => negb (Py.list_ascii_eqb c [])
                    && negb (Py.list_ascii_eqb c ["."%char]))
    (components relative).

End Path.

(* ===================================================================== *)
(** * utils/image_utils.py *)
(* ===================================================================== *)

Module ImageUtils.

Definition SUPPORTED_IMAGE_FORMATS : list string :=
  [".jpg"; ".jpeg"; ".png"; ".tiff"; ".tif"; ".bmp"].

Definition is_image_file (file_path : string) : bool :=
  existsb (String.eqb (Py.lower (Path.suffix file_path))) SUPPORTED_IMAGE_FORMATS.

(** Raises [ImportError] when Pillow could not be imported. *)
Definition validate_image_dependencies (env : Env) : option exn :=
  if negb (PIL_AVAILABLE env)
  then Some (Exception "Pillow no está instalado. Instalar con: pip install Pillow")
  else None.

End ImageUtils.

(* ===================================================================== *)
(** * utils/ocr_utils.py *)
(* ===================================================================== *)

Module OcrUtils.

Section WithEnv.
Variable env : Env.

Definition validate_tesseract_installation : bool * string :=
  if negb (VISION_AVAILABLE env)
  then (false, "Google Vision API no disponible. Instalar: pip install google-cloud-vision")
  else
    match GOOGLE_APPLICATION_CREDENTIALS env with
    | None => (false, "Variable GOOGLE_APPLICATION_CREDENTIALS no configurada")
    | Some credentials_path =>
        if negb (Py.truthy credentials_path)
        then (false, "Variable GOOGLE_APPLICATION_CREDENTIALS no configurada")
        else (true, "Google Vision API disponible")
    end.

Definition _ensure_vision_available : option exn :=
  if negb (VISION_AVAILABLE env)
  then Some (Exception
    "google-cloud-vision no está instalado. Instalar con: pip install google-cloud-vision")
  else None.

Definition _read_image_bytes (image_path : string) : M (exn + list byte) :=
  fs ← get_files;
  match fs !! image_path with
  | None => mret (inl (Exception ("Imagen no encontrada: " +:+ image_path)))
  | Some content => mret (inr content)
  end.

(** The call is logged in the trace; a response carrying an error message
    is turned into a [RuntimeError]; whatever is raised is logged and
    raised again. *)
Definition _call_vision_text_detection (image_bytes : list byte) (document : bool)
  : M (exn + VisionResponse) :=
  match _ensure_vision_available with
  | Some e => mret (inl e)
  | None =>
      emit (EvOcr image_bytes);;
      match (if document then document_text_detection env image_bytes
             else text_detection env image_bytes) with
      | inl e => mret (inl e)
      | inr response =>
          if Py.truthy (error_message response)
          then mret (inl (Exception ("Vision API error: " +:+ error_message response)))
          else mret (inr response)
      end
  end.

(** The simple version: the text only. *)
Definition extract_text_with_google_vision (image_path : string) : M (exn + string) :=
  r ← _read_image_bytes image_path;
  match r with
  | inl e => mret (inl e)
  | inr image_bytes =>
      r ← _call_vision_text_detection image_bytes true;
      match r with
      | inl e => mret (inl e)
      | inr response =>
          match full_text_annotation response with
          | Some annotation => mret (inr (text annotation))
          | None => mret (inr "")
          end
      end
  end.

End WithEnv.

(** The average the compatibility function [extract_text_with_tesseract]
    derives from the per-word confidences (in percent); the pipeline does
    not call that function. *)
Definition average_confidence (word_confidences : list Q) : Q :=
  let confidences := map (fun c => c * 100)%Q word_confidences in
  match confidences with
  | [] => 0
  | _ => (fold_right Qplus 0 confidences / inject_Z (Z.of_nat (length confidences)))%Q
  end.

End OcrUtils.

(* ===================================================================== *)
(** * utils/api_utils.py *)
(* ===================================================================== *)

Module ApiUtils.

(** FastAPI's [UploadFile]: the name sent by the client, if any, and what
    [file.file.read()] returns. *)
Record UploadFile : Type := {
  filename : option string;
  content : list byte
}.

Definition image_extensions : list string :=
  [".jpg"; ".jpeg"; ".png"; ".tiff"; ".tif"; ".bmp"].

(** The dictionary [magic_bytes], in source order. *)
Definition magic_bytes : list (string * list (list byte)) :=
  [ ("jpg",  [[xff; xd8; xff]]);
    ("jpeg", [[xff; xd8; xff]]);
    ("png",  [[x89; x50; x4e; x47]]);
    ("tiff", [[x49; x49; x2a; x00]; [x4d; x4d; x00; x2a]]);
    ("tif",  [[x49; x49; x2a; x00]; [x4d; x4d; x00; x2a]]);
    ("bmp",  [[x42; x4d]]) ].

Fixpoint dict_get {V} (d : list (string * V)) (k : string) : option V :=
  match d with
  | [] => None
  | (k', v) :: d' => if String.eqb k k' then Some v else dict_get d' k
  end.

Definition _is_valid_image_content (content : list byte) (filename : string) : bool :=
  match content with
  | [] => false
  | _ =>
      let ext :=
        if Py.contains_char "." filename
        then Py.lower (Py.split_last "." filename) else "" in
      match dict_get magic_bytes ext with
      | Some magics => existsb (fun magic => Py.bytes_starts magic content) magics
      | None => false
      end
  end.

(** [len(file_content) / (1024 * 1024)] *)
Definition size_mb (n : nat) : Q := inject_Z (Z.of_nat n) / inject_Z (1024 * 1024).

Section WithEnv.
Variable env : Env.
Variable settings : Settings.Settings.

Definition validate_document (file : UploadFile) : exn + list byte :=
  match filename file with
  | None => inl (HTTPException 400 "El archivo debe tener un nombre")
  | Some fname =>
      if negb (Py.truthy fname)
      then inl (HTTPException 400 "El archivo debe tener un nombre")
      else
        let filename_lower := Py.lower fname in
        let is_image := existsb (Py.endswith filename_lower) image_extensions in
        if negb is_image
        then
          let allowed_formats := Py.join ", " image_extensions in
          inl (HTTPException 400
                 ("Solo se aceptan imágenes. Formatos permitidos: " +:+ allowed_formats))
        else
          let file_content := content file in
          let file_size_mb := size_mb (length file_content) in
          let max_size := Settings.max_image_size_mb settings in
          if negb (Qle_bool file_size_mb (inject_Z max_size))
          then
            inl (HTTPException 413
                   ("Imagen demasiado grande: " +:+ format_float env 1 file_size_mb
                    +:+ "MB. Máximo permitido: " +:+ Py.str_of_Z max_size +:+ "MB"))
          else if negb (_is_valid_image_content file_content filename_lower)
          then inl (HTTPException 400 "El archivo no es una imagen válida")
          else inr file_content
  end.

(** The directory is created if needed, the name is made unique with a
    fresh uuid, and the bytes are written.  Each of the three file system
    steps may raise; a failure of the write or of the close leaves the file
    that [open] created, with the bytes that got through. *)
Definition save_temp_file (file_content : list byte) (fname temp_dir : string)
  : M (exn + string) :=
  match mkdir env temp_dir with
  | Some e => mret (inl e)
  | None =>
      n ← read_clock;
      let temp_filename := "upload_" +:+ uuid4_hex env n +:+ "_" +:+ fname in
      let temp_file_path := Path.join temp_dir temp_filename in
      match open_for_writing env temp_file_path with
      | Some e => mret (inl e)
      | None =>
          fs ← get_files;
          match write_bytes env temp_file_path file_content with
          | Some (e, written) =>
              set_files (<[temp_file_path := written]> fs);;
              mret (inl e)
          | None =>
              set_files (<[temp_file_path := file_content]> fs);;
              mret (inr temp_file_path)
          end
      end
  end.

End WithEnv.

End ApiUtils.

(* ===================================================================== *)
(** * nodes/image_processing.py  (Stage A) *)
(* ===================================================================== *)

Module ImageProcessing.

Section WithEnv.
Variable env : Env.
Variable settings : Settings.Settings.

(** The inner [try] around the OCR call: text extraction, the empty-text
    check, and the bookkeeping of a successful extraction. *)
Definition extract_and_store (file_path : string) (file_size_mb : Q)
    (start_time : Q) (state : PipelineState.t) : M PipelineState.t :=
  r ← OcrUtils.extract_text_with_google_vision env file_path;
  match r with
  | inl e =>
      let error_msg := "Error en Google Vision API: " +:+ exn_text env e in
      PipelineState.add_error env error_msg state
  | inr raw_text =>
      if negb (Py.truthy raw_text) || negb (Py.truthy (Py.strip raw_text))
      then PipelineState.add_error env "No se detectó texto en la imagen" state
      else
        let state := PipelineState.set_raw_text (Py.strip raw_text) state in
        n ← read_clock;
        let elapsed_time := (time_time env n - start_time)%Q in
        let char_count := Py.len raw_text in
        state ← PipelineState.add_message env
                  ("Texto extraído: " +:+ Py.str_of_nat char_count +:+ " caracteres")
                  state;
        mret (PipelineState.debug_info_update "image_processing_stats"
                (ImageProcessingStats file_size_mb elapsed_time char_count
                   "google_vision" (Py.lower (Path.suffix file_path)))
                state)
  end.

(** [image_processing_node].  The node does not look at the incoming
    status.  [file_path.exists()] and [file_path.stat().st_size] are one
    look-up of the file: for a file that is there both succeed; for a path
    without a file [exists()] answers [False], or raises the error of
    [os.stat] when that is not one it takes for absence, and then the
    outermost handler records the critical error.  The node works on
    [Path(file_path)]: the definition follows it for a path in the form
    pathlib prints ([Path.normal]), for which [str(Path(s))] is [s]. *)
Definition image_processing_node (state : PipelineState.t) : M PipelineState.t :=
  state ← PipelineState.update_stage env "ImageProcessing" state;
  n ← read_clock;
  let start_time := time_time env n in
  let '(vision_ok, vision_msg) := OcrUtils.validate_tesseract_installation env in
  if negb vision_ok
  then PipelineState.add_error env
         ("Google Vision API no disponible: " +:+ vision_msg) state
  else
    match ImageUtils.validate_image_dependencies env with
    | Some e =>
        PipelineState.add_error env
          ("Dependencias de imagen faltantes: " +:+ exn_text env e) state
    | None =>
        let file_path :=
          DocumentInfo.file_path (PipelineState.document_info state) in
        fs ← get_files;
        match fs !! file_path with
        | None =>
            match os_stat_error env file_path with
            | Some e =>
                PipelineState.add_error env
                  ("Error crítico en procesamiento de imagen: " +:+ exn_text env e)
                  state
            | None =>
                PipelineState.add_error env
                  ("Archivo no encontrado: " +:+ file_path) state
            end
        | Some file_bytes =>
            if negb (ImageUtils.is_image_file file_path)
            then PipelineState.add_error env
                   ("El archivo no es una imagen válida: " +:+ Path.suffix file_path)
                   state
            else
              let file_size_bytes := length file_bytes in
              let file_size_mb := ApiUtils.size_mb file_size_bytes in
              let max_size := Settings.max_image_size_mb settings in
              if negb (Qle_bool file_size_mb (inject_Z max_size))
              then PipelineState.add_error env
                     ("Imagen demasiado grande: " +:+ format_float env 1 file_size_mb
                      +:+ "MB > " +:+ Py.str_of_Z max_size +:+ "MB")
                     state
              else
                state ← PipelineState.add_message env
                          ("Imagen válida: " +:+ format_float env 2 file_size_mb +:+ "MB")
                          state;
                extract_and_store file_path file_size_mb start_time state
        end
    end.

End WithEnv.

End ImageProcessing.

(* ===================================================================== *)
(** * nodes/llm.py  (Stage B) *)
(* ===================================================================== *)

Module Llm.

(** The clean-up of the answer before parsing: the text handed to
    [json.loads] for a given [message.content]. *)
Definition clean_json_format (content : string) : string :=
  let content := Py.strip content in
  let content :=
    if Py.startswith content "```json" then Py.slice_from 7 content else content in
  let content :=
    if Py.endswith content "```" then Py.slice_to_neg 3 content else content in
  content.

Section WithEnv.
Variable env : Env.
Variable settings : Settings.Settings.

(** The handler of the main [try]. *)
Definition extraction_failed (e : exn) (state : PipelineState.t) : M PipelineState.t :=
  PipelineState.add_error env ("Error en extracción LLM: " +:+ exn_text env e) state.

(** The statements after a successful parse. *)
Definition store_extraction (result : gmap string json) (tokens_used : Z)
    (content system_prompt user_prompt : string) (state : PipelineState.t)
  : M PipelineState.t :=
  let state := PipelineState.set_extracted_data result state in
  let state := PipelineState.update_metrics tokens_used 0 state in
  let state := PipelineState.set_status "COMPLETED" state in
  let state :=
    PipelineState.debug_info_update "llm_stats"
      (LlmStats (Settings.llm_model settings) tokens_used
         (Settings.llm_temperature settings) 1500 (9 # 10)
         (size result) (Py.len content) true
         (Py.len system_prompt) (Py.len user_prompt))
      state in
  PipelineState.add_message env
    ("Extracción completada: " +:+ Py.str_of_nat (size result) +:+ " campos extraídos")
    state.

(** The arguments of the call [client.chat.completions.create(...)]. *)
Definition chat_request (system_prompt user_prompt : string) : ChatRequest :=
  {| req_model := Settings.llm_model settings;
     req_system := system_prompt;
     req_user := user_prompt;
     req_max_tokens := 1500;
     req_temperature := Settings.llm_temperature settings;
     req_top_p := 9 # 10 |}.

Definition llm_node (state : PipelineState.t) : M PipelineState.t :=
  if String.eqb (PipelineState.status state) "FAILED"
  then mret state
  else
    state ← PipelineState.update_stage env "llm_processing" state;
    match openai_client env (Settings.openai_api_key settings) with
    | Some e =>
        PipelineState.add_error env
          ("Error inicializando cliente OpenAI: " +:+ exn_text env e) state
    | None =>
        match Prompts.generate_extraction_prompts state with
        | inl e => extraction_failed e state
        | inr (system_prompt, user_prompt) =>
            let request := chat_request system_prompt user_prompt in
            emit (EvLlm request);;
            match chat_completions_create env request with
            | inl e => extraction_failed e state
            | inr response =>
                let tokens_used :=
                  match usage response with Some total => total | None => 0%Z end in
                match choices response with
                | [] => extraction_failed (Exception "list index out of range") state
                | None :: _ =>
                    extraction_failed
                      (Exception "'NoneType' object has no attribute 'strip'") state
                | Some message_content :: _ =>
                    let content := clean_json_format message_content in
                    match json_loads env (Py.strip content) with
                    | inl e => extraction_failed e state
                    | inr (JObject result) =>
                        store_extraction result tokens_used content
                          system_prompt user_prompt state
                    | inr _ =>
                        extraction_failed
                          (Exception "Respuesta de OpenAI no es un objeto JSON válido")
                          state
                    end
                end
            end
        end
    end.

End WithEnv.

End Llm.

(* ===================================================================== *)
(** * pipeline.py *)
(* ===================================================================== *)

Module Pipeline.

(** A value read from the final state is either the model object a node
    stored, a plain dictionary (a rehydrated state), or something else. *)
Inductive Loose (A D : Type) : Type :=
| AsModel (a : A)
| AsDict (d : D)
| Other.
Arguments AsModel {A D} a.
Arguments AsDict {A D} d.
Arguments Other {A D}.

(** Dictionary forms, with the keys the orchestrator reads. *)
Record ControlDict : Type := {
  cd_status : option string;
  cd_processing_stage : option string
}.

Record LoggingDict : Type := {
  ld_errors : option (list string);
  ld_warnings : option (list string)
}.

(** The mapping [ainvoke] returns, by the keys [process] reads; [None] is
    an absent key. *)
Record FinalState : Type := {
  fs_processing_control : option (Loose ProcessingControl.t ControlDict);
  fs_logging : option (Loose LoggingData.t LoggingDict);
  fs_metrics : option (Loose ProcessingMetrics.t (gmap string json));
  fs_extracted_data : option (gmap string json)
}.

(** The dictionaries [process] returns. *)
Record ResultControl : Type := {
  rc_status : option string;
  rc_processing_stage : string
}.

Record ErrorDetails : Type := {
  ed_errors : list string;
  ed_warnings : list string;
  ed_last_stage : string
}.

(** The keys [process] may set, and those [main.py] also asks for. *)
Record ProcessResult : Type := {
  processing_control : option ResultControl;
  error_details : option ErrorDetails;
  extracted_data : option (gmap string json);
  metrics : option (Loose ProcessingMetrics.t (gmap string json));
  time_metrics_total_time : option Q;   (* processing_control.time_metrics.total_time *)
  debug_ocr_confidence : option Q;      (* debug_info.ocr_stats.ocr_confidence *)
  debug_ocr_method : option string;     (* debug_info.ocr_stats.ocr_method *)
  processing_data_raw_text : option string   (* processing_data.raw_text *)
}.

Definition create_initial_state (file_path filename : string) : PipelineState.t :=
  let document_info :=
    {| DocumentInfo.document_input := ∅;
       DocumentInfo.file_path := file_path;
       DocumentInfo.filename := filename;
       DocumentInfo.file_size := 0 |} in
  {| PipelineState.document_info := document_info;
     PipelineState.processing_data := ProcessingData.default;
     PipelineState.processing_control := ProcessingControl.default;
     PipelineState.metrics := ProcessingMetrics.default;
     PipelineState.logging := LoggingData.default;
     PipelineState.extracted_data := ∅ |}.

(** The fields of a state, as the graph hands them back. *)
Definition channels (state : PipelineState.t) : FinalState :=
  {| fs_processing_control := Some (AsModel (PipelineState.processing_control state));
     fs_logging := Some (AsModel (PipelineState.logging state));
     fs_metrics := Some (AsModel (PipelineState.metrics state));
     fs_extracted_data := Some (PipelineState.extracted_data state) |}.

Section WithEnv.
Variable env : Env.
Variable settings : Settings.Settings.

(** The compiled graph: entry point [image_processing], an edge to [llm],
    an edge to [END]; or the failure of the invocation itself. *)
Definition ainvoke (initial_state : PipelineState.t) : M (exn + FinalState) :=
  match graph_failure env with
  | Some e => mret (inl e)
  | None =>
      state ← ImageProcessing.image_processing_node env settings initial_state;
      state ← Llm.llm_node env settings state;
      mret (inr (channels state))
  end.

(** The part of [process] after the graph has run. *)
Definition shape_result (final_state : FinalState) : ProcessResult :=
  let '(status, stage) :=
    match fs_processing_control final_state with
    | Some (AsModel pc) =>
        (Some (ProcessingControl.status pc), ProcessingControl.processing_stage pc)
    | Some (AsDict d) =>
        (cd_status d, default "unknown" (cd_processing_stage d))
    | _ => (None, "unknown")
    end in
  if bool_decide (status = Some "FAILED")
  then
    let '(errors, warnings) :=
      match fs_logging final_state with
      | Some (AsModel l) => (LoggingData.errors l, LoggingData.warnings l)
      | Some (AsDict d) => (default [] (ld_errors d), default [] (ld_warnings d))
      | _ => ([], [])
      end in
    {| processing_control :=
         Some {| rc_status := status; rc_processing_stage := stage |};
       error_details :=
         Some {| ed_errors := errors; ed_warnings := warnings; ed_last_stage := stage |};
       extracted_data := None;
       metrics := Some (default (AsDict ∅) (fs_metrics final_state));
       time_metrics_total_time := None;
       debug_ocr_confidence := None;
       debug_ocr_method := None;
       processing_data_raw_text := None |}
  else
    let metrics_dict :=
      match fs_metrics final_state with
      | Some (AsModel m) => AsModel m          (* model_dump() *)
      | Some (AsDict d) => AsDict d
      | _ => AsDict ∅
      end in
    {| processing_control :=
         Some {| rc_status :=
                   Some (match status with
                         | Some s => if Py.truthy s then s else "COMPLETED"
                         | None => "COMPLETED"
                         end);
                 rc_processing_stage := stage |};
       error_details := None;
       extracted_data := Some (default ∅ (fs_extracted_data final_state));
       metrics := Some metrics_dict;
       time_metrics_total_time := None;
       debug_ocr_confidence := None;
       debug_ocr_method := None;
       processing_data_raw_text := None |}.

(** [Pipeline.process]: never raises; [None] reports an exception outside
    the stages. *)
Definition process (file_path filename : string) : M (option ProcessResult) :=
  let initial_state := create_initial_state file_path filename in
  _ ← read_clock;                       (* thread_id = str(uuid.uuid4()) *)
  r ← ainvoke initial_state;
  match r with
  | inl _ => mret None
  | inr final_state => mret (Some (shape_result final_state))
  end.

End WithEnv.

End Pipeline.

(* ===================================================================== *)
(** * main.py  (job tracker) *)
(* ===================================================================== *)

Module Main.

Inductive JobStatus : Type := PENDING | PROCESSING | COMPLETED | FAILED.

Definition JobStatus_str (s : JobStatus) : string :=
  match s with
  | PENDING => "PENDING"
  | PROCESSING => "PROCESSING"
  | COMPLETED => "COMPLETED"
  | FAILED => "FAILED"
  end.

#[export] Instance JobStatus_eq_dec : EqDecision JobStatus.
Proof. solve_decision. Defined.

(** [enhanced_result["processing_metrics"]] *)
Record FrontendMetrics : Type := {
  fm_ocr_confidence : Q;
  fm_processing_time : Q;
  fm_text_length : nat;
  fm_ocr_method : string
}.

Record EnhancedResult : Type := {
  er_extracted_data : gmap string json;
  er_processing_metrics : FrontendMetrics;
  er_raw_result : Pipeline.ProcessResult
}.

(** A job record: the six keys set at submission, and the keys added by
    the background execution ([None]: key absent). *)
Record JobRecord : Type := {
  job_id : string;
  status : JobStatus;
  filename : string;
  file_size_mb : Q;
  created_at : string;
  file_path : string;
  started_at : option string;
  completed_at : option string;
  error : option string;
  error_details : option Pipeline.ErrorDetails;
  result : option EnhancedResult
}.

(** The [dict.update] calls of the background execution. *)
Definition mark_processing (now : string) (r : JobRecord) : JobRecord :=
  {| job_id := job_id r; status := PROCESSING; filename := filename r;
     file_size_mb := file_size_mb r; created_at := created_at r;
     file_path := file_path r; started_at := Some now;
     completed_at := completed_at r; error := error r;
     error_details := error_details r; result := result r |}.

Definition mark_failed (now error_msg : string)
    (details : option Pipeline.ErrorDetails) (r : JobRecord) : JobRecord :=
  {| job_id := job_id r; status := FAILED; filename := filename r;
     file_size_mb := file_size_mb r; created_at := created_at r;
     file_path := file_path r; started_at := started_at r;
     completed_at := Some now; error := Some error_msg;
     error_details :=
       match details with Some d => Some d | None => error_details r end;
     result := result r |}.

Definition mark_completed (now : string) (res : EnhancedResult) (r : JobRecord)
  : JobRecord :=
  {| job_id := job_id r; status := COMPLETED; filename := filename r;
     file_size_mb := file_size_mb r; created_at := created_at r;
     file_path := file_path r; started_at := started_at r;
     completed_at := Some now; error := error r;
     error_details := error_details r; result := Some res |}.

(** ** [job_storage]: a dictionary in insertion order *)

Definition JobStorage : Type := list (string * JobRecord).

(** [job_id in job_storage], [job_storage[job_id]] *)
Fixpoint storage_get (js : JobStorage) (id : string) : option JobRecord :=
  match js with
  | [] => None
  | (k, r) :: js' => if String.eqb id k then Some r else storage_get js' id
  end.

(** [job_storage[job_id].update(...)]: the record is changed in place;
    [None] is the [KeyError] of the subscript. *)
Fixpoint storage_update (id : string) (f : JobRecord -> JobRecord) (js : JobStorage)
  : option JobStorage :=
  match js with
  | [] => None
  | (k, r) :: js' =>
      if String.eqb id k then Some ((k, f r) :: js')
      else match storage_update id f js' with
           | Some js'' => Some ((k, r) :: js'')
           | None => None
           end
  end.

(** [job_storage[job_id] = record]: an existing key keeps its place. *)
Fixpoint storage_set (id : string) (rec : JobRecord) (js : JobStorage) : JobStorage :=
  match js with
  | [] => [(id, rec)]
  | (k, r) :: js' =>
      if String.eqb id k then (k, rec) :: js' else (k, r) :: storage_set id rec js'
  end.

(** [job_storage.pop(job_id)], without the popped record. *)
Fixpoint storage_pop (id : string) (js : JobStorage) : JobStorage :=
  match js with
  | [] => []
  | (k, r) :: js' => if String.eqb id k then js' else (k, r) :: storage_pop id js'
  end.

(** A scheduled call of [process_file_background]. *)
Record Task : Type := {
  task_job_id : string;
  task_file_path : string;
  task_filename : string
}.

(** The module-level state of the application. *)
Record App : Type := {
  job_storage : JobStorage;
  background_tasks : list Task
}.

(** ** Responses *)

Record UploadResponse : Type := {
  up_job_id : string;
  up_status : JobStatus;
  up_message : string;
  up_filename : string;
  up_file_type : string;
  up_estimated_time_seconds : Z
}.

Record StatusResponse : Type := {
  st_job_id : string;
  st_status : JobStatus;
  st_filename : string;
  st_created_at : string;
  st_started_at : option string;
  st_completed_at : option string;
  st_result_available : option bool;
  st_error : option string
}.

Record JobMetadata : Type := {
  jm_job_id : string;
  jm_filename : string;
  jm_file_size_mb : Q;
  jm_created_at : string;
  jm_completed_at : string
}.

Record ResultResponse : Type := {
  rr_result : EnhancedResult;
  rr_job_metadata : JobMetadata
}.

Record ListedJob : Type := {
  lj_job_id : string;
  lj_status : JobStatus;
  lj_filename : string;
  lj_created_at : string;
  lj_completed_at : option string;
  lj_error : option string
}.

Record ListResponse : Type := {
  total_jobs : nat;
  jobs : list ListedJob
}.

Record DeleteResponse : Type := {
  del_message : string;
  del_job_id : string;
  del_filename : string;
  del_status : JobStatus
}.

Record HealthResponse : Type := {
  h_status : string;
  h_timestamp : string;
  h_active_jobs : nat;
  h_total_jobs : nat;
  h_version : string
}.

Section WithEnv.
Variable env : Env.
Variable settings : Settings.Settings.

(** The awaited call [pipeline.process(file_path=..., filename=...)], as
    the background task sees it: it returns a result or [None], or an
    exception comes out of it. *)
Variable pipeline_process :
  string -> string -> M (base_exn + option Pipeline.ProcessResult).

(** What other requests do to [job_storage] while the task is suspended
    in its [await]. *)
Variable during_await : JobStorage -> JobStorage.

(** [enhanced_result], from a result that is not a failure. *)
Definition enhance (result : Pipeline.ProcessResult) : EnhancedResult :=
  let extracted_data := default ∅ (Pipeline.extracted_data result) in
  let raw_text := default "" (Pipeline.processing_data_raw_text result) in
  {| er_extracted_data := <["texto_extraido" := JString raw_text]> extracted_data;
     er_processing_metrics :=
       {| fm_ocr_confidence :=
            round_float env (default 0%Q (Pipeline.debug_ocr_confidence result)) 1;
          fm_processing_time :=
            round_float env (default 0%Q (Pipeline.time_metrics_total_time result)) 1;
          fm_text_length := Py.len raw_text;
          fm_ocr_method :=
            default "Google Vision API" (Pipeline.debug_ocr_method result) |};
     er_raw_result := result |}.

(** [result.get("processing_control", {}).get("status") == "FAILED"] *)
Definition result_failed (result : Pipeline.ProcessResult) : bool :=
  match Pipeline.processing_control result with
  | Some pc => bool_decide (Pipeline.rc_status pc = Some "FAILED")
  | None => false
  end.

(** [job_storage[job_id].update({..., <time stamp>: datetime.now().isoformat()})]:
    the subscript comes first, so a missing record raises [KeyError] before
    the clock is read; [None] is that [KeyError]. *)
Definition update_record (id : string) (f : string -> JobRecord -> JobRecord)
    (js : JobStorage) : M (option JobStorage) :=
  match storage_get js id with
  | None => mret None
  | Some _ =>
      n ← read_clock;
      mret (storage_update id (f (now_isoformat env n)) js)
  end.

(** [error_details = result.get("error_details", {})]; the empty
    dictionary is the record without errors. *)
Definition failure_details (result : Pipeline.ProcessResult) : Pipeline.ErrorDetails :=
  default {| Pipeline.ed_errors := []; Pipeline.ed_warnings := [];
             Pipeline.ed_last_stage := "" |}
          (Pipeline.error_details result).

(** ["; ".join(error_details.get("errors", ["Error desconocido en pipeline"]))] *)
Definition failure_message (result : Pipeline.ProcessResult) : string :=
  match Pipeline.error_details result with
  | Some d => Py.join "; " (Pipeline.ed_errors d)
  | None => "Error desconocido en pipeline"
  end.

(** The body of the [try]: the storage it leaves, and the exception that
    comes out of it, if any. *)
Definition background_body (id file_path fname : string) (js : JobStorage)
  : M (option base_exn * JobStorage) :=
  r ← update_record id mark_processing js;
  match r with
  | None => mret (Some (OfException (KeyError id)), js)
  | Some js =>
      r ← pipeline_process file_path fname;
      let js := during_await js in
      match r with
      | inl e => mret (Some e, js)
      | inr (Some result) =>
          if result_failed result
          then
            r ← update_record id
                  (fun now => mark_failed now (failure_message result)
                                (Some (failure_details result))) js;
            match r with
            | None => mret (Some (OfException (KeyError id)), js)
            | Some js' => mret (None, js')
            end
          else
            r ← update_record id (fun now => mark_completed now (enhance result)) js;
            match r with
            | None => mret (Some (OfException (KeyError id)), js)
            | Some js' => mret (None, js')
            end
      | inr None =>
          r ← update_record id
                (fun now => mark_failed now
                              "Error crítico en pipeline - resultado nulo" None) js;
          match r with
          | None => mret (Some (OfException (KeyError id)), js)
          | Some js' => mret (None, js')
          end
      end
  end.

(** [process_file_background]: the body, the handler of [except Exception]
    -- which a cancellation passes --, and the clean-up of [finally], whose
    own handler swallows a failure of [os.unlink].  The exception returned,
    if any, is the one that leaves the task. *)
Definition process_file_background (id file_path fname : string) (js : JobStorage)
  : M (option base_exn * JobStorage) :=
  '(raised, js) ← background_body id file_path fname js;
  out ← match raised with
        | None => mret (None, js)
        | Some CancelledError => mret (Some CancelledError, js)
        | Some (OfException e) =>
            r ← update_record id
                  (fun now => mark_failed now (exn_text env e) None) js;
            match r with
            | None => mret (Some (OfException (KeyError id)), js)
            | Some js' => mret (None, js')
            end
        end;
  there ← Path.exists_ file_path;
  (if there : bool then _ ← Path.unlink env file_path; mret tt else mret tt);;
  mret out.

(** The two handlers of [upload_document]: an [HTTPException] is raised
    again, anything else becomes a 500. *)
Definition as_http (e : exn) : exn :=
  match e with
  | HTTPException _ _ => e
  | _ => HTTPException 500 ("Error interno: " +:+ exn_text env e)
  end.

(** [upload_document] *)
Definition upload_document (file : ApiUtils.UploadFile) (app : App)
  : M ((exn + UploadResponse) * App) :=
  match ApiUtils.validate_document env settings file with
  | inl e => mret (inl (as_http e), app)
  | inr file_content =>
      let fname := default "" (ApiUtils.filename file) in
      n ← read_clock;
      let id := uuid4 env n in
      r ← ApiUtils.save_temp_file env file_content fname (Settings.temp_dir settings);
      match r with
      | inl e => mret (inl (as_http e), app)
      | inr temp_file_path =>
          there ← Path.exists_ temp_file_path;
          if negb there
          then mret (inl (HTTPException 400
                            "El archivo no se pudo guardar correctamente."), app)
          else
            n ← read_clock;
            let record :=
              {| job_id := id; status := PENDING; filename := fname;
                 file_size_mb :=
                   round_float env (ApiUtils.size_mb (length file_content)) 2;
                 created_at := now_isoformat env n;
                 file_path := temp_file_path;
                 started_at := None; completed_at := None; error := None;
                 error_details := None; result := None |} in
            let task :=
              {| task_job_id := id; task_file_path := temp_file_path;
                 task_filename := fname |} in
            mret (inr {| up_job_id := id; up_status := PENDING;
                         up_message :=
                           "Documento subido exitosamente. Procesamiento iniciado.";
                         up_filename := fname;
                         up_file_type :=
                           if Py.endswith (Py.lower fname) ".pdf"
                           then "PDF" else "Imagen";
                         up_estimated_time_seconds := 30 |},
                  {| job_storage := storage_set id record (job_storage app);
                     background_tasks := background_tasks app ++ [task] |})
      end
  end.

End WithEnv.

(** A subscript [job_data[key]] on a key that may be absent. *)
Definition subscript {A} (key : string) (v : option A) : exn + A :=
  match v with
  | Some a => inr a
  | None => inl (KeyError key)
  end.

(** [get_job_status] *)
Definition get_job_status (id : string) (js : JobStorage) : exn + StatusResponse :=
  match storage_get js id with
  | None => inl (HTTPException 404 "Job ID no encontrado")
  | Some job_data =>
      let response started completed available err :=
        {| st_job_id := id; st_status := status job_data;
           st_filename := filename job_data; st_created_at := created_at job_data;
           st_started_at := started; st_completed_at := completed;
           st_result_available := available; st_error := err |} in
      match status job_data with
      | PROCESSING => inr (response (started_at job_data) None None None)
      | COMPLETED =>
          match subscript "completed_at" (completed_at job_data) with
          | inl e => inl e
          | inr c => inr (response None (Some c) (Some true) None)
          end
      | FAILED =>
          match subscript "completed_at" (completed_at job_data) with
          | inl e => inl e
          | inr c =>
              match subscript "error" (error job_data) with
              | inl e => inl e
              | inr msg => inr (response None (Some c) None (Some msg))
              end
          end
      | PENDING => inr (response None None None None)
      end
  end.

(** [get_job_result] *)
Definition get_job_result (id : string) (js : JobStorage) : exn + ResultResponse :=
  match storage_get js id with
  | None => inl (HTTPException 404 "Job ID no encontrado")
  | Some job_data =>
      if negb (bool_decide (status job_data = COMPLETED))
      then inl (HTTPException 400
                  ("El trabajo está en estado '" +:+ JobStatus_str (status job_data)
                   +:+ "'. Solo trabajos COMPLETED tienen resultados."))
      else
        match subscript "result" (result job_data) with
        | inl e => inl e
        | inr res =>
            match subscript "completed_at" (completed_at job_data) with
            | inl e => inl e
            | inr c =>
                inr {| rr_result := res;
                       rr_job_metadata :=
                         {| jm_job_id := id; jm_filename := filename job_data;
                            jm_file_size_mb := file_size_mb job_data;
                            jm_created_at := created_at job_data;
                            jm_completed_at := c |} |}
            end
        end
  end.

(** [jobs.sort(key=lambda x: x["created_at"], reverse=True)]: newest first,
    jobs of equal time stamp in their original order. *)
Fixpoint insert_by_created_at (j : JobRecord) (l : list JobRecord) : list JobRecord :=
  match l with
  | [] => [j]
  | x :: l' =>
      if String.leb (created_at x) (created_at j) then j :: l
      else x :: insert_by_created_at j l'
  end.

Definition sort_newest_first (l : list JobRecord) : list JobRecord :=
  fold_right insert_by_created_at [] l.

(** [jobs[:limit]], also for a negative [limit]. *)
Definition slice_to {A} (limit : Z) (l : list A) : list A :=
  if (0 <=? limit)%Z then take (Z.to_nat limit) l
  else take (length l - Z.to_nat (- limit)) l.

(** One entry of the listing. *)
Definition simplify_job (job : JobRecord) : exn + ListedJob :=
  let simplified completed err :=
    {| lj_job_id := job_id job; lj_status := status job;
       lj_filename := filename job; lj_created_at := created_at job;
       lj_completed_at := completed; lj_error := err |} in
  match status job with
  | COMPLETED =>
      match subscript "completed_at" (completed_at job) with
      | inl e => inl e
      | inr c => inr (simplified (Some c) None)
      end
  | FAILED => inr (simplified None (Some (default "Unknown error" (error job))))
  | _ => inr (simplified None None)
  end.

Fixpoint simplify_jobs (l : list JobRecord) : exn + list ListedJob :=
  match l with
  | [] => inr []
  | job :: rest =>
      match simplify_job job with
      | inl e => inl e
      | inr s =>
          match simplify_jobs rest with
          | inl e => inl e
          | inr ss => inr (s :: ss)
          end
      end
  end.

(** [list_jobs] *)
Definition list_jobs (limit : Z) (js : JobStorage) : exn + ListResponse :=
  let jobs := slice_to limit (sort_newest_first (map snd js)) in
  match simplify_jobs jobs with
  | inl e => inl e
  | inr simplified_jobs =>
      inr {| total_jobs := length js; jobs := simplified_jobs |}
  end.

(** [delete_job]: the record is removed, and a file still at its path is
    deleted; a failure of [os.unlink] is logged and otherwise ignored. *)
Definition delete_job (env : Env) (id : string) (js : JobStorage)
  : M ((exn + DeleteResponse) * JobStorage) :=
  match storage_get js id with
  | None => mret (inl (HTTPException 404 "Job ID no encontrado"), js)
  | Some job_data =>
      let js := storage_pop id js in
      there ← Path.exists_ (file_path job_data);
      (if there : bool
       then _ ← Path.unlink env (file_path job_data); mret tt
       else mret tt);;
      mret (inr {| del_message := "Job " +:+ id +:+ " eliminado exitosamente";
                   del_job_id := id; del_filename := filename job_data;
                   del_status := status job_data |}, js)
  end.

(** [health_check] *)
Definition health_check (env : Env) (js : JobStorage) : M HealthResponse :=
  n ← read_clock;
  mret {| h_status := "healthy"; h_timestamp := now_isoformat env n;
          h_active_jobs :=
            length (List.filter (fun j => bool_decide (status (snd j) = PENDING)
                                     || bool_decide (status (snd j) = PROCESSING)) js);
          h_total_jobs := length js; h_version := "2.0.0" |}.

(** The global [pipeline = Pipeline()], as the background task calls it. *)
Definition pipeline (env : Env) (settings : Settings.Settings)
    (file_path fname : string) : M (base_exn + option Pipeline.ProcessResult) :=
  r ← Pipeline.process env settings file_path fname; mret (inr r).

End Main.

(* ===================================================================== *)
(** * Concrete worlds *)
(* ===================================================================== *)

Module Scenario.

Definition dq : string := Prompts.dq.

(** [json.loads] on the few texts the scenarios use; any other text is
    rejected with the decoder's message for a text that opens with no JSON
    value. *)
Definition json_loads_on (table : list (string * json)) (s : string) : exn + json :=
  match ApiUtils.dict_get table s with
  | Some j => inr j
  | None => inl (Exception "Expecting value: line 1 column 1 (char 0)")
  end.

(** The JSON text [{"nombres": "JUAN", "edad": "30"}] and its value. *)
Definition answer_text : string :=
  "{" +:+ dq +:+ "nombres" +:+ dq +:+ ": " +:+ dq +:+ "JUAN" +:+ dq +:+ ", "
      +:+ dq +:+ "edad" +:+ dq +:+ ": " +:+ dq +:+ "30" +:+ dq +:+ "}".

Definition answer_value : gmap string json :=
  <["nombres" := JString "JUAN"]> (<["edad" := JString "30"]> ∅).

Definition json_table : list (string * json) :=
  [ (answer_text, JObject answer_value);
    ("{}", JObject ∅);
    ("[]", JArray []);
    ("42", JInt 42) ].

Definition two_digits (n : nat) : string :=
  if (n <? 10)%nat then "0" +:+ Py.str_of_nat n else Py.str_of_nat n.

(** A world where every collaborator is available; the OCR returns
    [ocr_text] with two confident words and the LLM answers [llm_content],
    reporting 1000 tokens. *)
Definition env (ocr_text llm_content : string) : Env :=
  {| time_time := fun n => inject_Z (Z.of_nat n);
     now_hms := fun n => "12:00:" +:+ two_digits n;
     now_isoformat := fun n => "2025-01-01T12:00:" +:+ two_digits n;
     uuid4 := fun n => "job-" +:+ Py.str_of_nat n;
     uuid4_hex := fun n => "hex" +:+ Py.str_of_nat n;
     format_float := fun _ _ => "0.00";
     round_float := fun q _ => q;
     VISION_AVAILABLE := true;
     GOOGLE_APPLICATION_CREDENTIALS := Some "/tmp/credentials.json";
     PIL_AVAILABLE := true;
     repr_str := fun s => "'" +:+ s +:+ "'";
     mkdir := fun _ => None;
     open_for_writing := fun _ => None;
     write_bytes := fun _ _ => None;
     os_stat_error := fun _ => None;
     os_unlink_error := fun _ => None;
     document_text_detection := fun _ =>
       inr {| error_message := "";
              full_text_annotation :=
                Some {| text := ocr_text;
                        word_confidences := [98 # 100; 95 # 100] |} |};
     text_detection := fun _ => inl (Exception "not used");
     openai_client := fun _ => None;
     chat_completions_create := fun _ =>
       inr {| choices := [Some llm_content]; usage := Some 1000%Z |};
     json_loads := json_loads_on json_table;
     graph_failure := None |}.

Definition settings : Settings.Settings := Settings.defaults "sk-test".

Definition settings_gpt4o : Settings.Settings :=
  {| Settings.openai_api_key := "sk-test";
     Settings.max_image_size_mb := 10;
     Settings.temp_dir := "temp";
     Settings.llm_model := "gpt-4o";
     Settings.llm_temperature := 1 # 10;
     Settings.openai_pricing := Settings.default_openai_pricing |}.

(** A PNG upload and the world after it has been saved. *)
Definition png_bytes : list byte := [x89; x50; x4e; x47; x0d; x0a; x1a; x0a].

Definition upload_path : string := "temp/upload_hex1_dni.png".

Definition world : World :=
  {| tick := 3; files := <[upload_path := png_bytes]> ∅; trace := [] |}.

Definition pending_job : Main.JobRecord :=
  {| Main.job_id := "job-0"; Main.status := Main.PENDING;
     Main.filename := "dni.png"; Main.file_size_mb := 0;
     Main.created_at := "2025-01-01T12:00:02"; Main.file_path := upload_path;
     Main.started_at := None; Main.completed_at := None; Main.error := None;
     Main.error_details := None; Main.result := None |}.

Definition storage : Main.JobStorage := [("job-0", pending_job)].

(** The same job after a failed execution. *)
Definition failed_job : Main.JobRecord :=
  Main.mark_failed "2025-01-01T12:00:09"
    "Error crítico en pipeline - resultado nulo" None pending_job.

Definition finished_storage : Main.JobStorage := [("job-0", failed_job)].

(** The background execution of that job, with the real pipeline and no
    other request in between. *)
Definition run (ocr_text llm_content : string) (cfg : Settings.Settings)
  : option base_exn * Main.JobStorage * World :=
  Main.process_file_background (env ocr_text llm_content)
    (Main.pipeline (env ocr_text llm_content) cfg) (fun js => js)
    "job-0" upload_path "dni.png" storage world.

(** An awaited pipeline call during which the task is cancelled. *)
Definition cancelled_call (file_path fname : string)
  : M (base_exn + option Pipeline.ProcessResult) :=
  mret (inl CancelledError).

(** A state that has failed, and a fresh one holding OCR text. *)
Definition failed_state : PipelineState.t :=
  PipelineState.set_status "FAILED"
    (Pipeline.create_initial_state upload_path "dni.png").

Definition text_state : PipelineState.t :=
  PipelineState.set_raw_text "REPUBLICA DEL PERU"
    (Pipeline.create_initial_state upload_path "dni.png").

End Scenario.


(* ===================================================================== *)
(** * The statements of the specification, in its own words *)
(* ===================================================================== *)

Module SpecWords.

(** The fixed recognized field set. *)
Definition recognized (key : string) : Prop := In key Prompts.recognized_fields.

(** The prices the pricing table configures for the configured model. *)
Definition configured_prices (settings : Settings.Settings) : list Q :=
  match Settings.openai_pricing settings !! Settings.llm_model settings with
  | Some p => [Settings.input p; Settings.output p]
  | None => []
  end.

(** Cost estimate = tokens x price-per-token. *)
Definition cost_increase (tokens : Z) (price_per_token : Q) : Q :=
  (inject_Z tokens * price_per_token)%Q.

(** The magic-byte signatures of an extension such as [.png]. *)
Definition signatures (ext : string) : list (list byte) :=
  default [] (ApiUtils.dict_get ApiUtils.magic_bytes (Py.slice_from 1 ext)).

(** The leading bytes of the payload match a signature of the extension. *)
Definition magic_matches (ext : string) (content : list byte) : Prop :=
  exists magic rest, In magic (signatures ext) /\ content = magic ++ rest.

(** The payload passes the size ceiling of [max_mb] megabytes. *)
Definition within_ceiling (max_mb : Z) (content : list byte) : Prop :=
  (Z.of_nat (length content) <= max_mb * (1024 * 1024))%Z.

(** The text the OCR collaborator returned. *)
Definition ocr_text (response : VisionResponse) : string :=
  match full_text_annotation response with
  | Some annotation => text annotation
  | None => ""
  end.

(** The invariant of the job store: a terminal record carries
    [completed_at], a failed one also [error]. *)
Definition record_ok (r : Main.JobRecord) : Prop :=
  (Main.status r = Main.COMPLETED \/ Main.status r = Main.FAILED ->
     is_Some (Main.completed_at r))
  /\ (Main.status r = Main.FAILED -> is_Some (Main.error r)).

Definition job_store_inv (js : Main.JobStorage) : Prop :=
  Forall (fun entry => record_ok (snd entry)) js.

End SpecWords.

(** The update with which a background execution finishes, for each way
    the awaited pipeline call can end. *)
Inductive finalisation (env : Env)
    (outcome : base_exn + option Pipeline.ProcessResult)
  : (Main.JobRecord -> Main.JobRecord) -> Prop :=
| fin_raised e now :
    outcome = inl (OfException e) ->
    finalisation env outcome (Main.mark_failed now (exn_text env e) None)
| fin_null now :
    outcome = inr None ->
    finalisation env outcome
      (Main.mark_failed now "Error crítico en pipeline - resultado nulo" None)
| fin_failed result now :
    outcome = inr (Some result) ->
    Main.result_failed result = true ->
    finalisation env outcome
      (Main.mark_failed now (Main.failure_message result)
         (Some (Main.failure_details result)))
| fin_completed result now :
    outcome = inr (Some result) ->
    Main.result_failed result = false ->
    finalisation env outcome (Main.mark_completed now (Main.enhance env result)).


(* ===================================================================== *)
(** * models/state.py: the completeness score *)
(* ===================================================================== *)

Module Completeness.

(** [v is not None and str(v).strip()].  For a value that is not a string,
    [str(v)] is the text of a number, of [True] or [False], or of a list or
    dictionary in brackets, which is never blank; for a string it is the
    string itself. *)
Definition is_filled (v : json) : bool :=
  match v with
  | JNull => false
  | JString s => Py.truthy (Py.strip s)
  | _ => true
  end.

(** [PipelineState.completeness_score] *)
Definition completeness_score (self : PipelineState.t) : Q :=
  let values := map snd (map_to_list (PipelineState.extracted_data self)) in
  match values with
  | [] => 0
  | _ =>
      let total_fields := length values in
      let non_empty_fields := length (List.filter is_filled values) in
      (inject_Z (Z.of_nat non_empty_fields) / inject_Z (Z.of_nat total_fields) * 100)%Q
  end.

End Completeness.

(* ===================================================================== *)
(** * utils/ocr_utils.py: the functions returning confidences *)
(* ===================================================================== *)

Module OcrCompat.

(** The dictionary [metrics] of [extract_text_with_tesseract]. *)
Record Metrics : Type := {
  total_words : nat;
  avg_confidence : Q;                 (* round(avg_confidence, 2) *)
  low_confidence_words : nat;
  high_confidence_words : nat;
  text_length : nat;
  engine : string;
  language : string;
  distribution_high : nat;
  distribution_medium : Z;            (* total - low - high *)
  distribution_low : nat
}.

(** The counters of the loop over the words, after the words [ws] (their
    confidences, in percent): [(total_words, low, high)]. *)
Fixpoint count_words (confidence_threshold : Q) (ws : list Q) (acc : nat * nat * nat)
  : nat * nat * nat :=
  match ws with
  | [] => acc
  | word_confidence :: rest =>
      let '(total, low, high) := acc in
      let total := S total in
      count_words confidence_threshold rest
        (if negb (Qle_bool confidence_threshold word_confidence)   (* wc < threshold *)
         then (total, S low, high)
         else if Qle_bool 80 word_confidence                       (* wc >= 80 *)
              then (total, low, S high)
              else (total, low, high))
  end.

Section WithEnv.
Variable env : Env.

(** [extract_text_with_tesseract(image_path, language, config,
    confidence_threshold)].  The image is read outside the [try], so a
    missing file raises as it is; whatever the detection raises is wrapped.
    An annotation that is falsy is the empty message: no text, no words. *)
Definition extract_text_with_tesseract (image_path language : string)
    (confidence_threshold : Q) : M (exn + (string * Q * Metrics)) :=
  r ← OcrUtils._read_image_bytes image_path;
  match r with
  | inl e => mret (inl e)
  | inr image_bytes =>
      r ← OcrUtils._call_vision_text_detection env image_bytes true;
      match r with
      | inl e => mret (inl (Exception ("Error en Google Vision OCR: " +:+ exn_text env e)))
      | inr response =>
          let '(txt, words) :=
            match full_text_annotation response with
            | Some annotation => (text annotation, word_confidences annotation)
            | None => ("", [])
            end in
          let confidences := map (fun c => c * 100)%Q words in
          let '(total, low, high) :=
            count_words confidence_threshold confidences (0, 0, 0)%nat in
          let avg := OcrUtils.average_confidence words in
          mret (inr (txt, avg,
                     {| total_words := total;
                        avg_confidence := round_float env avg 2;
                        low_confidence_words := low;
                        high_confidence_words := high;
                        text_length := Py.len txt;
                        engine := "google_vision";
                        language := language;
                        distribution_high := high;
                        distribution_medium :=
                          (Z.of_nat total - Z.of_nat low - Z.of_nat high)%Z;
                        distribution_low := low |}))
      end
  end.

(** One entry of [page_results]. *)
Inductive PageResult : Type :=
| PageSuccess (page text_length : nat) (confidence : Q) (words : nat)
| PageNoText (page : nat)
| PageError (page : nat) (error : string).

(** The dictionary [combined_metrics]. *)
Record CombinedMetrics : Type := {
  total_pages : nat;
  successful_pages : nat;
  failed_pages : nat;
  page_results : list PageResult;
  combined_engine : string;
  total_text_length : nat;
  combined_avg_confidence : Q;        (* round(avg_confidence, 2) *)
  pages_with_text : nat;
  combined_total_words : nat
}.

(** The variables the loop over the pages updates. *)
Record Pages : Type := {
  all_texts : list string;
  all_confidences : list Q;
  successful : nat;
  failed : nat;
  results : list PageResult
}.

(** The body of the loop, for the page of index [i]. *)
Definition process_page (language : string) (i : nat) (image_path : string)
    (acc : Pages) : M Pages :=
  r ← extract_text_with_tesseract image_path language 60;
  match r with
  | inr (txt, confidence, metrics) =>
      if Py.truthy (Py.strip txt)
      then
        mret {| all_texts :=
                  all_texts acc
                  ++ ["--- PÁGINA " +:+ Py.str_of_nat (i + 1) +:+ " ---"
                      +:+ Prompts.nl +:+ txt];
                all_confidences := all_confidences acc ++ [confidence];
                successful := S (successful acc);
                failed := failed acc;
                results :=
                  results acc
                  ++ [PageSuccess (i + 1) (Py.len txt) (round_float env confidence 2)
                        (total_words metrics)] |}
      else
        mret {| all_texts := all_texts acc;
                all_confidences := all_confidences acc;
                successful := successful acc;
                failed := S (failed acc);
                results := results acc ++ [PageNoText (i + 1)] |}
  | inl e =>
      mret {| all_texts := all_texts acc;
              all_confidences := all_confidences acc;
              successful := successful acc;
              failed := S (failed acc);
              results := results acc ++ [PageError (i + 1) (exn_text env e)] |}
  end.

(** [for i, image_path in enumerate(image_paths)], from index [i] on. *)
Fixpoint process_pages (language : string) (i : nat) (image_paths : list string)
    (acc : Pages) : M Pages :=
  match image_paths with
  | [] => mret acc
  | image_path :: rest =>
      acc ← process_page language i image_path acc;
      process_pages language (S i) rest acc
  end.

(** [result["page"]] and [result["status"] == "success"] *)
Definition page (r : PageResult) : nat :=
  match r with
  | PageSuccess p _ _ _ | PageNoText p | PageError p _ => p
  end.

Definition is_success (r : PageResult) : bool :=
  match r with
  | PageSuccess _ _ _ _ => true
  | _ => false
  end.

(** [sum(result.get("words", 0) for result in page_results if result.get("words"))] *)
Definition words_of (r : PageResult) : nat :=
  match r with
  | PageSuccess _ _ _ words => words
  | _ => 0
  end.

(** [sum(all_confidences) / len(all_confidences) if all_confidences else 0.0] *)
Definition mean (l : list Q) : Q :=
  match l with
  | [] => 0
  | _ => (fold_left Qplus l 0 / inject_Z (Z.of_nat (length l)))%Q
  end.

(** [extract_text_from_multiple_images(image_paths, language, config)]: the
    combined text, the mean confidence, and the metrics, which for an empty
    list are the one entry [error]. *)
Definition extract_text_from_multiple_images (image_paths : list string)
    (language : string) : M (string * Q * (string + CombinedMetrics)) :=
  match image_paths with
  | [] => mret ("", 0%Q, inl "No hay imágenes para procesar")
  | _ =>
      acc ← process_pages language 0 image_paths
              {| all_texts := []; all_confidences := []; successful := 0;
                 failed := 0; results := [] |};
      let combined_text := Py.join (Prompts.nl +:+ Prompts.nl) (all_texts acc) in
      let avg := mean (all_confidences acc) in
      mret (combined_text, avg,
            inr {| total_pages := length image_paths;
                   successful_pages := successful acc;
                   failed_pages := failed acc;
                   page_results := results acc;
                   combined_engine := "google_vision";
                   total_text_length := Py.len combined_text;
                   combined_avg_confidence := round_float env avg 2;
                   pages_with_text := length (all_texts acc);
                   combined_total_words :=
                     fold_right Nat.add 0%nat (map words_of (results acc)) |})
  end.

End WithEnv.

End OcrCompat.

(* ===================================================================== *)
(** * Vocabulary for the properties of the job store *)
(* ===================================================================== *)

Module JobStore.

(** A dictionary has each key once. *)
Definition unique_keys (js : Main.JobStorage) : Prop := NoDup (map fst js).

(** Creation times never increase along the list. *)
Fixpoint newest_first (l : list string) : Prop :=
  match l with
  | [] => True
  | t :: rest => Forall (fun t' => String.leb t' t = true) rest /\ newest_first rest
  end.

(** The job counts as active. *)
Definition active (r : Main.JobRecord) : bool :=
  match Main.status r with
  | Main.PENDING | Main.PROCESSING => true
  | _ => false
  end.

End JobStore.

(* ===================================================================== *)
(** * Properties *)
(* ===================================================================== *)

(** ** The built-ins on small inputs *)

Example strip_unicode_whitespace :
  Py.strip (" " +:+ Py.str (Py.bytes_of [194; 160]%N) +:+ "DNI 123"
            +:+ Py.str (Py.bytes_of [10; 226; 128; 169; 13]%N)) = "DNI 123".
Proof. reflexivity. Qed.

Example len_counts_code_points : Py.len "detectó" = 7%nat.
Proof. reflexivity. Qed.

Example split_last_examples :
  Py.split_last "." "a.b.jpg" = "jpg" /\ Py.split_last "." "abc" = "abc"
  /\ Py.split_last "." "abc." = "".
Proof. by split_and!. Qed.

Example suffix_examples :
  Path.suffix "temp/upload_1_dni.PNG" = ".PNG" /\ Path.suffix "temp/.hidden" = ""
  /\ Path.suffix "temp/dni." = "" /\ Path.suffix "temp.d/dni" = ""
  /\ Path.suffix "a.tar.gz" = ".gz".
Proof. by split_and!. Qed.

Example is_image_file_examples :
  ImageUtils.is_image_file "temp/upload_1_dni.PNG" = true
  /\ ImageUtils.is_image_file "temp/upload_1_dni.pdf" = false.
Proof. by split_and!. Qed.

Example clean_json_format_examples :
  Llm.clean_json_format ("  ```json" +:+ Prompts.nl +:+ "{}" +:+ Prompts.nl +:+ "```  ")
    = Prompts.nl +:+ "{}" +:+ Prompts.nl
  /\ Llm.clean_json_format "{}" = "{}"
  /\ Llm.clean_json_format "```json{}" = "{}"
  /\ Llm.clean_json_format "{}```" = "{}".
Proof. by split_and!. Qed.

Example validate_document_examples :
  let validate name bytes :=
    ApiUtils.validate_document (Scenario.env "" "") Scenario.settings
      {| ApiUtils.filename := Some name; ApiUtils.content := bytes |} in
  validate "dni.png" Scenario.png_bytes = inr Scenario.png_bytes
  /\ validate "dni.jpg" Scenario.png_bytes
     = inl (HTTPException 400 "El archivo no es una imagen válida")
  /\ validate "dni.png" [] = inl (HTTPException 400 "El archivo no es una imagen válida")
  /\ validate "" Scenario.png_bytes
     = inl (HTTPException 400 "El archivo debe tener un nombre").
Proof. by split_and!. Qed.

Example sort_newest_first_example :
  let stamped t r :=
    {| Main.job_id := Main.job_id r; Main.status := Main.status r;
       Main.filename := Main.filename r; Main.file_size_mb := Main.file_size_mb r;
       Main.created_at := t; Main.file_path := Main.file_path r;
       Main.started_at := Main.started_at r; Main.completed_at := Main.completed_at r;
       Main.error := Main.error r; Main.error_details := Main.error_details r;
       Main.result := Main.result r |} in
  map Main.created_at
    (Main.sort_newest_first
       [stamped "2025-01-01T10:00:00" Scenario.pending_job;
        stamped "2025-01-03T10:00:00" Scenario.pending_job;
        stamped "2025-01-02T10:00:00" Scenario.pending_job])
  = ["2025-01-03T10:00:00"; "2025-01-02T10:00:00"; "2025-01-01T10:00:00"].
Proof. reflexivity. Qed.

(** ** The state methods and the status *)

Section StatusLemmas.
Variable env : Env.

Lemma add_message_status message st w :
  PipelineState.status (fst (PipelineState.add_message env message st w))
  = PipelineState.status st.
Proof. reflexivity. Qed.

Lemma update_stage_status stage st w :
  PipelineState.status (fst (PipelineState.update_stage env stage st w))
  = PipelineState.status st.
Proof. reflexivity. Qed.

Lemma add_error_status error st w :
  PipelineState.status (fst (PipelineState.add_error env error st w)) = "FAILED".
Proof. reflexivity. Qed.

Lemma add_error_errors error st w :
  LoggingData.errors (PipelineState.logging (fst (PipelineState.add_error env error st w)))
  = LoggingData.errors (PipelineState.logging st)
    ++ [PipelineState.stamped env (tick w) error].
Proof. reflexivity. Qed.

End StatusLemmas.

(** Unfolding the stages down to the leaves, which stay folded. *)
#[local] Arguments ImageUtils.is_image_file : simpl never.
#[local] Arguments Path.suffix : simpl never.
#[local] Arguments Py.strip : simpl never.
#[local] Arguments Py.truthy : simpl never.
#[local] Arguments Py.lower : simpl never.
#[local] Arguments Py.len : simpl never.
#[local] Arguments Py.str_of_nat : simpl never.
#[local] Arguments Py.str_of_Z : simpl never.
#[local] Arguments Py.join : simpl never.
#[local] Arguments Py.startswith : simpl never.
#[local] Arguments Py.endswith : simpl never.
#[local] Arguments Py.slice_from : simpl never.
#[local] Arguments Py.slice_to_neg : simpl never.
#[local] Arguments String.append : simpl never.
#[local] Arguments String.eqb : simpl never.
#[local] Arguments ApiUtils.size_mb : simpl never.
#[local] Arguments Qle_bool : simpl never.
#[local] Arguments Prompts.EXTRACTION_USER_PROMPT_format : simpl never.
#[local] Arguments Llm.clean_json_format : simpl never.
#[local] Arguments OcrUtils.validate_tesseract_installation : simpl never.
#[local] Arguments ImageUtils.validate_image_dependencies : simpl never.
#[local] Arguments OcrUtils._ensure_vision_available : simpl never.
#[local] Arguments Llm.chat_request : simpl never.
#[local] Arguments Main.update_record : simpl never.
#[local] Arguments Main.failure_message : simpl never.

Ltac run_M :=
  unfold PipelineState.update_stage, PipelineState.add_message,
    PipelineState.add_error, PipelineState.add_warning, Path.exists_, Path.unlink;
  unfold mbind, M_bind, mret, M_ret, read_clock, emit, get_files, set_files;
  cbn.

Ltac unfold_stage_a :=
  unfold ImageProcessing.image_processing_node, ImageProcessing.extract_and_store,
    OcrUtils.extract_text_with_google_vision, OcrUtils._read_image_bytes,
    OcrUtils._call_vision_text_detection.

(** One case distinction on a scrutinee of the goal that is itself free of
    case distinctions. *)
Ltac case_step :=
  match goal with
  | |- context [match ?x with _ => _ end] =>
      lazymatch x with
      | context [match _ with _ => _ end] => fail
      | _ => destruct x eqn:?
      end
  end; cbn.

(** Stage A either keeps the status it was given or sets it to FAILED. *)
Lemma image_processing_node_status env settings st w :
  let st' := fst (ImageProcessing.image_processing_node env settings st w) in
  PipelineState.status st' = PipelineState.status st
  \/ PipelineState.status st' = "FAILED".
Proof.
  unfold_stage_a. run_M. repeat case_step; auto.
Qed.

Ltac unfold_stage_b :=
  unfold Llm.llm_node, Llm.extraction_failed, Llm.store_extraction,
    Prompts.generate_extraction_prompts.

Lemma llm_calls_after_ocr (tr : list Event) image :
  length (List.filter is_llm_call (tr ++ [EvOcr image]))
  = length (List.filter is_llm_call tr).
Proof. rewrite List.filter_app, length_app. cbn. lia. Qed.

(** The empty text is falsy, so the blank-text test of Stage A is not
    passed by an absent annotation. *)
Ltac absurd_blank :=
  match goal with
  | H : negb (Py.truthy "") || _ = false |- _ => vm_compute in H; discriminate H
  end.

(** What Stage A leaves behind.  It never touches the OCR confidence, the
    extracted data or the metrics and never calls the LLM; it ends FAILED,
    or it has read the file, obtained a text that is not blank from the
    OCR collaborator and stored it trimmed, keeping status and errors. *)
Lemma image_processing_node_outcome env settings st w :
  let '(st', w') := ImageProcessing.image_processing_node env settings st w in
  ProcessingData.ocr_confidence (PipelineState.processing_data st')
    = ProcessingData.ocr_confidence (PipelineState.processing_data st)
  /\ PipelineState.extracted_data st' = PipelineState.extracted_data st
  /\ PipelineState.metrics st' = PipelineState.metrics st
  /\ llm_calls w' = llm_calls w
  /\ (PipelineState.status st' = "FAILED"
      \/ exists image response annotation,
           files w !! DocumentInfo.file_path (PipelineState.document_info st)
             = Some image
           /\ document_text_detection env image = inr response
           /\ full_text_annotation response = Some annotation
           /\ ProcessingData.raw_text (PipelineState.processing_data st')
              = Some (Py.strip (text annotation))
           /\ PipelineState.status st' = PipelineState.status st
           /\ LoggingData.errors (PipelineState.logging st')
              = LoggingData.errors (PipelineState.logging st)).
Proof.
  unfold_stage_a. run_M. unfold llm_calls.
  repeat case_step; simplify_eq; try absurd_blank;
    cbn; rewrite ?llm_calls_after_ocr; split_and!; auto.
  right. do 3 eexists. split_and!; eauto.
Qed.

(** What Stage B leaves behind: a failed state, or the stored extraction. *)
Lemma llm_node_outcome env settings st w :
  let '(st', w') := Llm.llm_node env settings st w in
  PipelineState.status st' = "FAILED"
  \/ exists request response content rest result,
       chat_completions_create env request = inr response
       /\ req_model request = Settings.llm_model settings
       /\ choices response = Some content :: rest
       /\ json_loads env (Py.strip (Llm.clean_json_format content)) = inr (JObject result)
       /\ PipelineState.status st' = "COMPLETED"
       /\ PipelineState.extracted_data st' = result
       /\ PipelineState.metrics st'
          = PipelineState.metrics
              (PipelineState.update_metrics (default 0%Z (usage response)) 0 st).
Proof.
  unfold_stage_b.
  destruct (String.eqb (PipelineState.status st) "FAILED") eqn:Hst.
  - left. by apply String.eqb_eq.
  - run_M. repeat case_step; simplify_eq; auto.
    all: right; do 5 eexists; split_and!; eauto.
    all: match goal with H : usage _ = _ |- _ => by rewrite H end.
Qed.

(** Stage B passes a failed state through: same state, same world. *)
Lemma llm_node_passthrough env settings st w :
  PipelineState.status st = "FAILED" ->
  Llm.llm_node env settings st w = (st, w).
Proof.
  intros Hfailed. unfold Llm.llm_node. rewrite Hfailed. reflexivity.
Qed.

(** ** Stage B on a failed state *)

(** C2.  When the state handed to Stage B ([llm_node]) already has status
    FAILED, the stage returns that very state and leaves the world as it
    found it: no clock reading, hence no message, error or stage update,
    and no collaborator call, so the number of LLM calls is unchanged. *)
Theorem llm_node_failed_is_passthrough env settings st w :
  PipelineState.status st = "FAILED" ->
  Llm.llm_node env settings st w = (st, w)
  /\ llm_calls (snd (Llm.llm_node env settings st w)) = llm_calls w.
Proof.
  intros Hfailed. rewrite (llm_node_passthrough _ _ _ _ Hfailed). by split.
Qed.

Lemma llm_node_failed_is_passthrough_witness :
  PipelineState.status Scenario.failed_state = "FAILED"
  /\ Llm.llm_node (Scenario.env "DNI" "{}") Scenario.settings
       Scenario.failed_state Scenario.world
     = (Scenario.failed_state, Scenario.world).
Proof.
  split; [reflexivity|].
  apply (llm_node_failed_is_passthrough (Scenario.env "DNI" "{}") Scenario.settings
           Scenario.failed_state Scenario.world).
  reflexivity.
Defined.

(** ** The failure flag through both stages *)

(** C3, as stated, fails for Stage A: handed a FAILED state, the node does
    not pass it through.  It enters its stage, reads the file and calls the
    OCR collaborator. *)
Lemma stage_a_ignores_failure_flag :
  let '(st', w') :=
    ImageProcessing.image_processing_node
      (Scenario.env "REPUBLICA DEL PERU" "{}") Scenario.settings
      Scenario.failed_state Scenario.world in
  PipelineState.status Scenario.failed_state = "FAILED"
  /\ st' <> Scenario.failed_state
  /\ PipelineState.processing_stage st' = "ImageProcessing"
  /\ ProcessingData.raw_text (PipelineState.processing_data st')
     = Some "REPUBLICA DEL PERU"
  /\ ocr_calls Scenario.world = 0%nat /\ ocr_calls w' = 1%nat.
Proof.
  vm_compute. split_and!; try reflexivity.
  intros H. discriminate H.
Qed.

(** C3, amended.  A FAILED status stays FAILED through both stages: Stage A
    only ever keeps the status it was given or sets it to FAILED (it does
    not test the flag), and Stage B tests the flag first and returns a
    failed state untouched. *)
Theorem failed_status_is_kept env settings st w :
  PipelineState.status st = "FAILED" ->
  PipelineState.status
    (fst (ImageProcessing.image_processing_node env settings st w)) = "FAILED"
  /\ Llm.llm_node env settings st w = (st, w)
  /\ (forall w2,
        PipelineState.status
          (fst (Llm.llm_node env settings
                  (fst (ImageProcessing.image_processing_node env settings st w)) w2))
        = "FAILED").
Proof.
  intros Hfailed.
  assert (HA : PipelineState.status
                 (fst (ImageProcessing.image_processing_node env settings st w))
               = "FAILED").
  { destruct (image_processing_node_status env settings st w) as [H|H]; congruence. }
  split_and!; [done | by apply llm_node_passthrough |].
  intros w2. by rewrite (llm_node_passthrough _ _ _ _ HA).
Qed.

Lemma failed_status_is_kept_witness :
  PipelineState.status Scenario.failed_state = "FAILED"
  /\ PipelineState.status
       (fst (ImageProcessing.image_processing_node
               (Scenario.env "REPUBLICA DEL PERU" "{}") Scenario.settings
               Scenario.failed_state Scenario.world)) = "FAILED".
Proof.
  split; [reflexivity|].
  apply (failed_status_is_kept (Scenario.env "REPUBLICA DEL PERU" "{}")
           Scenario.settings Scenario.failed_state Scenario.world).
  reflexivity.
Defined.

(** ** The metrics of Stage B *)

(** C5, as stated, fails: with [gpt-4o] configured and 1000 tokens used, a
    successful Stage B adds 0.00015 to the cost estimate, which is none of
    tokens x price for the prices the pricing table gives that model
    (0.0025 and 0.01), read per token or per thousand tokens; and the
    elapsed time is not advanced. *)
Lemma stage_b_cost_ignores_configured_model :
  let st := Scenario.text_state in
  let st' := fst (Llm.llm_node (Scenario.env "" Scenario.answer_text)
                    Scenario.settings_gpt4o st Scenario.world) in
  let increase :=
    (ProcessingMetrics.cost_estimate (PipelineState.metrics st')
     - ProcessingMetrics.cost_estimate (PipelineState.metrics st))%Q in
  PipelineState.status st' = "COMPLETED"
  /\ (ProcessingMetrics.tokens_used (PipelineState.metrics st')
      - ProcessingMetrics.tokens_used (PipelineState.metrics st) = 1000)%Z
  /\ SpecWords.configured_prices Scenario.settings_gpt4o = [25 # 10000; 1 # 100]
  /\ Forall (fun price =>
               ~ (increase == SpecWords.cost_increase 1000 price)%Q
               /\ ~ (increase == SpecWords.cost_increase 1000 price / 1000)%Q)
            (SpecWords.configured_prices Scenario.settings_gpt4o)
  /\ (ProcessingMetrics.processing_time (PipelineState.metrics st')
      == ProcessingMetrics.processing_time (PipelineState.metrics st))%Q.
Proof.
  vm_compute. split_and!; try reflexivity.
  repeat constructor; intros H; discriminate H.
Qed.

(** C5, amended.  A successful Stage B run adds the tokens the response
    reports (0 without a usage record) to [tokens_used] and
    (tokens / 1000) x 0.00015 to [cost_estimate] -- the literal price of
    [update_metrics], whatever model and pricing table are configured --
    and leaves [processing_time] as it was, since the stage passes no time
    delta. *)
Theorem stage_b_metrics env settings st w :
  let st' := fst (Llm.llm_node env settings st w) in
  PipelineState.status st' = "COMPLETED" ->
  exists request response,
    chat_completions_create env request = inr response
    /\ req_model request = Settings.llm_model settings
    /\ let tokens := default 0%Z (usage response) in
       ProcessingMetrics.tokens_used (PipelineState.metrics st')
         = (ProcessingMetrics.tokens_used (PipelineState.metrics st) + tokens)%Z
       /\ ProcessingMetrics.cost_estimate (PipelineState.metrics st')
            = (ProcessingMetrics.cost_estimate (PipelineState.metrics st)
               + inject_Z tokens / 1000 * (15 # 100000))%Q
       /\ (ProcessingMetrics.processing_time (PipelineState.metrics st')
           == ProcessingMetrics.processing_time (PipelineState.metrics st))%Q.
Proof.
  intros st' Hdone. subst st'.
  pose proof (llm_node_outcome env settings st w) as Hout.
  destruct (Llm.llm_node env settings st w) as [st' w']. cbn in *.
  destruct Hout as [Hfailed | (request & response & content & rest & result & Hout)].
  { rewrite Hfailed in Hdone. discriminate Hdone. }
  destruct Hout as (Hcall & Hmodel & _ & _ & _ & _ & Hmetrics).
  exists request, response. split_and!; auto; rewrite Hmetrics; cbn; try reflexivity.
  apply Qplus_0_r.
Qed.

Lemma stage_b_metrics_witness :
  exists request response,
    chat_completions_create (Scenario.env "" Scenario.answer_text) request
      = inr response
    /\ req_model request = "gpt-4o"
    /\ ProcessingMetrics.cost_estimate
         (PipelineState.metrics
            (fst (Llm.llm_node (Scenario.env "" Scenario.answer_text)
                    Scenario.settings_gpt4o Scenario.text_state Scenario.world)))
       = (0 + inject_Z (default 0%Z (usage response)) / 1000 * (15 # 100000))%Q.
Proof.
  destruct (stage_b_metrics (Scenario.env "" Scenario.answer_text)
              Scenario.settings_gpt4o Scenario.text_state Scenario.world)
    as (request & response & Hcall & Hmodel & _ & Hcost & _).
  - vm_compute. reflexivity.
  - exists request, response. split_and!; [exact Hcall | exact Hmodel | exact Hcost].
Defined.

(** ** What Stage A captures *)

(** C8, as stated, fails: after a successful Stage A on a fresh state the
    raw text is stored, but [ocr_confidence] still holds its default,
    although the collaborator returned per-word confidences (here 0.98 and
    0.95, average 96.5 percent). *)
Lemma stage_a_leaves_confidence_at_default :
  let env := Scenario.env "REPUBLICA DEL PERU" "{}" in
  let st := Pipeline.create_initial_state Scenario.upload_path "dni.png" in
  let st' := fst (ImageProcessing.image_processing_node env Scenario.settings
                    st Scenario.world) in
  PipelineState.status st' = "PROCESSING"
  /\ ProcessingData.raw_text (PipelineState.processing_data st')
     = Some "REPUBLICA DEL PERU"
  /\ (exists response annotation,
        document_text_detection env Scenario.png_bytes = inr response
        /\ full_text_annotation response = Some annotation
        /\ (OcrUtils.average_confidence (word_confidences annotation) == 965 # 10)%Q)
  /\ PipelineState.confidence_score st'
     = ProcessingData.ocr_confidence ProcessingData.default.
Proof.
  cbn zeta. split_and!; try (vm_compute; reflexivity).
  eexists _, _. split_and!; [reflexivity | reflexivity | vm_compute; reflexivity].
Qed.

(** C8, amended.  A Stage A run that does not fail has read the file,
    obtained a text from the OCR collaborator and stored it trimmed as
    [raw_text]; it captures no confidence: [ocr_confidence] keeps the value
    it had before the stage (the default 0.0 in a pipeline run), whatever
    per-word confidences the collaborator returned. *)
Theorem stage_a_captures_text_only env settings st w :
  let st' := fst (ImageProcessing.image_processing_node env settings st w) in
  PipelineState.status st' <> "FAILED" ->
  PipelineState.confidence_score st' = PipelineState.confidence_score st
  /\ exists image response annotation,
       files w !! DocumentInfo.file_path (PipelineState.document_info st) = Some image
       /\ document_text_detection env image = inr response
       /\ full_text_annotation response = Some annotation
       /\ ProcessingData.raw_text (PipelineState.processing_data st')
          = Some (Py.strip (text annotation)).
Proof.
  intros st' Hok. subst st'.
  pose proof (image_processing_node_outcome env settings st w) as Hout.
  destruct (ImageProcessing.image_processing_node env settings st w) as [st' w'].
  cbn in *. destruct Hout as (Hconf & _ & _ & _ & [Hfailed | Hok']); [done|].
  destruct Hok' as (image & response & annotation & Hfile & Hocr & Hann & Hraw & _).
  split; [exact Hconf|]. by exists image, response, annotation.
Qed.

Lemma stage_a_captures_text_only_witness :
  PipelineState.confidence_score
    (fst (ImageProcessing.image_processing_node
            (Scenario.env "REPUBLICA DEL PERU" "{}") Scenario.settings
            (Pipeline.create_initial_state Scenario.upload_path "dni.png")
            Scenario.world))
  = 0%Q.
Proof.
  apply (stage_a_captures_text_only (Scenario.env "REPUBLICA DEL PERU" "{}")
           Scenario.settings
           (Pipeline.create_initial_state Scenario.upload_path "dni.png")
           Scenario.world).
  vm_compute. intros H. discriminate H.
Defined.

(** ** Lemmas on the string built-ins *)

Lemma chars_append a b : Py.chars (a +:+ b) = Py.chars a ++ Py.chars b.
Proof.
  unfold Py.chars. induction a as [|c a IH]; cbn; [done|]. by rewrite <- IH.
Qed.

Lemma str_chars s : Py.str (Py.chars s) = s.
Proof. apply string_of_list_ascii_of_string. Qed.

Lemma chars_str l : Py.chars (Py.str l) = l.
Proof. apply list_ascii_of_string_of_list_ascii. Qed.

Lemma starts_app p x : Py.starts p (p ++ x) = true.
Proof.
  induction p as [|a p IH]; cbn; [done|]. by rewrite Ascii.eqb_refl, IH.
Qed.

Lemma starts_inv p s : Py.starts p s = true -> exists x, s = p ++ x.
Proof.
  revert s. induction p as [|a p IH]; intros [|b s] H; cbn in *; try done.
  - by exists [].
  - by exists (b :: s).
  - apply andb_true_iff in H as [Hab Hps]. apply Ascii.eqb_eq in Hab as ->.
    destruct (IH _ Hps) as [x ->]. by exists x.
Qed.

Lemma startswith_append p x : Py.startswith (p +:+ x) p = true.
Proof. unfold Py.startswith. rewrite chars_append. apply starts_app. Qed.

Lemma endswith_append x p : Py.endswith (x +:+ p) p = true.
Proof.
  unfold Py.endswith. rewrite chars_append, rev_app_distr. apply starts_app.
Qed.

Lemma endswith_inv s p :
  Py.endswith s p = true -> exists x, Py.chars s = x ++ Py.chars p.
Proof.
  unfold Py.endswith. intros H. apply starts_inv in H as [x Hx].
  exists (rev x). apply (f_equal (@rev ascii)) in Hx.
  by rewrite rev_involutive, rev_app_distr, rev_involutive in Hx.
Qed.

Lemma slice_from_append p x : Py.slice_from (length (Py.chars p)) (p +:+ x) = x.
Proof.
  unfold Py.slice_from. rewrite chars_append, drop_app_length. apply str_chars.
Qed.

Lemma slice_to_neg_append x p :
  Py.slice_to_neg (length (Py.chars p)) (x +:+ p) = x.
Proof.
  unfold Py.slice_to_neg. rewrite chars_append, length_app.
  replace (length (Py.chars x) + length (Py.chars p) - length (Py.chars p))%nat
    with (length (Py.chars x)) by lia.
  rewrite take_app_length. apply str_chars.
Qed.

Lemma last_segment_app sep x e :
  existsb (Ascii.eqb sep) e = false ->
  Py.last_segment sep (x ++ sep :: e) = e.
Proof.
  intros He. induction x as [|a x IH]; cbn.
  - by rewrite He, Ascii.eqb_refl.
  - rewrite existsb_app. cbn. rewrite Ascii.eqb_refl, orb_true_r. exact IH.
Qed.

Lemma contains_char_app sep x e :
  existsb (Ascii.eqb sep) (x ++ sep :: e) = true.
Proof. rewrite existsb_app. cbn. by rewrite Ascii.eqb_refl, orb_true_r. Qed.

Lemma bytes_starts_app p x : Py.bytes_starts p (p ++ x) = true.
Proof.
  induction p as [|a p IH]; cbn; [done|].
  by rewrite (Byte.byte_dec_lb (eq_refl a)), IH.
Qed.

Lemma bytes_starts_inv p s : Py.bytes_starts p s = true -> exists x, s = p ++ x.
Proof.
  revert s. induction p as [|a p IH]; intros [|b s] H; cbn in *; try done.
  - by exists [].
  - by exists (b :: s).
  - apply andb_true_iff in H as [Hab Hps]. apply Byte.byte_dec_bl in Hab as ->.
    destruct (IH _ Hps) as [x ->]. by exists x.
Qed.

(** Whitespace-only text strips to the empty string. *)
Lemma lstrip_whitespace w rest :
  In w Py.whitespace -> Py.lstrip_chars (w ++ rest) = Py.lstrip_chars rest.
Proof.
  intros Hw. cbn in Hw.
  repeat (destruct Hw as [<- | Hw]; [reflexivity|]). destruct Hw.
Qed.

Lemma strip_whitespace_only s : Py.whitespace_only s -> Py.strip s = "".
Proof.
  intros (ws & Hws & Hs). unfold Py.strip, Py.strip_chars. rewrite Hs.
  assert (Py.lstrip_chars (concat ws) = []) as ->; [|reflexivity].
  clear Hs. induction Hws as [|w ws Hw _ IH]; [reflexivity|].
  cbn [concat]. by rewrite lstrip_whitespace.
Qed.

(** ** Submission: extension and magic bytes *)

Lemma size_test_ok n max_mb :
  Qle_bool (ApiUtils.size_mb n) (inject_Z max_mb) = true
  <-> (Z.of_nat n <= max_mb * (1024 * 1024))%Z.
Proof.
  rewrite Qle_bool_iff. unfold ApiUtils.size_mb, Qle, Qdiv.
  change (/ inject_Z (1024 * 1024))%Q with (1 # 1048576)%Q. cbn. lia.
Qed.

(** The extension [_is_valid_image_content] derives from a lowered name
    ending in a supported extension is that extension without its dot. *)
Lemma derived_extension fl ext :
  In ext ApiUtils.image_extensions ->
  Py.endswith fl ext = true ->
  (if Py.contains_char "." fl then Py.lower (Py.split_last "." fl) else "")
  = Py.slice_from 1 ext.
Proof.
  intros Hext Hend. apply endswith_inv in Hend as [x Hx].
  unfold Py.contains_char, Py.split_last. rewrite Hx. clear Hx.
  cbn in Hext.
  repeat (destruct Hext as [<- | Hext];
          [cbn [Py.chars list_ascii_of_string];
           rewrite contains_char_app, last_segment_app by reflexivity; reflexivity|]).
  destruct Hext.
Qed.

Lemma named_by_extension fname ext :
  In ext ApiUtils.image_extensions ->
  Py.endswith (Py.lower fname) ext = true ->
  Py.truthy fname = true.
Proof.
  intros Hext Hend. destruct fname; [|reflexivity]. exfalso.
  cbn in Hext.
  repeat (destruct Hext as [<- | Hext]; [discriminate Hend|]). destruct Hext.
Qed.

Lemma existsb_endswith fl ext :
  In ext ApiUtils.image_extensions ->
  Py.endswith fl ext = true ->
  existsb (Py.endswith fl) ApiUtils.image_extensions = true.
Proof. intros Hext Hend. apply existsb_exists. by exists ext. Qed.

Lemma signature_test ext content :
  existsb (fun magic => Py.bytes_starts magic content) (SpecWords.signatures ext) = true
  <-> SpecWords.magic_matches ext content.
Proof.
  rewrite existsb_exists. split.
  - intros (magic & Hin & Hstarts). apply bytes_starts_inv in Hstarts as [rest ->].
    by exists magic, rest.
  - intros (magic & rest & Hin & ->). exists magic. split; [done|].
    apply bytes_starts_app.
Qed.

(** The content test of [validate_document], for a name with a supported
    extension. *)
Lemma content_test fl ext content :
  In ext ApiUtils.image_extensions ->
  Py.endswith fl ext = true ->
  ApiUtils._is_valid_image_content content fl = true
  <-> SpecWords.magic_matches ext content.
Proof.
  intros Hext Hend. rewrite <- signature_test.
  unfold ApiUtils._is_valid_image_content, SpecWords.signatures.
  rewrite (derived_extension _ _ Hext Hend).
  destruct content as [|b content].
  - split; [done|]. cbn in Hext.
    repeat (destruct Hext as [<- | Hext]; [done|]). destruct Hext.
  - by destruct (ApiUtils.dict_get _ _).
Qed.

(** C6.  For a submission whose (lowered) name ends in a supported
    extension: if the payload starts with one of that extension's
    magic-byte signatures and passes the size ceiling, [validate_document]
    accepts it and returns the payload; if it starts with none of them, the
    submission is rejected with an [HTTPException] -- the 400 validation
    failure when it is within the ceiling -- and [upload_document] raises it
    leaving the application state and the world untouched, so no job is
    created.  And whatever the name, a payload is accepted only if it
    starts with a signature of a supported extension the name ends in. *)
Theorem magic_bytes_decide_submission env settings file :
  let max_mb := Settings.max_image_size_mb settings in
  (forall fname ext,
     ApiUtils.filename file = Some fname ->
     In ext ApiUtils.image_extensions ->
     Py.endswith (Py.lower fname) ext = true ->
     (SpecWords.magic_matches ext (ApiUtils.content file) ->
      SpecWords.within_ceiling max_mb (ApiUtils.content file) ->
      ApiUtils.validate_document env settings file = inr (ApiUtils.content file))
     /\ (~ SpecWords.magic_matches ext (ApiUtils.content file) ->
         exists code detail,
           ApiUtils.validate_document env settings file
             = inl (HTTPException code detail)
           /\ (SpecWords.within_ceiling max_mb (ApiUtils.content file) ->
               code = 400%Z /\ detail = "El archivo no es una imagen válida")
           /\ forall app w,
                Main.upload_document env settings file app w
                = (inl (HTTPException code detail), app, w)))
  /\ (forall accepted,
        ApiUtils.validate_document env settings file = inr accepted ->
        exists fname ext,
          ApiUtils.filename file = Some fname
          /\ In ext ApiUtils.image_extensions
          /\ Py.endswith (Py.lower fname) ext = true
          /\ SpecWords.magic_matches ext (ApiUtils.content file)
          /\ accepted = ApiUtils.content file).
Proof.
  intros max_mb. split.
  - intros fname ext Hname Hext Hend.
    pose proof (named_by_extension _ _ Hext Hend) as Htruthy.
    pose proof (existsb_endswith _ _ Hext Hend) as Hany.
    pose proof (content_test _ _ (ApiUtils.content file) Hext Hend) as Htest.
    unfold Main.upload_document, ApiUtils.validate_document.
    rewrite Hname, Htruthy, Hany. cbn [negb].
    split.
    + intros Hmatch Hsize. apply size_test_ok in Hsize. apply Htest in Hmatch.
      fold max_mb. by rewrite Hsize, Hmatch.
    + intros Hmismatch.
      assert (ApiUtils._is_valid_image_content (ApiUtils.content file) (Py.lower fname)
              = false) as ->.
      { apply not_true_is_false. intros Hvalid. by apply Hmismatch, Htest. }
      destruct (Qle_bool _ _) eqn:Hsize; cbn [negb].
      * eexists _, _. split_and!; [reflexivity | done | reflexivity].
      * eexists _, _. split_and!; [reflexivity | | reflexivity].
        intros Hceiling. apply size_test_ok in Hceiling. fold max_mb in Hsize.
        congruence.
  - intros accepted. unfold ApiUtils.validate_document.
    destruct (ApiUtils.filename file) as [fname|]; [|done].
    destruct (Py.truthy fname); cbn [negb]; [|done].
    destruct (existsb _ ApiUtils.image_extensions) eqn:Hany; cbn [negb]; [|done].
    destruct (Qle_bool _ _); cbn [negb]; [|done].
    destruct (ApiUtils._is_valid_image_content _ _) eqn:Hvalid; cbn [negb]; [|done].
    intros [= <-]. apply existsb_exists in Hany as (ext & Hext & Hend).
    exists fname, ext. split_and!; try done.
    by apply (content_test _ _ _ Hext Hend).
Qed.

Lemma magic_bytes_decide_submission_witness :
  ApiUtils.validate_document (Scenario.env "" "") Scenario.settings
    {| ApiUtils.filename := Some "DNI.PNG"; ApiUtils.content := Scenario.png_bytes |}
  = inr Scenario.png_bytes.
Proof.
  destruct (magic_bytes_decide_submission (Scenario.env "" "") Scenario.settings
              {| ApiUtils.filename := Some "DNI.PNG";
                 ApiUtils.content := Scenario.png_bytes |}) as [Hsupported _].
  destruct (Hsupported "DNI.PNG" ".png") as [Haccept _].
  - reflexivity.
  - cbn. auto 10.
  - reflexivity.
  - apply Haccept.
    + exists [x89; x50; x4e; x47], [x0d; x0a; x1a; x0a]. split; [|reflexivity].
      left. reflexivity.
    + unfold SpecWords.within_ceiling. cbn. lia.
Defined.

(** ** The answer of the LLM: fences and shape *)

Lemma clean_json_format_fenced content body :
  Py.strip content = "```json" +:+ body +:+ "```" ->
  Llm.clean_json_format content = body.
Proof.
  intros H. unfold Llm.clean_json_format. rewrite H, startswith_append.
  change 7%nat with (length (Py.chars "```json")). rewrite slice_from_append.
  rewrite endswith_append.
  change 3%nat with (length (Py.chars "```")). apply slice_to_neg_append.
Qed.

Lemma clean_json_format_leading content body :
  Py.strip content = "```json" +:+ body ->
  Py.endswith body "```" = false ->
  Llm.clean_json_format content = body.
Proof.
  intros H Hend. unfold Llm.clean_json_format. rewrite H, startswith_append.
  change 7%nat with (length (Py.chars "```json")). rewrite slice_from_append.
  by rewrite Hend.
Qed.

Lemma clean_json_format_trailing content body :
  Py.startswith (Py.strip content) "```json" = false ->
  Py.strip content = body +:+ "```" ->
  Llm.clean_json_format content = body.
Proof.
  intros Hstart H. unfold Llm.clean_json_format. rewrite Hstart, H, endswith_append.
  change 3%nat with (length (Py.chars "```")). apply slice_to_neg_append.
Qed.

Lemma clean_json_format_plain content :
  Py.startswith (Py.strip content) "```json" = false ->
  Py.endswith (Py.strip content) "```" = false ->
  Llm.clean_json_format content = Py.strip content.
Proof.
  intros Hstart Hend. unfold Llm.clean_json_format. by rewrite Hstart, Hend.
Qed.

(** C7, as stated, fails for a leading fence without the [json] tag: of the
    answer [```{}```] only the trailing marker is removed, the text handed
    to the parser still opens with the fence, and the stage fails although
    the fenced text [{}] is a JSON mapping. *)
Lemma bare_leading_fence_is_kept :
  let env := Scenario.env "" "```{}```" in
  Llm.clean_json_format "```{}```" = "```{}"
  /\ Py.startswith (Llm.clean_json_format "```{}```") "```" = true
  /\ json_loads env "{}" = inr (JObject ∅)
  /\ PipelineState.status
       (fst (Llm.llm_node env Scenario.settings Scenario.text_state Scenario.world))
     = "FAILED".
Proof. vm_compute. split_and!; reflexivity. Qed.

(** C7, amended.  Of the answer, trimmed of surrounding whitespace, a
    leading [```json] marker and a trailing [```] marker are removed when
    present (each independently), and nothing else -- a bare leading [```]
    stays; the result, trimmed again, is what [json.loads] receives.  When
    that parses to a JSON mapping the stage completes with it as
    [extracted_data], in particular for an answer fenced as
    [```json ... ```] whose inner text is a mapping; when it parses to
    anything else the stage records the shape error, sets FAILED and leaves
    [extracted_data] as it was. *)
Theorem llm_answer_is_unfenced_and_checked env settings st w t response content rest :
  PipelineState.status st <> "FAILED" ->
  openai_client env (Settings.openai_api_key settings) = None ->
  ProcessingData.raw_text (PipelineState.processing_data st) = Some t ->
  Py.truthy t = true ->
  chat_completions_create env
    (Llm.chat_request settings Prompts.EXTRACTION_SYSTEM_PROMPT
       (Prompts.EXTRACTION_USER_PROMPT_format t)) = inr response ->
  choices response = Some content :: rest ->
  let st' := fst (Llm.llm_node env settings st w) in
  let cleaned := Llm.clean_json_format content in
  ((forall body, Py.strip content = "```json" +:+ body +:+ "```" -> cleaned = body)
   /\ (forall body, Py.strip content = "```json" +:+ body ->
                    Py.endswith body "```" = false -> cleaned = body)
   /\ (forall body, Py.startswith (Py.strip content) "```json" = false ->
                    Py.strip content = body +:+ "```" -> cleaned = body)
   /\ (Py.startswith (Py.strip content) "```json" = false ->
       Py.endswith (Py.strip content) "```" = false -> cleaned = Py.strip content))
  /\ (forall result,
        json_loads env (Py.strip cleaned) = inr (JObject result) ->
        PipelineState.status st' = "COMPLETED"
        /\ PipelineState.extracted_data st' = result)
  /\ (forall body result,
        Py.strip content = "```json" +:+ body +:+ "```" ->
        json_loads env (Py.strip body) = inr (JObject result) ->
        PipelineState.status st' = "COMPLETED"
        /\ PipelineState.extracted_data st' = result)
  /\ (forall value,
        json_loads env (Py.strip cleaned) = inr value ->
        (forall result, value <> JObject result) ->
        PipelineState.status st' = "FAILED"
        /\ PipelineState.extracted_data st' = PipelineState.extracted_data st
        /\ LoggingData.errors (PipelineState.logging st')
           = LoggingData.errors (PipelineState.logging st)
             ++ [PipelineState.stamped env (S (tick w))
                   "Error en extracción LLM: Respuesta de OpenAI no es un objeto JSON válido"]).
Proof.
  intros Hst Hclient Hraw Htruthy Hcall Hchoices st' cleaned.
  assert (Hrun : forall result,
            json_loads env (Py.strip cleaned) = inr (JObject result) ->
            PipelineState.status st' = "COMPLETED"
            /\ PipelineState.extracted_data st' = result).
  { intros result Hparse. subst st' cleaned. unfold_stage_b.
    apply String.eqb_neq in Hst. rewrite Hst, Hclient. run_M.
    rewrite Hraw, Htruthy. cbn. rewrite Hcall, Hchoices. cbn. rewrite Hparse.
    by cbn. }
  split_and!.
  - apply clean_json_format_fenced.
  - apply clean_json_format_leading.
  - apply clean_json_format_trailing.
  - apply clean_json_format_plain.
  - exact Hrun.
  - intros body result Hfenced Hparse. apply Hrun. subst cleaned.
    by rewrite (clean_json_format_fenced _ _ Hfenced).
  - intros value Hparse Hshape. subst st' cleaned. unfold_stage_b.
    apply String.eqb_neq in Hst. rewrite Hst, Hclient. run_M.
    rewrite Hraw, Htruthy. cbn. rewrite Hcall, Hchoices. cbn. rewrite Hparse.
    destruct value; cbn; try done. by destruct (Hshape fields).
Qed.

Lemma llm_answer_is_unfenced_and_checked_witness :
  let content :=
    "```json" +:+ Prompts.nl +:+ Scenario.answer_text +:+ Prompts.nl +:+ "```" in
  let st' := fst (Llm.llm_node (Scenario.env "" content) Scenario.settings
                    Scenario.text_state Scenario.world) in
  PipelineState.status st' = "COMPLETED"
  /\ PipelineState.extracted_data st' = Scenario.answer_value.
Proof.
  intros content.
  destruct (llm_answer_is_unfenced_and_checked (Scenario.env "" content)
              Scenario.settings Scenario.text_state Scenario.world
              "REPUBLICA DEL PERU"
              {| choices := [Some content]; usage := Some 1000%Z |} content [])
    as (_ & _ & Hfenced & _).
  - vm_compute. intros H. discriminate H.
  - reflexivity.
  - reflexivity.
  - reflexivity.
  - reflexivity.
  - reflexivity.
  - apply (Hfenced (Prompts.nl +:+ Scenario.answer_text +:+ Prompts.nl));
      vm_compute; reflexivity.
Defined.

(** ** Blank OCR text *)

Section BlankText.
Variables (env : Env) (settings : Settings.Settings).
Variables (credentials : string) (image : list byte) (response : VisionResponse).
Hypothesis Hvision : VISION_AVAILABLE env = true.
Hypothesis Hcred : GOOGLE_APPLICATION_CREDENTIALS env = Some credentials.
Hypothesis Hcred_set : Py.truthy credentials = true.
Hypothesis Hpil : PIL_AVAILABLE env = true.
Hypothesis Hocr : document_text_detection env image = inr response.
Hypothesis Hno_error : error_message response = "".
Hypothesis Hblank : Py.whitespace_only (SpecWords.ocr_text response).

Lemma vision_validated :
  OcrUtils.validate_tesseract_installation env = (true, "Google Vision API disponible").
Proof.
  unfold OcrUtils.validate_tesseract_installation. by rewrite Hvision, Hcred, Hcred_set.
Qed.

Lemma pillow_validated : ImageUtils.validate_image_dependencies env = None.
Proof. unfold ImageUtils.validate_image_dependencies. by rewrite Hpil. Qed.

Lemma vision_ensured : OcrUtils._ensure_vision_available env = None.
Proof. unfold OcrUtils._ensure_vision_available. by rewrite Hvision. Qed.

Lemma blank_text_test raw :
  Py.whitespace_only raw ->
  negb (Py.truthy raw) || negb (Py.truthy (Py.strip raw)) = true.
Proof.
  intros H. rewrite (strip_whitespace_only _ H). apply orb_true_r.
Qed.

(** Stage A on a readable image whose OCR text is blank. *)
Lemma stage_a_blank_text st w :
  files w !! DocumentInfo.file_path (PipelineState.document_info st) = Some image ->
  ImageUtils.is_image_file
    (DocumentInfo.file_path (PipelineState.document_info st)) = true ->
  SpecWords.within_ceiling (Settings.max_image_size_mb settings) image ->
  let '(st', w') := ImageProcessing.image_processing_node env settings st w in
  PipelineState.status st' = "FAILED"
  /\ PipelineState.processing_stage st' = "ImageProcessing"
  /\ LoggingData.errors (PipelineState.logging st')
     = LoggingData.errors (PipelineState.logging st)
       ++ [PipelineState.stamped env (3 + tick w) "No se detectó texto en la imagen"]
  /\ LoggingData.warnings (PipelineState.logging st')
     = LoggingData.warnings (PipelineState.logging st)
  /\ PipelineState.metrics st' = PipelineState.metrics st
  /\ w' = {| tick := 4 + tick w; files := files w;
             trace := trace w ++ [EvOcr image] |}.
Proof.
  intros Hfile Himage Hsize. apply size_test_ok in Hsize.
  pose proof vision_validated. pose proof pillow_validated.
  pose proof vision_ensured.
  assert (Py.truthy (error_message response) = false) by by rewrite Hno_error.
  pose proof (blank_text_test _ Hblank) as Hblank'. unfold SpecWords.ocr_text in Hblank'.
  unfold_stage_a. run_M.
  repeat (case_step; simplify_eq); try congruence; done.
Qed.

(** The orchestrator on such an image: the failure shape, carrying the one
    error of Stage A, and no LLM call. *)
Lemma process_blank_text file_path fname w :
  graph_failure env = None ->
  files w !! file_path = Some image ->
  ImageUtils.is_image_file file_path = true ->
  SpecWords.within_ceiling (Settings.max_image_size_mb settings) image ->
  Pipeline.process env settings file_path fname w
  = (Some {| Pipeline.processing_control :=
               Some {| Pipeline.rc_status := Some "FAILED";
                       Pipeline.rc_processing_stage := "ImageProcessing" |};
             Pipeline.error_details :=
               Some {| Pipeline.ed_errors :=
                         [PipelineState.stamped env (4 + tick w)
                            "No se detectó texto en la imagen"];
                       Pipeline.ed_warnings := [];
                       Pipeline.ed_last_stage := "ImageProcessing" |};
             Pipeline.extracted_data := None;
             Pipeline.metrics := Some (Pipeline.AsModel ProcessingMetrics.default);
             Pipeline.time_metrics_total_time := None;
             Pipeline.debug_ocr_confidence := None;
             Pipeline.debug_ocr_method := None;
             Pipeline.processing_data_raw_text := None |},
     {| tick := 5 + tick w; files := files w; trace := trace w ++ [EvOcr image] |}).
Proof.
  intros Hgraph Hfile Himage Hsize.
  unfold Pipeline.process, Pipeline.ainvoke. rewrite Hgraph.
  unfold mbind, M_bind, mret, M_ret, read_clock. cbn beta iota zeta.
  pose proof (stage_a_blank_text
                (Pipeline.create_initial_state file_path fname)
                {| tick := S (tick w); files := files w; trace := trace w |}
                Hfile Himage Hsize) as HA.
  destruct (ImageProcessing.image_processing_node _ _ _ _) as [st' w'].
  destruct HA as (Hstatus & Hstage & Herrors & Hwarnings & Hmetrics & ->).
  rewrite (llm_node_passthrough _ _ _ _ Hstatus).
  unfold Pipeline.shape_result, Pipeline.channels. cbn.
  unfold PipelineState.status, PipelineState.processing_stage in Hstatus, Hstage.
  rewrite Hstatus, Hstage, Herrors, Hwarnings, Hmetrics. reflexivity.
Qed.

End BlankText.

(** ** The job store *)

Lemma storage_update_hit js id f r :
  Main.storage_get js id = Some r ->
  exists js',
    Main.storage_update id f js = Some js'
    /\ Main.storage_get js' id = Some (f r).
Proof.
  induction js as [|[k r0] js IH]; cbn; [done|].
  destruct (String.eqb id k) eqn:Hk.
  - intros [= ->]. eexists. split; [done|]. cbn. by rewrite Hk.
  - intros Hget. destruct (IH Hget) as (js' & -> & Hget').
    eexists. split; [done|]. cbn. by rewrite Hk.
Qed.

Lemma storage_update_miss js id f :
  Main.storage_get js id = None -> Main.storage_update id f js = None.
Proof.
  induction js as [|[k r0] js IH]; cbn; [done|].
  destruct (String.eqb id k); [done|]. intros Hget. by rewrite (IH Hget).
Qed.

Lemma storage_update_get js id f js' :
  Main.storage_update id f js = Some js' ->
  exists r, Main.storage_get js id = Some r /\ Main.storage_get js' id = Some (f r).
Proof.
  destruct (Main.storage_get js id) as [r|] eqn:Hget.
  - destruct (storage_update_hit js id f r Hget) as (js'' & Hupd & Hget').
    rewrite Hupd. intros [= <-]. by exists r.
  - by rewrite (storage_update_miss js id f Hget).
Qed.

Lemma update_record_hit env id f js w r :
  Main.storage_get js id = Some r ->
  exists js',
    Main.update_record env id f js w
    = (Some js', {| tick := S (tick w); files := files w; trace := trace w |})
    /\ Main.storage_get js' id = Some (f (now_isoformat env (tick w)) r).
Proof.
  intros Hget. unfold Main.update_record. rewrite Hget.
  destruct (storage_update_hit js id (f (now_isoformat env (tick w))) r Hget)
    as (js' & Hupd & Hget').
  exists js'. split; [|done]. run_M. by rewrite Hupd.
Qed.

Lemma update_record_miss env id f js w :
  Main.storage_get js id = None ->
  Main.update_record env id f js w = (None, w).
Proof. intros Hget. unfold Main.update_record. by rewrite Hget. Qed.

Lemma llm_calls_app (tr tr' : list Event) :
  forallb (fun e => negb (is_llm_call e)) tr' = true ->
  length (List.filter is_llm_call (tr ++ tr')) = length (List.filter is_llm_call tr).
Proof.
  intros H. rewrite List.filter_app, length_app.
  assert (List.filter is_llm_call tr' = []) as ->; [|cbn; lia].
  induction tr' as [|e tr' IH]; [done|]. cbn in *.
  apply andb_true_iff in H as [He H]. destruct (is_llm_call e); [done|]. by apply IH.
Qed.



(** ** The background execution, case by case *)

Lemma update_record_inv env id f js w out w' :
  Main.update_record env id f js w = (out, w') ->
  match out with
  | None => Main.storage_get js id = None /\ w' = w
  | Some js' =>
      Main.storage_update id (f (now_isoformat env (tick w))) js = Some js'
      /\ w' = {| tick := S (tick w); files := files w; trace := trace w |}
  end.
Proof.
  unfold Main.update_record.
  destruct (Main.storage_get js id) as [r|] eqn:Hget.
  - destruct (storage_update_hit js id (f (now_isoformat env (tick w))) r Hget)
      as (js' & Hupd & _).
    run_M. rewrite Hupd. by intros [= <- <-].
  - by intros [= <- <-].
Qed.

(** A background execution ends in one of three ways.  Either the record
    of its job is missing when it is needed (at the start, or after the
    [await]): then [KeyError] leaves the task and the record is still
    missing.  Or the task is cancelled at the [await]: then the
    cancellation leaves the task and the store is as the [await] left it.
    Or the record was marked PROCESSING, survived the [await], and
    received exactly one finishing update. *)
Lemma background_outcome env pipeline_process during_await id file_path fname js w :
  let outcome :=
    fst (pipeline_process file_path fname
           {| tick := S (tick w); files := files w; trace := trace w |}) in
  let '(raised, js', w') :=
    Main.process_file_background env pipeline_process during_await
      id file_path fname js w in
  (raised = Some (OfException (KeyError id))
   /\ Main.storage_get js' id = None
   /\ (js' = js
       \/ exists js1 now,
            Main.storage_update id (Main.mark_processing now) js = Some js1
            /\ js' = during_await js1
            /\ outcome <> inl CancelledError))
  \/ (raised = Some CancelledError
      /\ outcome = inl CancelledError
      /\ exists js1 now,
           Main.storage_update id (Main.mark_processing now) js = Some js1
           /\ js' = during_await js1)
  \/ (raised = None
      /\ exists js1 now f,
           Main.storage_update id (Main.mark_processing now) js = Some js1
           /\ Main.storage_update id f (during_await js1) = Some js'
           /\ finalisation env outcome f).
Proof.
  intros outcome. subst outcome.
  unfold Main.process_file_background, Main.background_body.
  unfold mbind, M_bind, mret, M_ret. cbn beta.
  destruct (Main.update_record env id Main.mark_processing js w)
    as [[js1|] w1] eqn:Hstart;
    apply update_record_inv in Hstart as [Hstart ->].
  2: { rewrite (update_record_miss _ _ _ _ _ Hstart). run_M.
       destruct (files w !! file_path); cbn;
         [destruct (os_unlink_error env file_path); cbn|]; left; auto. }
  destruct (pipeline_process file_path fname _) as [[[e|]|[result|]] w2]; cbn.
  2: { run_M.
       destruct (files w2 !! file_path); cbn;
         [destruct (os_unlink_error env file_path); cbn|];
         right; left; split_and!; try done; by eexists _, _. }
  2: destruct (Main.result_failed result) eqn:Hfailed.
  all: match goal with
       | |- context [Main.update_record ?e ?i ?f ?j ?w0] =>
           destruct (Main.update_record e i f j w0) as [[js3|] w3] eqn:Hend;
           apply update_record_inv in Hend as [Hend ->]
       end.
  all: try rewrite (update_record_miss _ _ _ _ _ Hend).
  all: run_M;
    match goal with
    | |- context [files ?w0 !! ?p] => destruct (files w0 !! p)
    end; cbn.
  all: try match goal with
       | |- context [os_unlink_error ?e ?p] => destruct (os_unlink_error e p)
       end; cbn.
  all: try (left; split_and!; [done | done | right; by eexists _, _]).
  all: right; right; split; [done|]; eexists _, _, _; split_and!; [done | done |].
  all: first [ by eapply fin_raised | by eapply fin_failed
             | by eapply fin_completed | by eapply fin_null ].
Qed.

(** The real pipeline call returns: no exception leaves [process]. *)
Lemma pipeline_returns env settings file_path fname w :
  exists r, fst (Main.pipeline env settings file_path fname w) = inr r.
Proof.
  unfold Main.pipeline. unfold mbind, M_bind, mret, M_ret.
  destruct (Pipeline.process env settings file_path fname w) as [r w'].
  by exists r.
Qed.

Lemma finalisation_terminal env outcome f r :
  finalisation env outcome f ->
  (Main.status (f r) = Main.FAILED \/ Main.status (f r) = Main.COMPLETED)
  /\ SpecWords.record_ok (f r).
Proof.
  intros [e now He | now He | result now He Hf | result now He Hf]; cbn;
    (split; [auto|]); split; cbn; intros; try done; by eexists.
Qed.

(** C9, as stated, fails: a task that is cancelled while it awaits the
    pipeline terminates by the cancellation, which the handler of
    [except Exception] lets pass, and its record is left PROCESSING,
    without completion time and without error, although the clean-up has
    run. *)
Lemma cancelled_job_stays_processing :
  let '(raised, js', w') :=
    Main.process_file_background (Scenario.env "" "") Scenario.cancelled_call
      (fun js => js) "job-0" Scenario.upload_path "dni.png"
      Scenario.storage Scenario.world in
  raised = Some CancelledError
  /\ (exists r,
        Main.storage_get js' "job-0" = Some r
        /\ Main.status r = Main.PROCESSING
        /\ Main.completed_at r = None
        /\ Main.error r = None)
  /\ files w' !! Scenario.upload_path = None
  /\ ~ (forall r, Main.storage_get js' "job-0" = Some r ->
                  Main.status r = Main.FAILED \/ Main.status r = Main.COMPLETED).
Proof.
  destruct (Main.process_file_background _ _ _ _ _ _ _ _) as [[raised js'] w'] eqn:Hrun.
  vm_compute in Hrun. injection Hrun as <- <- <-.
  split_and!; [reflexivity | eexists; split_and!; reflexivity | reflexivity |].
  intros H. specialize (H _ eq_refl). destruct H as [H | H]; discriminate H.
Qed.

(** C9, amended.  Whatever other requests do to the store meanwhile: when
    the awaited pipeline call returns, or raises an exception derived from
    [Exception], the record of the job, if there is one when the
    background execution has terminated, is FAILED or COMPLETED -- not
    PROCESSING.  When such an exception comes out of the call for a job
    that is on record and stays on record, the handler leaves the task
    without an exception and the record FAILED, with a completion time and
    the text of that exception, [str(e)], as its error.  When instead the
    task is cancelled at the [await], the cancellation leaves the task and
    the store is as the [await] left it: the last thing the task wrote to
    its record is PROCESSING. *)
Theorem background_exception_marks_failed env pipeline_process during_await
    id file_path fname js w :
  let outcome :=
    fst (pipeline_process file_path fname
           {| tick := S (tick w); files := files w; trace := trace w |}) in
  let '(raised, js', w') :=
    Main.process_file_background env pipeline_process during_await
      id file_path fname js w in
  (outcome <> inl CancelledError ->
   forall r, Main.storage_get js' id = Some r ->
             Main.status r = Main.FAILED \/ Main.status r = Main.COMPLETED)
  /\ (forall e r0,
        Main.storage_get js id = Some r0 ->
        (forall js1 r1, Main.storage_get js1 id = Some r1 ->
                        is_Some (Main.storage_get (during_await js1) id)) ->
        outcome = inl (OfException e) ->
        raised = None
        /\ exists r',
             Main.storage_get js' id = Some r'
             /\ Main.status r' = Main.FAILED
             /\ Main.error r' = Some (exn_text env e)
             /\ is_Some (Main.completed_at r'))
  /\ (forall r0,
        Main.storage_get js id = Some r0 ->
        outcome = inl CancelledError ->
        raised = Some CancelledError
        /\ exists js1 now,
             Main.storage_update id (Main.mark_processing now) js = Some js1
             /\ Main.storage_get js1 id = Some (Main.mark_processing now r0)
             /\ js' = during_await js1).
Proof.
  intros outcome.
  pose proof (background_outcome env pipeline_process during_await
                id file_path fname js w) as Hout. cbn zeta in Hout.
  fold outcome in Hout.
  destruct (Main.process_file_background _ _ _ _ _ _ _ _) as [[raised js'] w'].
  destruct Hout as [(-> & Hgone & Hwhere)
                   | [(-> & Hcancel & js1 & now & Hstart & ->)
                     | (-> & js1 & now & f & Hstart & Hend & Hfin)]].
  - split_and!.
    + intros _ r Hr. congruence.
    + intros e r0 Hjob Hkept _. exfalso.
      destruct Hwhere as [-> | (js1 & now & Hstart & -> & _)]; [congruence|].
      apply storage_update_get in Hstart as (r1 & _ & Hjob1).
      destruct (Hkept _ _ Hjob1) as [r2 Hr2]. congruence.
    + intros r0 Hjob Hcancel. exfalso.
      destruct Hwhere as [-> | (js1 & now & Hstart & -> & Hnot)]; [congruence|].
      done.
  - split_and!.
    + done.
    + intros e r0 _ _ He. congruence.
    + intros r0 Hjob _. split; [done|]. exists js1, now.
      pose proof (storage_update_get _ _ _ _ Hstart) as (r1 & Hr1 & Hjob1).
      assert (r1 = r0) as -> by congruence. by split_and!.
  - apply storage_update_get in Hend as (r2 & Hjob2 & Hjob3).
    split_and!.
    + intros _ r Hr. assert (r = f r2) as -> by congruence.
      by apply (finalisation_terminal env _ f r2 Hfin).
    + intros e r0 _ _ Hraise. split; [done|]. exists (f r2).
      rewrite Hraise in Hfin.
      inversion Hfin as [e' now' He | now' He | ? ? He | ? ? He]; simplify_eq.
      split_and!; [done | done | done | by eexists].
    + intros r0 _ Hcancel. exfalso. rewrite Hcancel in Hfin.
      inversion Hfin; simplify_eq.
Qed.

Lemma background_exception_marks_failed_witness :
  let '(raised, js', w') :=
    Main.process_file_background (Scenario.env "" "")
      (fun _ _ w0 => (inl (OfException (Exception "event loop is closed")), w0))
      (fun js => js)
      "job-0" Scenario.upload_path "dni.png" Scenario.storage Scenario.world in
  raised = None
  /\ exists r',
       Main.storage_get js' "job-0" = Some r'
       /\ Main.status r' = Main.FAILED
       /\ Main.error r' = Some "event loop is closed".
Proof.
  pose proof (background_exception_marks_failed (Scenario.env "" "")
                (fun _ _ w0 => (inl (OfException (Exception "event loop is closed")), w0))
                (fun js => js) "job-0" Scenario.upload_path "dni.png"
                Scenario.storage Scenario.world) as H.
  cbn zeta in H.
  destruct (Main.process_file_background _ _ _ _ _ _ _ _) as [[raised js'] w'].
  destruct H as (_ & H & _).
  destruct (H (Exception "event loop is closed") Scenario.pending_job)
    as (Hraised & r' & Hget & Hstatus & Herror & _).
  - reflexivity.
  - intros js1 r1 Hr1. by exists r1.
  - reflexivity.
  - split; [exact Hraised|]. exists r'. split_and!; [exact Hget | exact Hstatus | exact Herror].
Defined.

(** ** The invariant of the job store *)

Lemma storage_get_ok js id r :
  SpecWords.job_store_inv js -> Main.storage_get js id = Some r ->
  SpecWords.record_ok r.
Proof.
  unfold SpecWords.job_store_inv. induction 1 as [|[k r0] js Hr0 _ IH]; cbn; [done|].
  destruct (String.eqb id k); [by intros [= <-] | exact IH].
Qed.

Lemma storage_update_ok js id f js' :
  (forall r, SpecWords.record_ok (f r)) ->
  Main.storage_update id f js = Some js' ->
  SpecWords.job_store_inv js -> SpecWords.job_store_inv js'.
Proof.
  intros Hf. unfold SpecWords.job_store_inv. revert js'.
  induction js as [|[k r0] js IH]; intros js'; cbn; [done|].
  destruct (String.eqb id k).
  - intros [= <-] Hinv. inversion Hinv; subst. constructor; [apply Hf | done].
  - destruct (Main.storage_update id f js) as [js''|]; [|done].
    intros [= <-] Hinv. inversion Hinv; subst. constructor; [done | by apply IH].
Qed.

Lemma storage_set_ok js id rec :
  SpecWords.record_ok rec ->
  SpecWords.job_store_inv js -> SpecWords.job_store_inv (Main.storage_set id rec js).
Proof.
  intros Hrec. unfold SpecWords.job_store_inv.
  induction 1 as [|[k r0] js Hr0 Hjs IH]; cbn.
  - constructor; [done | constructor].
  - destruct (String.eqb id k); by constructor.
Qed.

Lemma storage_pop_ok js id :
  SpecWords.job_store_inv js -> SpecWords.job_store_inv (Main.storage_pop id js).
Proof.
  unfold SpecWords.job_store_inv. induction 1 as [|[k r0] js Hr0 Hjs IH]; cbn; [done|].
  destruct (String.eqb id k); [done | by constructor].
Qed.

Lemma mark_processing_ok now r : SpecWords.record_ok (Main.mark_processing now r).
Proof. split; cbn; [by intros [|] | done]. Qed.

Lemma insert_by_created_at_ok j l :
  SpecWords.record_ok j -> Forall SpecWords.record_ok l ->
  Forall SpecWords.record_ok (Main.insert_by_created_at j l).
Proof.
  intros Hj. induction 1 as [|x l Hx Hl IH]; cbn.
  - constructor; [done | constructor].
  - destruct (String.leb _ _); constructor; try done. by constructor.
Qed.

Lemma sort_newest_first_ok l :
  Forall SpecWords.record_ok l -> Forall SpecWords.record_ok (Main.sort_newest_first l).
Proof.
  unfold Main.sort_newest_first.
  induction 1 as [|j l Hj _ IH]; cbn; [constructor|].
  by apply insert_by_created_at_ok.
Qed.

Lemma slice_to_ok limit l :
  Forall SpecWords.record_ok l -> Forall SpecWords.record_ok (Main.slice_to limit l).
Proof.
  intros H. unfold Main.slice_to. destruct (0 <=? limit)%Z; by apply Forall_take.
Qed.

Lemma simplify_jobs_ok l :
  Forall SpecWords.record_ok l -> exists out, Main.simplify_jobs l = inr out.
Proof.
  induction 1 as [|job l [Hdone _] _ [out IH]]; cbn; [by eexists|].
  rewrite IH. unfold Main.simplify_job.
  destruct (Main.status job) eqn:Hst; cbn; try by eexists.
  destruct Hdone as [c ->]; [by left|]. by eexists.
Qed.

(** C10.  The empty store satisfies the invariant -- every COMPLETED or
    FAILED record has [completed_at], every FAILED record also [error] --
    and submission, background execution (provided the requests served
    during its [await] keep the invariant) and deletion keep it.  Under
    the invariant neither the status query nor the listing raises a
    [KeyError]. *)
Theorem job_store_invariant_kept env settings js :
  SpecWords.job_store_inv js ->
  SpecWords.job_store_inv []
  /\ (forall file tasks w,
        SpecWords.job_store_inv
          (Main.job_storage
             (snd (fst (Main.upload_document env settings file
                          {| Main.job_storage := js;
                             Main.background_tasks := tasks |} w)))))
  /\ (forall pipeline_process during_await id file_path fname w,
        (forall js1, SpecWords.job_store_inv js1 ->
                     SpecWords.job_store_inv (during_await js1)) ->
        SpecWords.job_store_inv
          (snd (fst (Main.process_file_background env pipeline_process during_await
                       id file_path fname js w))))
  /\ (forall id w, SpecWords.job_store_inv (snd (fst (Main.delete_job env id js w))))
  /\ (forall id key, Main.get_job_status id js <> inl (KeyError key))
  /\ (forall limit key, Main.list_jobs limit js <> inl (KeyError key)).
Proof.
  intros Hinv. split_and!.
  - constructor.
  - intros file tasks w. unfold Main.upload_document.
    destruct (ApiUtils.validate_document env settings file); [done|].
    unfold ApiUtils.save_temp_file. run_M.
    destruct (mkdir env _); cbn; [done|].
    destruct (open_for_writing env _); cbn; [done|].
    destruct (write_bytes env _ _) as [[e written]|]; cbn; [done|].
    destruct (negb (bool_decide _)); cbn; [done|].
    apply storage_set_ok; [|exact Hinv].
    split; cbn; [intros [?|?]; discriminate | discriminate].
  - intros pipeline_process during_await id file_path fname w Hawait.
    pose proof (background_outcome env pipeline_process during_await
                  id file_path fname js w) as Hout. cbn zeta in Hout.
    destruct (Main.process_file_background _ _ _ _ _ _ _ _) as [[raised js'] w'].
    cbn.
    destruct Hout as [(_ & _ & [-> | (js1 & now & Hstart & -> & _)])
                     | [(_ & _ & js1 & now & Hstart & ->)
                       | (_ & js1 & now & f & Hstart & Hend & Hfin)]]; [done| | |].
    + apply Hawait. eapply storage_update_ok; [|exact Hstart|done].
      apply mark_processing_ok.
    + apply Hawait. eapply storage_update_ok; [|exact Hstart|done].
      apply mark_processing_ok.
    + eapply storage_update_ok; [|exact Hend|].
      * intros r. by apply (finalisation_terminal env _ f r Hfin).
      * apply Hawait. eapply storage_update_ok; [|exact Hstart|done].
        apply mark_processing_ok.
  - intros id w. unfold Main.delete_job.
    destruct (Main.storage_get js id); [|done]. run_M.
    destruct (files w !! _); cbn; [destruct (os_unlink_error env _); cbn|];
      by apply storage_pop_ok.
  - intros id key. unfold Main.get_job_status.
    destruct (Main.storage_get js id) as [r|] eqn:Hget; [|done].
    destruct (storage_get_ok _ _ _ Hinv Hget) as [Hdone Herr].
    destruct (Main.status r); try done.
    + destruct Hdone as [c ->]; [by left | done].
    + destruct Hdone as [c ->]; [by right|]. by destruct Herr as [msg ->].
  - intros limit key. unfold Main.list_jobs.
    destruct (simplify_jobs_ok (Main.slice_to limit (Main.sort_newest_first (map snd js))))
      as [out ->]; [|done].
    apply slice_to_ok, sort_newest_first_ok.
    unfold SpecWords.job_store_inv in Hinv. by apply Forall_fmap.
Qed.

Lemma job_store_invariant_kept_witness :
  SpecWords.job_store_inv Scenario.finished_storage
  /\ Main.get_job_status "job-0" Scenario.finished_storage
     <> inl (KeyError "completed_at")
  /\ Main.list_jobs 10 Scenario.finished_storage <> inl (KeyError "completed_at").
Proof.
  assert (Hinv : SpecWords.job_store_inv Scenario.finished_storage).
  { constructor; [|constructor]. split; cbn; intros; by eexists. }
  split; [exact Hinv|].
  split; apply (job_store_invariant_kept (Scenario.env "" "") Scenario.settings
                  Scenario.finished_storage Hinv).
Defined.

(** ** The keys of a completed job's extracted data *)

(** A result of the orchestrator that is not a failure carries the mapping
    parsed from the LLM's answer, and no raw text. *)
Lemma pipeline_success env settings file_path fname w result :
  fst (Main.pipeline env settings file_path fname w) = inr (Some result) ->
  Main.result_failed result = false ->
  exists request response content rest answer,
    chat_completions_create env request = inr response
    /\ choices response = Some content :: rest
    /\ json_loads env (Py.strip (Llm.clean_json_format content)) = inr (JObject answer)
    /\ Pipeline.extracted_data result = Some answer
    /\ Pipeline.processing_data_raw_text result = None.
Proof.
  unfold Main.pipeline, Pipeline.process, Pipeline.ainvoke.
  unfold mbind, M_bind, mret, M_ret, read_clock. cbn beta iota zeta.
  destruct (graph_failure env); [done|].
  destruct (ImageProcessing.image_processing_node _ _ _ _) as [sa wa].
  pose proof (llm_node_outcome env settings sa wa) as Hout.
  destruct (Llm.llm_node env settings sa wa) as [sb wb]. cbn.
  intros [= <-]. unfold Main.result_failed, Pipeline.shape_result, Pipeline.channels.
  cbn. destruct (bool_decide _) eqn:Hfailed; cbn; [by rewrite Hfailed|].
  intros _. apply bool_decide_eq_false in Hfailed.
  destruct Hout as [Hout | (request & response & content & rest & answer & Hout)].
  { destruct Hfailed. by rewrite <- Hout. }
  destruct Hout as (Hcall & _ & Hchoices & Hparse & _ & Hdata & _).
  exists request, response, content, rest, answer. by rewrite Hdata.
Qed.

(** C1, as stated, fails: a job completes with [extracted_data] holding the
    key [edad], which the LLM returned, and the key [texto_extraido], which
    the job tracker adds itself; neither is one of the seven fields of the
    prompt. *)
Lemma completed_job_has_unrecognized_keys :
  let '(raised, js', w') :=
    Scenario.run "REPUBLICA DEL PERU DNI 12345678" Scenario.answer_text
      Scenario.settings in
  exists r res,
    Main.storage_get js' "job-0" = Some r
    /\ Main.status r = Main.COMPLETED
    /\ Main.result r = Some res
    /\ Main.er_extracted_data res !! "edad" = Some (JString "30")
    /\ ~ SpecWords.recognized "edad"
    /\ Main.er_extracted_data res !! "texto_extraido" = Some (JString "")
    /\ ~ SpecWords.recognized "texto_extraido"
    /\ ~ (forall key, key ∈ dom (Main.er_extracted_data res) ->
                      SpecWords.recognized key).
Proof.
  assert (Hedad : ~ SpecWords.recognized "edad").
  { intros H. cbn in H. repeat (destruct H as [H|H]; [discriminate H|]). destruct H. }
  assert (Htexto : ~ SpecWords.recognized "texto_extraido").
  { intros H. cbn in H. repeat (destruct H as [H|H]; [discriminate H|]). destruct H. }
  destruct (Scenario.run _ _ _) as [[raised js'] w'] eqn:Hrun.
  vm_compute in Hrun. injection Hrun as <- <- <-.
  eexists _, _. split_and!; try reflexivity; try done.
  intros H. apply Htexto, H. apply elem_of_dom. by eexists.
Qed.

(** C1, amended.  For every job that a background execution (with the real
    pipeline) leaves COMPLETED, the [extracted_data] of its stored result is
    the JSON mapping parsed from the LLM's answer with the entry
    [texto_extraido] added by the job tracker: its keys are the keys the
    LLM returned plus [texto_extraido], unfiltered. *)
Theorem completed_job_keys env settings during_await id file_path fname js w :
  let '(raised, js', w') :=
    Main.process_file_background env (Main.pipeline env settings) during_await
      id file_path fname js w in
  forall r,
    Main.storage_get js' id = Some r ->
    Main.status r = Main.COMPLETED ->
    exists res request response content rest answer,
      Main.result r = Some res
      /\ chat_completions_create env request = inr response
      /\ choices response = Some content :: rest
      /\ json_loads env (Py.strip (Llm.clean_json_format content))
         = inr (JObject answer)
      /\ Main.er_extracted_data res = <["texto_extraido" := JString ""]> answer
      /\ dom (Main.er_extracted_data res) = dom answer ∪ {["texto_extraido"]}.
Proof.
  pose proof (background_outcome env (Main.pipeline env settings) during_await
                id file_path fname js w) as Hout. cbn zeta in Hout.
  destruct (Main.process_file_background _ _ _ _ _ _ _ _) as [[raised js'] w'].
  intros r Hr Hcompleted.
  destruct Hout as [(_ & Hgone & _)
                   | [(_ & Hcancel & _) | (_ & js1 & now & f & _ & Hend & Hfin)]];
    [congruence | |].
  { destruct (pipeline_returns env settings file_path fname
                {| tick := S (tick w); files := files w; trace := trace w |})
      as [res Hres]. congruence. }
  apply storage_update_get in Hend as (r2 & _ & Hjob).
  assert (r = f r2) as -> by congruence.
  inversion Hfin as [e now' He | now' He | result now' He Hf | result now' He Hf];
    subst f; try discriminate Hcompleted.
  destruct (pipeline_success _ _ _ _ _ _ He Hf)
    as (request & response & content & rest & answer & Hcall & Hchoices & Hparse
        & Hdata & Hraw).
  exists (Main.enhance env result), request, response, content, rest, answer.
  assert (Hkeys : Main.er_extracted_data (Main.enhance env result)
                  = <["texto_extraido" := JString ""]> answer).
  { unfold Main.enhance. cbn. by rewrite Hdata, Hraw. }
  split_and!; try done. rewrite Hkeys, dom_insert_L. apply (comm_L (∪)).
Qed.

Lemma completed_job_keys_witness :
  let '(raised, js', w') :=
    Scenario.run "REPUBLICA DEL PERU DNI 12345678" Scenario.answer_text
      Scenario.settings in
  exists r res (answer : gmap string json),
    Main.storage_get js' "job-0" = Some r
    /\ Main.result r = Some res
    /\ dom (Main.er_extracted_data res) = dom answer ∪ {["texto_extraido"]}.
Proof.
  unfold Scenario.run.
  pose proof (completed_job_keys
                (Scenario.env "REPUBLICA DEL PERU DNI 12345678" Scenario.answer_text)
                Scenario.settings (fun js => js) "job-0" Scenario.upload_path
                "dni.png" Scenario.storage Scenario.world) as H.
  destruct (Main.process_file_background _ _ _ _ _ _ _ _)
    as [[raised js'] w'] eqn:Hrun.
  vm_compute in Hrun. injection Hrun as <- <- <-.
  edestruct H as (res & _ & _ & _ & _ & answer & Hres & _ & _ & _ & _ & Hdom).
  - reflexivity.
  - reflexivity.
  - eexists _, res, answer. split_and!; [reflexivity | exact Hres | exact Hdom].
Defined.

(* ===================================================================== *)
(** * Further properties *)
(* ===================================================================== *)

(** ** The two stages, case by case *)

(** The checks that let Stage A reach the OCR call. *)
Lemma vision_validation_true env msg :
  OcrUtils.validate_tesseract_installation env = (true, msg) ->
  VISION_AVAILABLE env = true
  /\ exists credentials,
       GOOGLE_APPLICATION_CREDENTIALS env = Some credentials
       /\ Py.truthy credentials = true.
Proof.
  unfold OcrUtils.validate_tesseract_installation.
  destruct (VISION_AVAILABLE env); cbn; [|done].
  destruct (GOOGLE_APPLICATION_CREDENTIALS env) as [credentials|]; [|done].
  destruct (Py.truthy credentials) eqn:Hc; cbn; [|done]. intros _. eauto.
Qed.

Lemma pillow_validation_none env :
  ImageUtils.validate_image_dependencies env = None -> PIL_AVAILABLE env = true.
Proof.
  unfold ImageUtils.validate_image_dependencies. by destruct (PIL_AVAILABLE env).
Qed.

Lemma truthy_false s : Py.truthy s = false -> s = "".
Proof.
  unfold Py.truthy. intros H. apply negb_false_iff in H. by apply String.eqb_eq.
Qed.

Lemma truthy_true s : Py.truthy s = true <-> s <> "".
Proof.
  unfold Py.truthy. rewrite negb_true_iff. apply String.eqb_neq.
Qed.

(** The facts behind the tests a run has passed. *)
Ltac checks_passed :=
  repeat match goal with
    | H : negb _ = false |- _ => apply negb_false_iff in H
    | H : negb _ = true |- _ => apply negb_true_iff in H
    | H : _ || _ = false |- _ => apply orb_false_iff in H as [? ?]
    end;
  subst;
  repeat match goal with
    | H : OcrUtils.validate_tesseract_installation _ = (true, _) |- _ =>
        apply vision_validation_true in H as [? _]
    | H : ImageUtils.validate_image_dependencies _ = None |- _ =>
        apply pillow_validation_none in H
    | H : Qle_bool (ApiUtils.size_mb _) _ = true |- _ => apply size_test_ok in H
    | H : Py.truthy (error_message _) = false |- _ => apply truthy_false in H
    end.

(** Every way Stage A can end.  It always enters its stage, keeps the
    files, the document descriptor, the extracted data, the metrics and
    the warnings, and calls no LLM.  Either it records one error, sets
    FAILED and leaves the processing data as they were -- having called
    the OCR collaborator at most once, and only on a readable image that
    passed every check -- or it keeps status and errors, has called the OCR
    collaborator exactly once on such an image, and stores the trimmed,
    non-blank text. *)
Lemma stage_a_cases env settings st w :
  let path := DocumentInfo.file_path (PipelineState.document_info st) in
  let checked image :=
    VISION_AVAILABLE env = true /\ PIL_AVAILABLE env = true
    /\ files w !! path = Some image
    /\ ImageUtils.is_image_file path = true
    /\ SpecWords.within_ceiling (Settings.max_image_size_mb settings) image in
  let '(st', w') := ImageProcessing.image_processing_node env settings st w in
  files w' = files w
  /\ PipelineState.document_info st' = PipelineState.document_info st
  /\ PipelineState.extracted_data st' = PipelineState.extracted_data st
  /\ PipelineState.metrics st' = PipelineState.metrics st
  /\ LoggingData.warnings (PipelineState.logging st')
     = LoggingData.warnings (PipelineState.logging st)
  /\ PipelineState.processing_stage st' = "ImageProcessing"
  /\ ((PipelineState.status st' = "FAILED"
       /\ PipelineState.processing_data st' = PipelineState.processing_data st
       /\ (exists n msg,
             LoggingData.errors (PipelineState.logging st')
             = LoggingData.errors (PipelineState.logging st)
               ++ [PipelineState.stamped env n msg])
       /\ (trace w' = trace w
           \/ exists image, checked image /\ trace w' = trace w ++ [EvOcr image]))
      \/ (PipelineState.status st' = PipelineState.status st
          /\ LoggingData.errors (PipelineState.logging st')
             = LoggingData.errors (PipelineState.logging st)
          /\ exists image response annotation,
               checked image
               /\ trace w' = trace w ++ [EvOcr image]
               /\ document_text_detection env image = inr response
               /\ error_message response = ""
               /\ full_text_annotation response = Some annotation
               /\ Py.truthy (Py.strip (text annotation)) = true
               /\ PipelineState.processing_data st'
                  = {| ProcessingData.raw_text := Some (Py.strip (text annotation));
                       ProcessingData.ocr_confidence :=
                         ProcessingData.ocr_confidence
                           (PipelineState.processing_data st) |})).
Proof.
  intros path checked. subst path checked. unfold_stage_a. run_M.
  repeat (case_step; simplify_eq); try absurd_blank; checks_passed.
  all: split_and!; try done.
  all: first
    [ solve [left; split_and!; [done | done | by eexists _, _ | by left]]
    | solve [left; split_and!;
             [done | done | by eexists _, _
             | right; eexists; split; [by split_and! | done]]]
    | right; split_and!; [done | done |];
      eexists _, _, _; by split_and! ].
Qed.

(** Every way Stage B can end.  On a failed state it does nothing.
    Otherwise it enters its stage, keeps the files, the document
    descriptor, the processing data and the warnings, and either records
    one error, sets FAILED and leaves extracted data and metrics as they
    were, or completes with the mapping parsed from the answer.  The LLM is
    called at most once, always with the request built from the settings
    and the raw text, and only after the client could be created. *)
Lemma stage_b_cases env settings st w :
  let called t w' :=
    ProcessingData.raw_text (PipelineState.processing_data st) = Some t
    /\ Py.truthy t = true
    /\ openai_client env (Settings.openai_api_key settings) = None
    /\ trace w' = trace w
                  ++ [EvLlm (Llm.chat_request settings Prompts.EXTRACTION_SYSTEM_PROMPT
                               (Prompts.EXTRACTION_USER_PROMPT_format t))] in
  let '(st', w') := Llm.llm_node env settings st w in
  (PipelineState.status st = "FAILED" /\ st' = st /\ w' = w)
  \/ (PipelineState.status st <> "FAILED"
      /\ files w' = files w
      /\ PipelineState.document_info st' = PipelineState.document_info st
      /\ PipelineState.processing_data st' = PipelineState.processing_data st
      /\ LoggingData.warnings (PipelineState.logging st')
         = LoggingData.warnings (PipelineState.logging st)
      /\ PipelineState.processing_stage st' = "llm_processing"
      /\ ((PipelineState.status st' = "FAILED"
           /\ PipelineState.extracted_data st' = PipelineState.extracted_data st
           /\ PipelineState.metrics st' = PipelineState.metrics st
           /\ (exists n msg detail,
                 LoggingData.errors (PipelineState.logging st')
                 = LoggingData.errors (PipelineState.logging st)
                   ++ [PipelineState.stamped env n msg]
                 /\ (msg = "Error inicializando cliente OpenAI: " +:+ detail
                     \/ msg = "Error en extracción LLM: " +:+ detail))
           /\ (trace w' = trace w \/ exists t, called t w'))
          \/ (PipelineState.status st' = "COMPLETED"
              /\ LoggingData.errors (PipelineState.logging st')
                 = LoggingData.errors (PipelineState.logging st)
              /\ exists t response content rest answer,
                   called t w'
                   /\ chat_completions_create env
                        (Llm.chat_request settings Prompts.EXTRACTION_SYSTEM_PROMPT
                           (Prompts.EXTRACTION_USER_PROMPT_format t)) = inr response
                   /\ choices response = Some content :: rest
                   /\ json_loads env (Py.strip (Llm.clean_json_format content))
                      = inr (JObject answer)
                   /\ PipelineState.extracted_data st' = answer
                   /\ PipelineState.metrics st'
                      = PipelineState.metrics
                          (PipelineState.update_metrics
                             (default 0%Z (usage response)) 0 st)))).
Proof.
  intros called. subst called. unfold_stage_b.
  destruct (String.eqb (PipelineState.status st) "FAILED") eqn:Hst.
  { cbn. left. apply String.eqb_eq in Hst. done. }
  apply String.eqb_neq in Hst. run_M.
  repeat (case_step; simplify_eq); checks_passed.
  all: right; split_and!; try done.
  all: first
    [ solve [left; split_and!;
             [done | done | done | eexists _, _, _; split; [done | by auto]
             | by left]]
    | solve [left; split_and!;
             [done | done | done | eexists _, _, _; split; [done | by auto]
             | right; eexists; by split_and!]]
    | right; split_and!; [done | done |];
      eexists _, _, _, _, _; split_and!; try done;
      match goal with H : usage _ = _ |- _ => by rewrite H end ].
Qed.

(** ** Stage A: what it calls and how it fails *)

(** X1.  Stage A never calls the LLM and never changes a file.  It calls
    the OCR collaborator at most once, with the bytes of the state's file,
    and only when Vision and Pillow are available, the file exists, has a
    supported extension and is within the size ceiling. *)
Theorem ocr_only_on_checked_image env settings st w :
  let path := DocumentInfo.file_path (PipelineState.document_info st) in
  let '(st', w') := ImageProcessing.image_processing_node env settings st w in
  files w' = files w
  /\ llm_calls w' = llm_calls w
  /\ (trace w' = trace w
      \/ exists image,
           trace w' = trace w ++ [EvOcr image]
           /\ files w !! path = Some image
           /\ VISION_AVAILABLE env = true
           /\ PIL_AVAILABLE env = true
           /\ ImageUtils.is_image_file path = true
           /\ SpecWords.within_ceiling (Settings.max_image_size_mb settings) image).
Proof.
  intros path. subst path.
  pose proof (stage_a_cases env settings st w) as H. cbn zeta in H.
  destruct (ImageProcessing.image_processing_node env settings st w) as [st' w'].
  destruct H as (Hfiles & _ & _ & _ & _ & _ & Hcases).
  assert (Htrace : trace w' = trace w
            \/ exists image,
                 trace w' = trace w ++ [EvOcr image]
                 /\ files w !! DocumentInfo.file_path (PipelineState.document_info st)
                    = Some image
                 /\ VISION_AVAILABLE env = true
                 /\ PIL_AVAILABLE env = true
                 /\ ImageUtils.is_image_file
                      (DocumentInfo.file_path (PipelineState.document_info st)) = true
                 /\ SpecWords.within_ceiling (Settings.max_image_size_mb settings) image).
  { destruct Hcases as [(_ & _ & _ & [Hsame | (image & Hchecked & Htr)])
                       | (_ & _ & image & ? & ? & Hchecked & Htr & _)].
    - by left.
    - right. exists image. by destruct Hchecked as (? & ? & ? & ? & ?).
    - right. exists image. by destruct Hchecked as (? & ? & ? & ? & ?). }
  split_and!; [done | | done].
  unfold llm_calls. destruct Htrace as [-> | (image & -> & _)]; [done|].
  apply llm_calls_after_ocr.
Qed.



(** ** Stage B: what it calls and how it fails *)

(** X3.  Stage B changes no file and calls the LLM at most once; when it
    does, the state was not failed, the client could be created, the raw
    text was present and not empty, and the request is the one built from
    the settings and that text: the configured model and temperature, 1500
    tokens, top-p 0.9, the fixed system prompt and the user prompt with the
    raw text in the place of its placeholder. *)
Theorem llm_called_once_with_settings env settings st w :
  let '(st', w') := Llm.llm_node env settings st w in
  files w' = files w
  /\ ocr_calls w' = ocr_calls w
  /\ (trace w' = trace w
      \/ exists t,
           trace w'
           = trace w
             ++ [EvLlm {| req_model := Settings.llm_model settings;
                          req_system := Prompts.EXTRACTION_SYSTEM_PROMPT;
                          req_user :=
                            Prompts.EXTRACTION_USER_PROMPT_before +:+ t
                            +:+ Prompts.EXTRACTION_USER_PROMPT_after;
                          req_max_tokens := 1500;
                          req_temperature := Settings.llm_temperature settings;
                          req_top_p := 9 # 10 |}]
           /\ PipelineState.status st <> "FAILED"
           /\ openai_client env (Settings.openai_api_key settings) = None
           /\ ProcessingData.raw_text (PipelineState.processing_data st) = Some t
           /\ t <> "").
Proof.
  pose proof (stage_b_cases env settings st w) as H. cbn zeta in H.
  destruct (Llm.llm_node env settings st w) as [st' w'].
  destruct H as [(_ & -> & ->) | (Hst & Hfiles & _ & _ & _ & _ & Hcases)].
  { split_and!; auto. }
  assert (Htrace : trace w' = trace w
            \/ exists t,
                 ProcessingData.raw_text (PipelineState.processing_data st) = Some t
                 /\ Py.truthy t = true
                 /\ openai_client env (Settings.openai_api_key settings) = None
                 /\ trace w'
                    = trace w
                      ++ [EvLlm (Llm.chat_request settings
                                   Prompts.EXTRACTION_SYSTEM_PROMPT
                                   (Prompts.EXTRACTION_USER_PROMPT_format t))]).
  { destruct Hcases as [(_ & _ & _ & _ & [Hsame | [t Hcalled]])
                       | (_ & _ & t & ? & ? & ? & ? & Hcalled & _)].
    - by left.
    - right. by exists t.
    - right. by exists t. }
  split_and!; [done | |].
  - unfold ocr_calls. destruct Htrace as [-> | (t & _ & _ & _ & ->)]; [done|].
    rewrite List.filter_app, length_app. cbn. lia.
  - destruct Htrace as [Hsame | (t & Hraw & Htruthy & Hclient & Htr)]; [by left|].
    right. exists t. split_and!; try done. by apply truthy_true.
Qed.

(** X4.  Stage B fails cleanly whenever no mapping is parsed from an
    answer: coming from a state that was not failed, if the client cannot
    be created, the prompts cannot be built, the call raises, the answer
    has no first choice or no content, or its text does not parse to a JSON
    object, then the stage ends FAILED at [llm_processing], has added
    exactly one error, written as [[hh:mm:ss] message] where the message
    opens with the client-initialisation or the extraction prefix, and has
    left the extracted data, the metrics and the processing data as they
    were. *)
Theorem stage_b_failure_is_clean env settings st w :
  let st' := fst (Llm.llm_node env settings st w) in
  PipelineState.status st <> "FAILED" ->
  (forall t response content rest answer,
     openai_client env (Settings.openai_api_key settings) = None ->
     ProcessingData.raw_text (PipelineState.processing_data st) = Some t ->
     Py.truthy t = true ->
     chat_completions_create env
       (Llm.chat_request settings Prompts.EXTRACTION_SYSTEM_PROMPT
          (Prompts.EXTRACTION_USER_PROMPT_format t)) = inr response ->
     choices response = Some content :: rest ->
     json_loads env (Py.strip (Llm.clean_json_format content))
     <> inr (JObject answer)) ->
  PipelineState.status st' = "FAILED"
  /\ PipelineState.extracted_data st' = PipelineState.extracted_data st
  /\ PipelineState.metrics st' = PipelineState.metrics st
  /\ PipelineState.processing_data st' = PipelineState.processing_data st
  /\ PipelineState.processing_stage st' = "llm_processing"
  /\ exists n msg detail,
       LoggingData.errors (PipelineState.logging st')
       = LoggingData.errors (PipelineState.logging st)
         ++ ["[" +:+ now_hms env n +:+ "] " +:+ msg]
       /\ (msg = "Error inicializando cliente OpenAI: " +:+ detail
           \/ msg = "Error en extracción LLM: " +:+ detail).
Proof.
  intros st' Hst Hunparsed. subst st'.
  pose proof (stage_b_cases env settings st w) as H. cbn zeta in H.
  destruct (Llm.llm_node env settings st w) as [st' w']. cbn in *.
  destruct H as [(? & _) | (_ & _ & _ & Hdata & _ & Hstage & Hcases)]; [done|].
  destruct Hcases as [(Hfailed & Hextracted & Hmetrics & Herrors & _)
                     | (_ & _ & t & response & content & rest & answer
                        & (Hraw & Htruthy & Hclient & _) & Hchat & Hchoices & Hparse
                        & _)].
  - by split_and!.
  - by destruct (Hunparsed t response content rest answer).
Qed.

Lemma stage_b_failure_is_clean_witness :
  let st' := fst (Llm.llm_node (Scenario.env "" "[]") Scenario.settings
                    Scenario.text_state Scenario.world) in
  PipelineState.status st' = "FAILED"
  /\ PipelineState.extracted_data st'
     = PipelineState.extracted_data Scenario.text_state.
Proof.
  destruct (stage_b_failure_is_clean (Scenario.env "" "[]") Scenario.settings
              Scenario.text_state Scenario.world) as (Hfailed & Hdata & _).
  - vm_compute. intros H. discriminate H.
  - intros t response content rest answer _ _ _ Hchat Hchoices.
    vm_compute in Hchat. injection Hchat as <-.
    vm_compute in Hchoices. injection Hchoices as <- <-.
    vm_compute. intros H. discriminate H.
  - split; [exact Hfailed | exact Hdata].
Defined.

(** X5.  Without raw text -- none, or the empty string -- a Stage B whose
    client can be created fails with the message that no text is available,
    and calls nothing. *)
Theorem stage_b_without_text env settings st w :
  PipelineState.status st <> "FAILED" ->
  openai_client env (Settings.openai_api_key settings) = None ->
  ProcessingData.raw_text (PipelineState.processing_data st) = None
  \/ ProcessingData.raw_text (PipelineState.processing_data st) = Some "" ->
  let '(st', w') := Llm.llm_node env settings st w in
  PipelineState.status st' = "FAILED"
  /\ LoggingData.errors (PipelineState.logging st')
     = LoggingData.errors (PipelineState.logging st)
       ++ [PipelineState.stamped env (S (tick w))
             "Error en extracción LLM: No hay texto extraído disponible en el estado"]
  /\ trace w' = trace w.
Proof.
  intros Hst Hclient Hraw. unfold_stage_b.
  apply String.eqb_neq in Hst. rewrite Hst, Hclient. run_M.
  destruct Hraw as [-> | ->]; by cbn.
Qed.

Lemma stage_b_without_text_witness :
  PipelineState.status
    (fst (Llm.llm_node (Scenario.env "" "{}") Scenario.settings
            (Pipeline.create_initial_state Scenario.upload_path "dni.png")
            Scenario.world))
  = "FAILED".
Proof.
  pose proof (stage_b_without_text (Scenario.env "" "{}") Scenario.settings
                (Pipeline.create_initial_state Scenario.upload_path "dni.png")
                Scenario.world) as H.
  destruct (Llm.llm_node _ _ _ _) as [st' w'].
  apply H.
  - vm_compute. intros E. discriminate E.
  - reflexivity.
  - left. reflexivity.
Defined.

(** ** The orchestrator *)

Lemma calls_after_ocr w w' image :
  trace w' = trace w ++ [EvOcr image] ->
  ocr_calls w' = S (ocr_calls w) /\ llm_calls w' = llm_calls w.
Proof.
  intros H. unfold ocr_calls, llm_calls. rewrite H, !List.filter_app, !length_app.
  cbn. lia.
Qed.

Lemma calls_after_llm w w' request :
  trace w' = trace w ++ [EvLlm request] ->
  ocr_calls w' = ocr_calls w /\ llm_calls w' = S (llm_calls w).
Proof.
  intros H. unfold ocr_calls, llm_calls. rewrite H, !List.filter_app, !length_app.
  cbn. lia.
Qed.

Lemma calls_same w w' :
  trace w' = trace w -> ocr_calls w' = ocr_calls w /\ llm_calls w' = llm_calls w.
Proof. intros H. unfold ocr_calls, llm_calls. by rewrite H. Qed.

(** The shape [process] gives to a final state, from its status. *)
Lemma shape_of_failed st :
  PipelineState.status st = "FAILED" ->
  Pipeline.shape_result (Pipeline.channels st)
  = {| Pipeline.processing_control :=
         Some {| Pipeline.rc_status := Some "FAILED";
                 Pipeline.rc_processing_stage := PipelineState.processing_stage st |};
       Pipeline.error_details :=
         Some {| Pipeline.ed_errors := LoggingData.errors (PipelineState.logging st);
                 Pipeline.ed_warnings :=
                   LoggingData.warnings (PipelineState.logging st);
                 Pipeline.ed_last_stage := PipelineState.processing_stage st |};
       Pipeline.extracted_data := None;
       Pipeline.metrics := Some (Pipeline.AsModel (PipelineState.metrics st));
       Pipeline.time_metrics_total_time := None;
       Pipeline.debug_ocr_confidence := None;
       Pipeline.debug_ocr_method := None;
       Pipeline.processing_data_raw_text := None |}.
Proof.
  unfold PipelineState.status. intros H.
  unfold Pipeline.shape_result, Pipeline.channels. cbn. rewrite H.
  by rewrite bool_decide_eq_true_2.
Qed.

Lemma shape_of_completed st :
  PipelineState.status st = "COMPLETED" ->
  Pipeline.shape_result (Pipeline.channels st)
  = {| Pipeline.processing_control :=
         Some {| Pipeline.rc_status := Some "COMPLETED";
                 Pipeline.rc_processing_stage := PipelineState.processing_stage st |};
       Pipeline.error_details := None;
       Pipeline.extracted_data := Some (PipelineState.extracted_data st);
       Pipeline.metrics := Some (Pipeline.AsModel (PipelineState.metrics st));
       Pipeline.time_metrics_total_time := None;
       Pipeline.debug_ocr_confidence := None;
       Pipeline.debug_ocr_method := None;
       Pipeline.processing_data_raw_text := None |}.
Proof.
  unfold PipelineState.status. intros H.
  unfold Pipeline.shape_result, Pipeline.channels. cbn. rewrite H.
  by rewrite bool_decide_eq_false_2.
Qed.

(** The two shapes of a result of the orchestrator. *)
Lemma process_shapes env settings file_path fname w :
  match fst (Pipeline.process env settings file_path fname w) with
  | None => graph_failure env <> None
  | Some r =>
      (exists stage n msg,
         Pipeline.processing_control r
         = Some {| Pipeline.rc_status := Some "FAILED";
                   Pipeline.rc_processing_stage := stage |}
         /\ Pipeline.error_details r
            = Some {| Pipeline.ed_errors := [PipelineState.stamped env n msg];
                      Pipeline.ed_warnings := [];
                      Pipeline.ed_last_stage := stage |}
         /\ (stage = "ImageProcessing" \/ stage = "llm_processing"))
      \/ Pipeline.processing_control r
         = Some {| Pipeline.rc_status := Some "COMPLETED";
                   Pipeline.rc_processing_stage := "llm_processing" |}
  end.
Proof.
  unfold Pipeline.process, Pipeline.ainvoke.
  unfold mbind, M_bind, mret, M_ret, read_clock. cbn beta iota zeta.
  destruct (graph_failure env) as [e|] eqn:Hgraph; [by cbn|].
  set (w0 := {| tick := S (tick w); files := files w; trace := trace w |}).
  set (st0 := Pipeline.create_initial_state file_path fname).
  pose proof (stage_a_cases env settings st0 w0) as HA. cbn zeta in HA.
  destruct (ImageProcessing.image_processing_node env settings st0 w0) as [sa wa].
  pose proof (stage_b_cases env settings sa wa) as HB. cbn zeta in HB.
  destruct (Llm.llm_node env settings sa wa) as [sb wb]. cbn [fst].
  destruct HA as (_ & _ & _ & _ & HwarnA & HstageA & HA).
  destruct HA as [(HfailedA & _ & (n & msg & HerrA) & _) | (HstA & HerrA & _)].
  - destruct HB as [(_ & -> & ->) | (Hnot & _)]; [|done].
    rewrite (shape_of_failed _ HfailedA). left.
    exists "ImageProcessing", n, msg. rewrite HstageA, HerrA, HwarnA. cbn. auto.
  - destruct HB as [(Hfailed & _) | (_ & _ & _ & _ & HwarnB & HstageB & HB)].
    { rewrite HstA in Hfailed. discriminate Hfailed. }
    destruct HB as [(HfailedB & _ & _ & (n & msg & detail & HerrB & _) & _)
                   | (HdoneB & _)].
    + rewrite (shape_of_failed _ HfailedB). left.
      exists "llm_processing", n, msg.
      rewrite HstageB, HerrB, HerrA, HwarnB, HwarnA. cbn. auto.
    + rewrite (shape_of_completed _ HdoneB). right. by rewrite HstageB.
Qed.


(** ** The job store as a dictionary *)

Lemma storage_get_none js id :
  Main.storage_get js id = None <-> ~ In id (map fst js).
Proof.
  induction js as [|[k r] js IH]; cbn; [tauto|].
  destruct (String.eqb id k) eqn:Hk.
  - apply String.eqb_eq in Hk as ->. split; [done | tauto].
  - apply String.eqb_neq in Hk. rewrite IH. split; [|tauto].
    intros H [Heq | Hin]; [by subst | done].
Qed.

Lemma storage_update_keys js id f js' :
  Main.storage_update id f js = Some js' -> map fst js' = map fst js.
Proof.
  revert js'. induction js as [|[k r] js IH]; intros js'; cbn; [done|].
  destruct (String.eqb id k); [by intros [= <-]|].
  destruct (Main.storage_update id f js) as [js''|]; [|done].
  intros [= <-]. cbn. by rewrite (IH js'').
Qed.

Lemma storage_update_other js id f js' k :
  Main.storage_update id f js = Some js' -> k <> id ->
  Main.storage_get js' k = Main.storage_get js k.
Proof.
  revert js'. induction js as [|[k0 r] js IH]; intros js'; cbn; [done|].
  destruct (String.eqb id k0) eqn:Hid.
  - apply String.eqb_eq in Hid as <-. intros [= <-] Hk. cbn.
    apply String.eqb_neq in Hk. by rewrite Hk.
  - destruct (Main.storage_update id f js) as [js''|]; [|done].
    intros [= <-] Hk. cbn. destruct (String.eqb k k0); [done|]. by apply IH.
Qed.

Lemma storage_set_get js id rec :
  Main.storage_get (Main.storage_set id rec js) id = Some rec.
Proof.
  induction js as [|[k r] js IH]; cbn.
  - by rewrite String.eqb_refl.
  - destruct (String.eqb id k) eqn:Hk; cbn; by rewrite Hk.
Qed.

Lemma storage_set_other js id rec k :
  k <> id -> Main.storage_get (Main.storage_set id rec js) k = Main.storage_get js k.
Proof.
  intros Hk. apply String.eqb_neq in Hk.
  induction js as [|[k0 r] js IH]; cbn.
  - by rewrite Hk.
  - destruct (String.eqb id k0) eqn:Hid; cbn.
    + apply String.eqb_eq in Hid as <-. by rewrite Hk.
    + by rewrite IH.
Qed.

Lemma storage_set_keys_old js id rec :
  In id (map fst js) -> map fst (Main.storage_set id rec js) = map fst js.
Proof.
  induction js as [|[k r] js IH]; cbn; [done|].
  destruct (String.eqb id k) eqn:Hid.
  - by apply String.eqb_eq in Hid as <-.
  - apply String.eqb_neq in Hid. intros [? | Hin]; [by subst|].
    cbn. by rewrite IH.
Qed.

Lemma storage_set_keys_new js id rec :
  ~ In id (map fst js) -> map fst (Main.storage_set id rec js) = map fst js ++ [id].
Proof.
  induction js as [|[k r] js IH]; cbn; [done|].
  destruct (String.eqb id k) eqn:Hid.
  - apply String.eqb_eq in Hid as <-. tauto.
  - intros Hin. cbn. rewrite IH; tauto.
Qed.

Lemma storage_pop_other js id k :
  k <> id -> Main.storage_get (Main.storage_pop id js) k = Main.storage_get js k.
Proof.
  intros Hk. apply String.eqb_neq in Hk.
  induction js as [|[k0 r] js IH]; cbn; [done|].
  destruct (String.eqb id k0) eqn:Hid; cbn.
  - apply String.eqb_eq in Hid as <-. by rewrite Hk.
  - by rewrite IH.
Qed.

Lemma storage_pop_gone js id :
  JobStore.unique_keys js -> Main.storage_get (Main.storage_pop id js) id = None.
Proof.
  unfold JobStore.unique_keys.
  induction js as [|[k r] js IH]; cbn; [done|].
  intros Hnd. apply NoDup_cons in Hnd as [Hk Hnd].
  destruct (String.eqb id k) eqn:Hid; cbn.
  - apply String.eqb_eq in Hid as ->. apply storage_get_none.
    by rewrite <- list_elem_of_In.
  - rewrite Hid. by apply IH.
Qed.

Lemma storage_pop_unique js id :
  JobStore.unique_keys js -> JobStore.unique_keys (Main.storage_pop id js).
Proof.
  unfold JobStore.unique_keys.
  induction js as [|[k r] js IH]; cbn; [done|].
  intros Hnd. apply NoDup_cons in Hnd as [Hk Hnd].
  destruct (String.eqb id k); cbn; [done|].
  apply NoDup_cons. split; [|by apply IH].
  intros Hin. apply Hk. apply list_elem_of_In in Hin. apply list_elem_of_In.
  clear -Hin. induction js as [|[k0 r0] js IHjs]; cbn in *; [done|].
  destruct (String.eqb id k0); cbn in *; tauto.
Qed.

Lemma join_single sep x : Py.join sep [x] = x.
Proof. reflexivity. Qed.

(** ** The background execution with the real pipeline *)



Lemma update_record_world env id f js w :
  files (snd (Main.update_record env id f js w)) = files w
  /\ trace (snd (Main.update_record env id f js w)) = trace w.
Proof.
  destruct (Main.update_record env id f js w) as [[js'|] w'] eqn:Hupd;
    apply update_record_inv in Hupd as [_ ->]; done.
Qed.

Lemma background_removes_file env pipeline_process during_await
    id file_path fname js w :
  os_unlink_error env file_path = None ->
  files (snd (Main.process_file_background env pipeline_process during_await
                id file_path fname js w)) !! file_path = None.
Proof.
  intros Hunlink.
  unfold Main.process_file_background.
  unfold mbind, M_bind, mret, M_ret. cbn beta.
  destruct (Main.background_body _ _ _ _ _ _ _ _) as [[[[e|]|] js1] w1].
  - destruct (Main.update_record _ _ _ _ _) as [[js2|] w2]; run_M;
      rewrite ?Hunlink;
      destruct (files w2 !! file_path) eqn:Hfile; cbn; try done;
      by rewrite lookup_delete_eq.
  - run_M. rewrite ?Hunlink.
    destruct (files w1 !! file_path) eqn:Hfile; cbn; try done;
      by rewrite lookup_delete_eq.
  - run_M. rewrite ?Hunlink.
    destruct (files w1 !! file_path) eqn:Hfile; cbn; try done;
      by rewrite lookup_delete_eq.
Qed.

(** X8.  The clean-up of a background execution, whatever the awaited
    pipeline call and the requests served meanwhile do (the pipeline
    raising, the task cancelled, the record deleted).  The events are
    those the pipeline call left (it is not called at all for a job that is
    not on record) plus one call of [os.unlink] if the file was still
    there.  When that call does not fail, no file is left at the path the
    task was given, and the files are otherwise those the pipeline call
    left; when it fails, the failure is swallowed and the files are those
    the pipeline call left.  Either way what leaves the task is nothing,
    the [KeyError] of the job id, or the cancellation. *)
Theorem background_removes_upload env pipeline_process during_await
    id file_path fname js w :
  let after_pipeline :=
    match Main.storage_get js id with
    | Some _ =>
        snd (pipeline_process file_path fname
               {| tick := S (tick w); files := files w; trace := trace w |})
    | None => w
    end in
  let '(raised, js', w') :=
    Main.process_file_background env pipeline_process during_await
      id file_path fname js w in
  trace w'
  = trace after_pipeline
    ++ (if bool_decide (is_Some (files after_pipeline !! file_path))
        then [EvUnlink file_path] else [])
  /\ match os_unlink_error env file_path with
     | None =>
         files w' !! file_path = None
         /\ files w' = delete file_path (files after_pipeline)
     | Some _ => files w' = files after_pipeline
     end
  /\ (raised = None \/ raised = Some (OfException (KeyError id))
      \/ raised = Some CancelledError).
Proof.
  intros after_pipeline. subst after_pipeline.
  unfold Main.process_file_background, Main.background_body.
  unfold mbind, M_bind, mret, M_ret. cbn beta.
  destruct (Main.update_record env id Main.mark_processing js w)
    as [[js1|] w1] eqn:Hstart;
    apply update_record_inv in Hstart as [Hstart ->].
  2: { rewrite Hstart. rewrite (update_record_miss _ _ _ _ _ Hstart). run_M.
       destruct (files w !! file_path) eqn:Hfile; cbn.
       - destruct (os_unlink_error env file_path); cbn;
           rewrite ?lookup_delete_eq; by auto.
       - destruct (os_unlink_error env file_path); cbn;
           rewrite ?delete_id by done; rewrite app_nil_r; by auto. }
  apply storage_update_get in Hstart as (r0 & -> & _).
  destruct (pipeline_process file_path fname _) as [[[e|]|[result|]] w2]; cbn.
  3: destruct (Main.result_failed result) eqn:Hfailed.
  all: try match goal with
       | |- context [Main.update_record ?e ?i ?f ?j ?w0] =>
           pose proof (update_record_world e i f j w0) as [Hf Ht];
           destruct (Main.update_record e i f j w0) as [[js3|] w3] eqn:Hend;
           pose proof (update_record_inv _ _ _ _ _ _ _ Hend) as Hinv; cbn in Hinv;
           destruct Hinv as [Hinv ->]
       end.
  all: try rewrite (update_record_miss _ _ _ _ _ Hinv).
  all: run_M; cbn in *.
  all: destruct (files w2 !! file_path) eqn:Hfile; cbn.
  all: match goal with
       | |- context [os_unlink_error ?e ?p] => destruct (os_unlink_error e p)
       end; cbn.
  all: rewrite ?lookup_delete_eq, ?app_nil_r.
  all: try rewrite delete_id by done.
  all: by auto.
Qed.

Lemma finalisation_keeps_identity env outcome f r :
  finalisation env outcome f ->
  Main.job_id (f r) = Main.job_id r
  /\ Main.filename (f r) = Main.filename r
  /\ Main.file_size_mb (f r) = Main.file_size_mb r
  /\ Main.created_at (f r) = Main.created_at r
  /\ Main.file_path (f r) = Main.file_path r
  /\ Main.started_at (f r) = Main.started_at r
  /\ is_Some (Main.completed_at (f r)).
Proof. intros [e now He | now He | result now He Hf | result now He Hf]; cbn; by split_and!. Qed.

(** X9.  A background execution during which no other request changes the
    store touches one record only, its own: the keys of the store and
    their order are kept, every other record is unchanged, and its own
    record keeps job id, file name, size, creation time and file path while
    it gains a start time and a completion time.  A [KeyError] leaves the
    task exactly when the job was not on record from the start.  The one
    exception is a task cancelled at the [await]: the cancellation leaves
    the task, and the record has gained its start time only and is
    PROCESSING. *)
Theorem background_touches_one_record env pipeline_process id file_path fname js w :
  let outcome :=
    fst (pipeline_process file_path fname
           {| tick := S (tick w); files := files w; trace := trace w |}) in
  let '(raised, js', w') :=
    Main.process_file_background env pipeline_process (fun js => js)
      id file_path fname js w in
  map fst js' = map fst js
  /\ (forall k, k <> id -> Main.storage_get js' k = Main.storage_get js k)
  /\ match Main.storage_get js id with
     | None => raised = Some (OfException (KeyError id)) /\ js' = js
     | Some r =>
         exists r',
           Main.storage_get js' id = Some r'
           /\ Main.job_id r' = Main.job_id r
           /\ Main.filename r' = Main.filename r
           /\ Main.file_size_mb r' = Main.file_size_mb r
           /\ Main.created_at r' = Main.created_at r
           /\ Main.file_path r' = Main.file_path r
           /\ is_Some (Main.started_at r')
           /\ match outcome with
              | inl CancelledError =>
                  raised = Some CancelledError
                  /\ Main.status r' = Main.PROCESSING
                  /\ Main.completed_at r' = Main.completed_at r
              | _ => raised = None /\ is_Some (Main.completed_at r')
              end
     end.
Proof.
  intros outcome.
  pose proof (background_outcome env pipeline_process (fun js => js)
                id file_path fname js w) as Hout. cbn zeta in Hout.
  fold outcome in Hout.
  destruct (Main.process_file_background _ _ _ _ _ _ _ _) as [[raised js'] w'].
  destruct Hout as [(-> & Hgone & Hwhere)
                   | [(-> & Hcancel & js1 & now & Hstart & ->)
                     | (-> & js1 & now & f & Hstart & Hend & Hfin)]].
  - destruct Hwhere as [-> | (js1 & now & Hstart & -> & _)].
    + rewrite Hgone. by split_and!.
    + apply storage_update_get in Hstart as (r1 & _ & Hjob1). congruence.
  - split_and!.
    + by rewrite (storage_update_keys _ _ _ _ Hstart).
    + intros k Hk. by rewrite (storage_update_other _ _ _ _ k Hstart Hk).
    + apply storage_update_get in Hstart as (r & -> & Hjob1).
      exists (Main.mark_processing now r). rewrite Hcancel. cbn. by split_and!.
  - split_and!.
    + by rewrite (storage_update_keys _ _ _ _ Hend), (storage_update_keys _ _ _ _ Hstart).
    + intros k Hk.
      by rewrite (storage_update_other _ _ _ _ k Hend Hk),
                 (storage_update_other _ _ _ _ k Hstart Hk).
    + apply storage_update_get in Hstart as (r & -> & Hjob1).
      apply storage_update_get in Hend as (r1 & Hjob1' & Hjob').
      assert (r1 = Main.mark_processing now r) as -> by congruence.
      exists (f (Main.mark_processing now r)).
      destruct (finalisation_keeps_identity env _ f (Main.mark_processing now r) Hfin)
        as (-> & -> & -> & -> & -> & -> & Hc).
      cbn. split_and!; try done.
      destruct Hfin as [e now' He | now' He | result now' He Hf | result now' He Hf];
        rewrite He; by split.
Qed.

(** ** Submission *)

Lemma validate_document_raises env settings file e :
  ApiUtils.validate_document env settings file = inl e ->
  exists msg, e = HTTPException 400 msg \/ e = HTTPException 413 msg.
Proof.
  unfold ApiUtils.validate_document.
  repeat (case_step; simplify_eq); intros [= <-]; eexists; eauto.
Qed.

Lemma validate_document_returns env settings file accepted :
  ApiUtils.validate_document env settings file = inr accepted ->
  accepted = ApiUtils.content file
  /\ exists fname,
       ApiUtils.filename file = Some fname
       /\ existsb (Py.endswith (Py.lower fname)) ApiUtils.image_extensions = true
       /\ Qle_bool (ApiUtils.size_mb (length accepted))
            (inject_Z (Settings.max_image_size_mb settings)) = true.
Proof.
  unfold ApiUtils.validate_document.
  repeat (case_step; simplify_eq); intros [= <-].
  checks_passed. split; [done|]. eexists. split_and!; try done.
  by apply size_test_ok.
Qed.

(** X10.  What a submission does.  When [upload_document] raises, it
    raises an [HTTPException] -- the 400 or 413 of the validation, or what
    a failure of the file system becomes -- and the application state does
    not change: no record, no task.  The files do not change either when
    the validation, the creation of the directory or the opening of the
    temporary file fails; when the write or the close fails, the temporary
    file is left behind with the bytes that got through.  The check that
    the saved file exists never fails.  When [upload_document] answers, the
    payload is stored at the path of the new record, every other file is
    kept, the record is PENDING under the returned job id and without start
    time, completion time, error or result, every other record is
    unchanged, exactly one background task is added for that job, path and
    name, and a status query for the returned id answers PENDING at
    once. *)
Theorem upload_outcome env settings file app w :
  let '(out, app', w') := Main.upload_document env settings file app w in
  match out with
  | inl e =>
      app' = app /\ trace w' = trace w
      /\ (exists code msg, e = HTTPException code msg)
      /\ ((ApiUtils.validate_document env settings file = inl e
           /\ (exists msg, e = HTTPException 400 msg \/ e = HTTPException 413 msg)
           /\ files w' = files w)
          \/ (exists e0,
                (mkdir env (Settings.temp_dir settings) = Some e0
                 \/ exists path, open_for_writing env path = Some e0)
                /\ e = Main.as_http env e0
                /\ files w' = files w)
          \/ (exists path e0 written,
                write_bytes env path (ApiUtils.content file) = Some (e0, written)
                /\ e = Main.as_http env e0
                /\ files w' = <[path := written]> (files w)))
  | inr resp =>
      exists fname record,
        ApiUtils.filename file = Some fname
        /\ ApiUtils.validate_document env settings file = inr (ApiUtils.content file)
        /\ Main.storage_get (Main.job_storage app') (Main.up_job_id resp) = Some record
        /\ Main.job_id record = Main.up_job_id resp
        /\ Main.status record = Main.PENDING
        /\ Main.filename record = fname
        /\ Main.started_at record = None /\ Main.completed_at record = None
        /\ Main.error record = None /\ Main.result record = None
        /\ files w' = <[Main.file_path record := ApiUtils.content file]> (files w)
        /\ trace w' = trace w
        /\ (forall k, k <> Main.up_job_id resp ->
                      Main.storage_get (Main.job_storage app') k
                      = Main.storage_get (Main.job_storage app) k)
        /\ Main.background_tasks app'
           = Main.background_tasks app
             ++ [{| Main.task_job_id := Main.up_job_id resp;
                    Main.task_file_path := Main.file_path record;
                    Main.task_filename := fname |}]
        /\ Main.get_job_status (Main.up_job_id resp) (Main.job_storage app')
           = inr {| Main.st_job_id := Main.up_job_id resp;
                    Main.st_status := Main.PENDING;
                    Main.st_filename := fname;
                    Main.st_created_at := Main.created_at record;
                    Main.st_started_at := None; Main.st_completed_at := None;
                    Main.st_result_available := None; Main.st_error := None |}
  end.
Proof.
  unfold Main.upload_document.
  destruct (ApiUtils.validate_document env settings file) as [e|accepted] eqn:Hval.
  { cbn. destruct (validate_document_raises _ _ _ _ Hval) as [msg [-> | ->]]; cbn;
      split_and!; try done; try (by eexists _, _); left; split_and!; try done;
      eexists; eauto. }
  apply validate_document_returns in Hval as (-> & fname & Hname & _).
  rewrite Hname. unfold ApiUtils.save_temp_file. run_M.
  destruct (mkdir env _) as [e0|] eqn:Hmkdir; cbn.
  { split_and!; try done.
    - destruct e0; cbn; by eexists _, _.
    - right. left. exists e0. split_and!; try done. by left. }
  destruct (open_for_writing env _) as [e0|] eqn:Hopen; cbn.
  { split_and!; try done.
    - destruct e0; cbn; by eexists _, _.
    - right. left. exists e0. split_and!; try done. right. by eexists. }
  destruct (write_bytes env _ _) as [[e0 written]|] eqn:Hwrite; cbn.
  { split_and!; try done.
    - destruct e0; cbn; by eexists _, _.
    - right. right. by eexists _, _, _. }
  rewrite lookup_insert_eq. cbn.
  eexists fname, _. rewrite storage_set_get. cbn.
  split_and!; try done.
  - intros k Hk. by apply storage_set_other.
  - unfold Main.get_job_status. by rewrite storage_set_get.
Qed.

(** ** The queries after a background execution *)

(** X11.  A job on record, executed in the background while no other
    request changes the store, as the two queries then see it.  When the
    pipeline returned a result that has not failed, the result query
    answers with that result (enhanced for the frontend) and the record's
    name, size and creation time, and the status query says COMPLETED with
    a result available.  In every other case -- a failed result, no result,
    an exception -- the result query is refused with a 400 that names the
    state FAILED, and the status query reports FAILED with the error: the
    joined errors of the result, the fixed message of a missing result, or
    the text of the exception.  The one exception is a task cancelled at
    the [await]: then the result query is refused with the 400 that names
    the state PROCESSING, and the status query reports PROCESSING with the
    start time. *)
Theorem queries_after_background env pipeline_process id file_path fname js w r :
  Main.storage_get js id = Some r ->
  let outcome :=
    fst (pipeline_process file_path fname
           {| tick := S (tick w); files := files w; trace := trace w |}) in
  let '(raised, js', w') :=
    Main.process_file_background env pipeline_process (fun js => js)
      id file_path fname js w in
  let status_answer st completed available err :=
    inr {| Main.st_job_id := id; Main.st_status := st;
           Main.st_filename := Main.filename r;
           Main.st_created_at := Main.created_at r;
           Main.st_started_at := None; Main.st_completed_at := Some completed;
           Main.st_result_available := available; Main.st_error := err |} in
  let refused :=
    inl (HTTPException 400
           "El trabajo está en estado 'FAILED'. Solo trabajos COMPLETED tienen resultados.") in
  let failed_with msg :=
    Main.get_job_result id js' = refused
    /\ exists c, Main.get_job_status id js'
                 = status_answer Main.FAILED c None (Some msg) in
  match outcome with
  | inr (Some result) =>
      if Main.result_failed result
      then failed_with (Main.failure_message result)
      else
        exists c,
          Main.get_job_result id js'
          = inr {| Main.rr_result := Main.enhance env result;
                   Main.rr_job_metadata :=
                     {| Main.jm_job_id := id; Main.jm_filename := Main.filename r;
                        Main.jm_file_size_mb := Main.file_size_mb r;
                        Main.jm_created_at := Main.created_at r;
                        Main.jm_completed_at := c |} |}
          /\ Main.get_job_status id js'
             = status_answer Main.COMPLETED c (Some true) None
  | inr None => failed_with "Error crítico en pipeline - resultado nulo"
  | inl (OfException e) => failed_with (exn_text env e)
  | inl CancelledError =>
      Main.get_job_result id js'
      = inl (HTTPException 400
               "El trabajo está en estado 'PROCESSING'. Solo trabajos COMPLETED tienen resultados.")
      /\ exists started,
           Main.get_job_status id js'
           = inr {| Main.st_job_id := id; Main.st_status := Main.PROCESSING;
                    Main.st_filename := Main.filename r;
                    Main.st_created_at := Main.created_at r;
                    Main.st_started_at := Some started;
                    Main.st_completed_at := None;
                    Main.st_result_available := None; Main.st_error := None |}
  end.
Proof.
  intros Hjob outcome.
  pose proof (background_outcome env pipeline_process (fun js => js)
                id file_path fname js w) as Hout. cbn zeta in Hout.
  fold outcome in Hout.
  destruct (Main.process_file_background _ _ _ _ _ _ _ _) as [[raised js'] w'].
  intros status_answer refused failed_with.
  destruct Hout as [(-> & Hgone & Hwhere)
                   | [(-> & Hcancel & js1 & now & Hstart & ->)
                     | (-> & js1 & now & f & Hstart & Hend & Hfin)]].
  { exfalso. destruct Hwhere as [-> | (js1 & now & Hstart & -> & _)]; [congruence|].
    apply storage_update_get in Hstart as (r1 & _ & Hjob1). congruence. }
  { rewrite Hcancel.
    apply storage_update_get in Hstart as (r0 & Hjob0 & Hjob1).
    assert (r0 = r) as -> by congruence.
    unfold Main.get_job_result, Main.get_job_status. rewrite Hjob1. cbn.
    split; [done|]. by eexists. }
  apply storage_update_get in Hstart as (r0 & Hjob0 & Hjob1).
  apply storage_update_get in Hend as (r1 & Hjob1' & Hjob').
  assert (r0 = r) as -> by congruence.
  assert (r1 = Main.mark_processing now r) as -> by congruence.
  subst failed_with refused status_answer.
  unfold Main.get_job_result, Main.get_job_status. rewrite Hjob'.
  inversion Hfin as [e now' He | now' He | result now' He Hf | result now' He Hf];
    rewrite He; try rewrite Hf; cbn; try (split; [done|]); by eexists.
Qed.

Lemma queries_after_background_witness :
  let '(raised, js', w') := Scenario.run "  " "{}" Scenario.settings in
  Main.get_job_result "job-0" js'
  = inl (HTTPException 400
           "El trabajo está en estado 'FAILED'. Solo trabajos COMPLETED tienen resultados.")
  /\ exists c,
       Main.get_job_status "job-0" js'
       = inr {| Main.st_job_id := "job-0"; Main.st_status := Main.FAILED;
                Main.st_filename := "dni.png";
                Main.st_created_at := Main.created_at Scenario.pending_job;
                Main.st_started_at := None; Main.st_completed_at := Some c;
                Main.st_result_available := None;
                Main.st_error
                := Some "[12:00:08] No se detectó texto en la imagen" |}.
Proof.
  unfold Scenario.run.
  pose proof (queries_after_background (Scenario.env "  " "{}")
                (Main.pipeline (Scenario.env "  " "{}") Scenario.settings)
                "job-0" Scenario.upload_path "dni.png"
                Scenario.storage Scenario.world Scenario.pending_job eq_refl) as H.
  cbn zeta in H.
  destruct (Main.process_file_background _ _ _ _ _ _ _ _) as [[raised js'] w'].
  exact H.
Defined.

(** ** Deletion *)

(** X12.  Deleting a job from a store that holds each job id once.  An
    unknown id is refused with a 404 and changes nothing.  A known one is
    answered with the job's name and status; its record is gone, every
    other record is unchanged and the others keep their order; and a second
    deletion of the same id is refused with a 404.  The file at the
    record's path, if still there, is removed and no other file is -- unless
    [os.unlink] fails: the failure is swallowed, the answer is the same and
    the files are unchanged. *)
Theorem delete_job_removes_one_record env id js w :
  JobStore.unique_keys js ->
  let '(out, js', w') := Main.delete_job env id js w in
  JobStore.unique_keys js'
  /\ Main.storage_get js' id = None
  /\ (forall k, k <> id -> Main.storage_get js' k = Main.storage_get js k)
  /\ fst (fst (Main.delete_job env id js' w'))
     = inl (HTTPException 404 "Job ID no encontrado")
  /\ match Main.storage_get js id with
     | None =>
         out = inl (HTTPException 404 "Job ID no encontrado") /\ js' = js /\ w' = w
     | Some r =>
         out = inr {| Main.del_message := "Job " +:+ id +:+ " eliminado exitosamente";
                      Main.del_job_id := id; Main.del_filename := Main.filename r;
                      Main.del_status := Main.status r |}
         /\ map fst js' = List.filter (fun k => negb (String.eqb id k)) (map fst js)
         /\ match os_unlink_error env (Main.file_path r) with
            | None => files w' = delete (Main.file_path r) (files w)
            | Some _ => files w' = files w
            end
     end.
Proof.
  intros Huniq. unfold Main.delete_job at 1.
  destruct (Main.storage_get js id) as [r|] eqn:Hjob.
  - run_M.
    assert (Main.storage_get (Main.storage_pop id js) id = None) as Hgone
      by by apply storage_pop_gone.
    assert (map fst (Main.storage_pop id js)
            = List.filter (fun k => negb (String.eqb id k)) (map fst js)) as Hkeys.
    { clear Hjob Hgone. unfold JobStore.unique_keys in Huniq.
      induction js as [|[k r0] js IH]; cbn; [done|].
      apply NoDup_cons in Huniq as [Hk Huniq].
      destruct (String.eqb id k) eqn:Hid; cbn.
      - apply String.eqb_eq in Hid as <-.
        symmetry. apply forallb_filter_id. apply forallb_forall.
        intros k Hin. apply negb_true_iff, String.eqb_neq. intros <-.
        by apply Hk, list_elem_of_In.
      - by rewrite IH. }
    destruct (files w !! Main.file_path r) eqn:Hfile; cbn.
    all: destruct (os_unlink_error env (Main.file_path r)); cbn.
    all: split_and!; try done.
    all: try by apply storage_pop_unique.
    all: try (intros k Hk; by apply storage_pop_other).
    all: try (unfold Main.delete_job; by rewrite Hgone).
    by rewrite delete_id.
  - cbn. split_and!; try done.
    unfold Main.delete_job. by rewrite Hjob.
Qed.

Lemma delete_job_removes_one_record_witness :
  let '(out, js', w') :=
    Main.delete_job (Scenario.env "" "") "job-0" Scenario.storage Scenario.world in
  Main.storage_get js' "job-0" = None
  /\ files w' = delete Scenario.upload_path (files Scenario.world).
Proof.
  pose proof (delete_job_removes_one_record (Scenario.env "" "") "job-0"
                Scenario.storage Scenario.world) as H.
  destruct (Main.delete_job _ _ _ _) as [[out js'] w'].
  destruct H as (_ & Hgone & _ & _ & Hcase).
  - unfold JobStore.unique_keys. cbn. apply NoDup_cons. split; [|constructor].
    apply not_elem_of_nil.
  - split; [done|]. cbn in Hcase. by destruct Hcase as (_ & _ & ->).
Defined.

(** X13.  A job deleted while its pipeline call is awaited: whether that
    call returns or raises an exception, the background task ends with the
    [KeyError] of the job id (raised by the update of the record, in the
    body or in the exception handler); when the task is cancelled there, it
    ends with the cancellation.  Either way the record is not brought back
    and every other record is unchanged; and unless [os.unlink] fails, no
    file is left at the path of the upload. *)
Theorem delete_during_processing env pipeline_process id file_path fname js w r :
  JobStore.unique_keys js ->
  Main.storage_get js id = Some r ->
  let outcome :=
    fst (pipeline_process file_path fname
           {| tick := S (tick w); files := files w; trace := trace w |}) in
  let '(raised, js', w') :=
    Main.process_file_background env pipeline_process (Main.storage_pop id)
      id file_path fname js w in
  raised = match outcome with
           | inl CancelledError => Some CancelledError
           | _ => Some (OfException (KeyError id))
           end
  /\ Main.storage_get js' id = None
  /\ (forall k, k <> id -> Main.storage_get js' k = Main.storage_get js k)
  /\ (os_unlink_error env file_path = None -> files w' !! file_path = None).
Proof.
  intros Huniq Hjob outcome.
  pose proof (background_outcome env pipeline_process (Main.storage_pop id)
                id file_path fname js w) as Hout. cbn zeta in Hout.
  fold outcome in Hout.
  pose proof (background_removes_file env pipeline_process (Main.storage_pop id)
                id file_path fname js w) as Hfile.
  destruct (Main.process_file_background _ _ _ _ _ _ _ _) as [[raised js'] w'].
  assert (forall js1 now,
            Main.storage_update id (Main.mark_processing now) js = Some js1 ->
            Main.storage_get (Main.storage_pop id js1) id = None) as Hpopped.
  { intros js1 now Hstart. apply storage_pop_gone.
    unfold JobStore.unique_keys. by rewrite (storage_update_keys _ _ _ _ Hstart). }
  destruct Hout as [(-> & Hgone & Hwhere)
                   | [(-> & Hcancel & js1 & now & Hstart & ->)
                     | (_ & js1 & now & f & Hstart & Hend & _)]].
  - destruct Hwhere as [-> | (js1 & now & Hstart & -> & Hnot)]; [congruence|].
    split_and!; [| done | | done].
    + destruct outcome as [[e|]|res]; done.
    + intros k Hk. rewrite storage_pop_other by done.
      by apply (storage_update_other _ _ _ _ k Hstart).
  - rewrite Hcancel. split_and!; [done | by eapply Hpopped | | done].
    intros k Hk. rewrite storage_pop_other by done.
    by apply (storage_update_other _ _ _ _ k Hstart).
  - exfalso. apply storage_update_get in Hend as (r1 & Hr1 & _).
    by rewrite (Hpopped _ _ Hstart) in Hr1.
Qed.

Lemma delete_during_processing_witness :
  let '(raised, js', w') :=
    Main.process_file_background (Scenario.env "  " "{}")
      (Main.pipeline (Scenario.env "  " "{}") Scenario.settings)
      (Main.storage_pop "job-0") "job-0" Scenario.upload_path "dni.png"
      Scenario.storage Scenario.world in
  raised = Some (OfException (KeyError "job-0"))
  /\ Main.storage_get js' "job-0" = None.
Proof.
  pose proof (delete_during_processing (Scenario.env "  " "{}")
                (Main.pipeline (Scenario.env "  " "{}") Scenario.settings)
                "job-0" Scenario.upload_path "dni.png"
                Scenario.storage Scenario.world Scenario.pending_job) as H.
  destruct (pipeline_returns (Scenario.env "  " "{}") Scenario.settings
              Scenario.upload_path "dni.png"
              {| tick := S (tick Scenario.world); files := files Scenario.world;
                 trace := trace Scenario.world |}) as [res Hres].
  cbn zeta in H. rewrite Hres in H.
  destruct (Main.process_file_background _ _ _ _ _ _ _ _) as [[raised js'] w'].
  destruct H as (Hraised & Hgone & _).
  - unfold JobStore.unique_keys. cbn. apply NoDup_cons. split; [|constructor].
    apply not_elem_of_nil.
  - reflexivity.
  - by split.
Defined.

(** ** The listing *)

Lemma leb_trans (a b c : string) :
  String.leb a b = true -> String.leb b c = true -> String.leb a c = true.
Proof.
  unfold String.leb.
  destruct (String.compare a b) eqn:Hab; [| |done]; intros _.
  - by apply String.compare_eq_iff in Hab as ->.
  - destruct (String.compare b c) eqn:Hbc; [| |done]; intros _.
    + apply String.compare_eq_iff in Hbc as <-. by rewrite Hab.
    + apply OrderedTypeEx.String_as_OT.cmp_lt in Hab, Hbc.
      pose proof (OrderedTypeEx.String_as_OT.lt_trans _ _ _ Hab Hbc) as Hac.
      apply OrderedTypeEx.String_as_OT.cmp_lt in Hac.
      unfold OrderedTypeEx.String_as_OT.cmp in Hac. by rewrite Hac.
Qed.

Lemma insert_by_created_at_perm j l :
  Permutation (Main.insert_by_created_at j l) (j :: l).
Proof.
  induction l as [|x l IH]; cbn; [done|].
  destruct (String.leb _ _); [done|].
  rewrite IH. apply perm_swap.
Qed.

Lemma sort_newest_first_perm l : Permutation (Main.sort_newest_first l) l.
Proof.
  induction l as [|x l IH]; cbn; [done|].
  rewrite insert_by_created_at_perm. by constructor.
Qed.

Lemma insert_by_created_at_sorted j l :
  JobStore.newest_first (map Main.created_at l) ->
  JobStore.newest_first (map Main.created_at (Main.insert_by_created_at j l)).
Proof.
  induction l as [|x l IH]; cbn; [by split|].
  intros [Hall Hsorted].
  destruct (String.leb (Main.created_at x) (Main.created_at j)) eqn:Hle; cbn.
  - split; [|done]. constructor; [done|].
    eapply Forall_impl; [exact Hall|]. cbn. intros t Ht. by eapply leb_trans.
  - split; [|by apply IH].
    eapply Permutation_Forall.
    { apply Permutation_map. symmetry. apply insert_by_created_at_perm. }
    cbn. constructor; [|done].
    destruct (String.leb_total (Main.created_at x) (Main.created_at j)); congruence.
Qed.

Lemma sort_newest_first_sorted l :
  JobStore.newest_first (map Main.created_at (Main.sort_newest_first l)).
Proof.
  induction l as [|x l IH]; cbn; [done|]. by apply insert_by_created_at_sorted.
Qed.

Lemma simplify_jobs_entries l out :
  Main.simplify_jobs l = inr out ->
  Forall2 (fun j r =>
             Main.lj_job_id j = Main.job_id r /\ Main.lj_status j = Main.status r
             /\ Main.lj_filename j = Main.filename r
             /\ Main.lj_created_at j = Main.created_at r
             /\ Main.lj_completed_at j
                = match Main.status r with
                   | Main.COMPLETED => Main.completed_at r
                   | _ => None
                   end
             /\ Main.lj_error j
                = match Main.status r with
                   | Main.FAILED => Some (default "Unknown error" (Main.error r))
                   | _ => None
                   end)
          out l.
Proof.
  revert out. induction l as [|r l IH]; intros out; cbn.
  - intros [= <-]. constructor.
  - destruct (Main.simplify_job r) as [e|s] eqn:Hs; [done|].
    destruct (Main.simplify_jobs l) as [e|ss]; [done|].
    intros [= <-]. constructor; [|by apply IH].
    unfold Main.simplify_job in Hs.
    destruct (Main.status r) eqn:Hst; cbn in Hs.
    3: destruct (Main.completed_at r) eqn:Hc; cbn in Hs; [|done].
    all: injection Hs as <-; cbn; by rewrite ?Hst.
Qed.

Lemma simplify_jobs_raises l e :
  Main.simplify_jobs l = inl e ->
  e = KeyError "completed_at"
  /\ exists r, In r l /\ Main.status r = Main.COMPLETED /\ Main.completed_at r = None.
Proof.
  induction l as [|r l IH]; cbn; [done|].
  destruct (Main.simplify_job r) as [e'|s] eqn:Hs.
  - intros [= <-]. unfold Main.simplify_job in Hs.
    destruct (Main.status r) eqn:Hst; cbn in Hs; try done.
    destruct (Main.completed_at r) eqn:Hc; cbn in Hs; [done|].
    injection Hs as <-. split; [done|]. exists r. auto.
  - destruct (Main.simplify_jobs l) as [e'|ss]; [|done].
    intros [= <-]. destruct (IH eq_refl) as (-> & r' & Hin & Hr').
    split; [done|]. exists r'. auto.
Qed.

Lemma slice_to_split {A} limit (l : list A) :
  exists rest,
    l = Main.slice_to limit l ++ rest
    /\ length (Main.slice_to limit l)
       = if (0 <=? limit)%Z then Nat.min (Z.to_nat limit) (length l)
         else (length l - Z.to_nat (- limit))%nat.
Proof.
  unfold Main.slice_to. destruct (0 <=? limit)%Z.
  - exists (drop (Z.to_nat limit) l). split; [by rewrite take_drop|].
    rewrite length_take. lia.
  - exists (drop (length l - Z.to_nat (- limit)) l). split; [by rewrite take_drop|].
    rewrite length_take. lia.
Qed.

(** X14.  The listing.  [list_jobs] raises only the [KeyError] of a
    COMPLETED record without completion time.  Otherwise [total_jobs]
    counts every record of the store, whatever the limit, and the entries
    are those of the first records of the store sorted by creation time,
    newest first: the records split into the listed ones and the rest, no
    record of the rest is newer than a listed one, the listed ones come
    newest first, and each entry copies job id, status, name and creation
    time of its record, the completion time only when COMPLETED and the
    error only when FAILED.  A non-negative limit lists at most that many
    jobs; a negative limit [-n] does not list nothing: it drops the [n]
    oldest jobs. *)
Theorem list_jobs_newest_first limit js :
  match Main.list_jobs limit js with
  | inl e =>
      e = KeyError "completed_at"
      /\ exists r, In r (map snd js)
                   /\ Main.status r = Main.COMPLETED /\ Main.completed_at r = None
  | inr resp =>
      Main.total_jobs resp = length js
      /\ length (Main.jobs resp)
         = (if (0 <=? limit)%Z then Nat.min (Z.to_nat limit) (length js)
            else (length js - Z.to_nat (- limit))%nat)
      /\ exists listed rest,
           Permutation (map snd js) (listed ++ rest)
           /\ JobStore.newest_first (map Main.created_at (listed ++ rest))
           /\ Forall2 (fun j r =>
                         Main.lj_job_id j = Main.job_id r
                         /\ Main.lj_status j = Main.status r
                         /\ Main.lj_filename j = Main.filename r
                         /\ Main.lj_created_at j = Main.created_at r
                         /\ Main.lj_completed_at j
                            = match Main.status r with
                   | Main.COMPLETED => Main.completed_at r
                   | _ => None
                   end
                         /\ Main.lj_error j
                            = match Main.status r with
                   | Main.FAILED => Some (default "Unknown error" (Main.error r))
                   | _ => None
                   end)
                      (Main.jobs resp) listed
  end.
Proof.
  unfold Main.list_jobs.
  destruct (slice_to_split limit (Main.sort_newest_first (map snd js)))
    as (rest & Hsplit & Hlen).
  pose proof (sort_newest_first_perm (map snd js)) as Hperm.
  pose proof (sort_newest_first_sorted (map snd js)) as Hsorted.
  destruct (Main.simplify_jobs _) as [e|out] eqn:Hs.
  - apply simplify_jobs_raises in Hs as (-> & r & Hin & Hr).
    split; [done|]. exists r. split; [|done].
    apply (Permutation_in r Hperm). rewrite Hsplit. apply in_or_app. by left.
  - apply simplify_jobs_entries in Hs. cbn.
    split; [done|]. split.
    + rewrite (Forall2_length _ _ _ Hs), Hlen.
      by rewrite (Permutation_length Hperm), length_map.
    + exists (Main.slice_to limit (Main.sort_newest_first (map snd js))), rest.
      rewrite <- Hsplit. by split_and!.
Qed.

(** ** Validation of a submission *)

Lemma valid_content_nonempty content fl :
  ApiUtils._is_valid_image_content content fl = true -> (2 <= length content)%nat.
Proof.
  unfold ApiUtils._is_valid_image_content.
  destruct content as [|b content]; [done|].
  destruct (Py.contains_char "." fl); [|done].
  destruct (ApiUtils.dict_get _ _) as [magics|] eqn:Hget; [|done].
  intros Hany. apply existsb_exists in Hany as (magic & Hin & Hstarts).
  apply bytes_starts_inv in Hstarts as [rest Hrest].
  apply (f_equal (@length byte)) in Hrest. rewrite length_app in Hrest.
  assert (2 <= length magic)%nat; [|lia].
  clear Hrest. unfold ApiUtils.magic_bytes in Hget. cbn in Hget.
  repeat match type of Hget with
         | (if ?c then _ else _) = _ =>
             destruct c;
             [injection Hget as <-; cbn in Hin;
              repeat (destruct Hin as [<- | Hin]; [cbn; lia|]); destruct Hin|]
         end.
  done.
Qed.

(** X15.  The verdict of [validate_document], test by test.  A payload is
    returned unchanged, and only if the upload has a non-empty name, holds
    at least two bytes and at most [max_image_size_mb] times 1048576 (that
    many exactly are accepted).  Every rejection is an [HTTPException]: the
    400 of a missing or empty name; the 400 listing the six formats, for a
    name without a supported extension; then 413 for a payload over the
    ceiling, whatever its bytes; and only then the 400 of a payload that is
    not an image, which every empty payload within the ceiling gets. *)
Theorem validate_document_verdict env settings file :
  let ceiling := (Settings.max_image_size_mb settings * (1024 * 1024))%Z in
  let size := Z.of_nat (length (ApiUtils.content file)) in
  let supported fname :=
    existsb (Py.endswith (Py.lower fname)) ApiUtils.image_extensions in
  match ApiUtils.validate_document env settings file with
  | inr accepted =>
      accepted = ApiUtils.content file
      /\ (2 <= size <= ceiling)%Z
      /\ exists fname,
           ApiUtils.filename file = Some fname /\ fname <> ""
           /\ supported fname = true
  | inl e =>
      match ApiUtils.filename file with
      | None => e = HTTPException 400 "El archivo debe tener un nombre"
      | Some fname =>
          if String.eqb fname ""
          then e = HTTPException 400 "El archivo debe tener un nombre"
          else if negb (supported fname)
          then e = HTTPException 400
                     "Solo se aceptan imágenes. Formatos permitidos: .jpg, .jpeg, .png, .tiff, .tif, .bmp"
          else if (ceiling <? size)%Z
          then exists msg, e = HTTPException 413 msg
          else e = HTTPException 400 "El archivo no es una imagen válida"
               /\ (size = 0%Z
                   \/ ApiUtils._is_valid_image_content (ApiUtils.content file)
                        (Py.lower fname) = false)
      end
  end.
Proof.
  intros ceiling size supported. subst ceiling size supported.
  unfold ApiUtils.validate_document.
  destruct (ApiUtils.filename file) as [fname|]; [|done].
  destruct (String.eqb fname "") eqn:Hname.
  { apply String.eqb_eq in Hname as ->. done. }
  assert (Py.truthy fname = true) as ->.
  { apply truthy_true. by apply String.eqb_neq. }
  cbn [negb].
  destruct (existsb _ ApiUtils.image_extensions) eqn:Hext; cbn [negb]; [|done].
  destruct (Qle_bool _ _) eqn:Hsize; cbn [negb].
  - apply size_test_ok in Hsize.
    destruct (ApiUtils._is_valid_image_content _ _) eqn:Hvalid; cbn [negb].
    + apply valid_content_nonempty in Hvalid.
      split; [done|]. split; [lia|]. exists fname. split_and!; try done.
      by apply String.eqb_neq.
    + destruct (Z.ltb_spec (Settings.max_image_size_mb settings * (1024 * 1024))
                  (Z.of_nat (length (ApiUtils.content file)))); [lia|].
      split; [done|]. by right.
  - destruct (Z.ltb_spec (Settings.max_image_size_mb settings * (1024 * 1024))
                (Z.of_nat (length (ApiUtils.content file)))) as [Hlt|Hge].
    + by eexists.
    + apply size_test_ok in Hge. congruence.
Qed.

(** ** From the submission to the first stage *)

Lemma last_segment_app_r sep pre rest :
  existsb (Ascii.eqb sep) rest = false ->
  existsb (Ascii.eqb sep) pre = true ->
  Py.last_segment sep (pre ++ rest) = Py.last_segment sep pre ++ rest.
Proof.
  intros Hrest. induction pre as [|a pre IH]; cbn; [done|].
  rewrite existsb_app, Hrest, orb_false_r.
  destruct (existsb (Ascii.eqb sep) pre); [intros _; by apply IH|].
  rewrite orb_false_r. by intros ->.
Qed.

Lemma dot_lower_char a : Ascii.eqb "." (Py.lower_char a) = Ascii.eqb "." a.
Proof. destruct a as [[] [] [] [] [] [] [] []]; reflexivity. Qed.

Lemma rfind_lower l : Path.rfind "." (map Py.lower_char l) = Path.rfind "." l.
Proof.
  induction l as [|a l IH]; [done|].
  cbn [Path.rfind map]. by rewrite IH, dot_lower_char.
Qed.

Lemma rfind_app c l r i :
  Path.rfind c r = Some i -> Path.rfind c (l ++ r) = Some (length l + i)%nat.
Proof.
  intros Hr. induction l as [|a l IH]; cbn; [done|]. by rewrite IH.
Qed.

(** The path under which [save_temp_file] stores an upload whose name has
    a supported extension and no directory part is one that
    [is_image_file] accepts. *)
Lemma saved_upload_is_image dir hex fname :
  existsb (Py.endswith (Py.lower fname)) ApiUtils.image_extensions = true ->
  Py.contains_char "/" fname = false ->
  ImageUtils.is_image_file (Path.join dir ("upload_" +:+ hex +:+ "_" +:+ fname)) = true.
Proof.
  intros Hext Hplain. apply existsb_exists in Hext as (ext & Hin & Hend).
  apply endswith_inv in Hend as [x Hx].
  unfold Py.lower in Hx. rewrite chars_str in Hx.
  apply List.map_eq_app in Hx as (fx & fe & Hfname & _ & Hfe).
  unfold Py.contains_char in Hplain. rewrite Hfname in Hplain.
  unfold ImageUtils.is_image_file, Path.suffix, Path.name, Path.join, Py.split_last.
  rewrite !chars_append, Hfname. rewrite chars_str.
  change (Py.chars "/") with ["/"%char]. change (Py.chars "_") with ["_"%char].
  replace (Py.chars dir ++ ["/"%char] ++ Py.chars "upload_" ++ Py.chars hex
           ++ ["_"%char] ++ fx ++ fe)
    with ((Py.chars dir ++ "/"%char :: Py.chars "upload_" ++ Py.chars hex)
          ++ ("_"%char :: fx ++ fe))
    by (by rewrite <- !app_assoc).
  rewrite last_segment_app_r; [|done|apply contains_char_app].
  set (seg := Py.last_segment "/" _).
  replace (seg ++ "_"%char :: fx ++ fe) with ((seg ++ "_"%char :: fx) ++ fe)
    by (by rewrite <- app_assoc).
  assert (Path.rfind "." fe = Some 0%nat /\ (2 <= length fe)%nat) as [Hdot Hlen].
  { rewrite <- rfind_lower, <- (length_map Py.lower_char), Hfe.
    cbn in Hin.
    repeat (destruct Hin as [<- | Hin]; [split; [reflexivity | cbn; lia]|]).
    destruct Hin. }
  rewrite (rfind_app _ _ _ _ Hdot). rewrite Nat.add_0_r.
  assert ((0 <? length (seg ++ "_"%char :: fx))%nat
          && (length (seg ++ "_"%char :: fx)
              <? length ((seg ++ "_"%char :: fx) ++ fe) - 1)%nat = true) as ->.
  { apply andb_true_iff. split; apply Nat.ltb_lt; rewrite ?length_app; cbn; lia. }
  rewrite drop_app_length.
  unfold Py.lower. rewrite chars_str, Hfe, str_chars.
  cbn in Hin.
  repeat (destruct Hin as [<- | Hin]; [reflexivity|]). destruct Hin.
Qed.

(** Stage A on a readable image with the collaborators available: the OCR
    collaborator is called, once, on the bytes of the file. *)
Lemma stage_a_reaches_ocr env settings st w credentials image :
  VISION_AVAILABLE env = true ->
  GOOGLE_APPLICATION_CREDENTIALS env = Some credentials ->
  Py.truthy credentials = true ->
  PIL_AVAILABLE env = true ->
  files w !! DocumentInfo.file_path (PipelineState.document_info st) = Some image ->
  ImageUtils.is_image_file
    (DocumentInfo.file_path (PipelineState.document_info st)) = true ->
  Qle_bool (ApiUtils.size_mb (length image))
    (inject_Z (Settings.max_image_size_mb settings)) = true ->
  trace (snd (ImageProcessing.image_processing_node env settings st w))
  = trace w ++ [EvOcr image].
Proof.
  intros Hvision Hcred Hcred_set Hpil Hfile Himage Hsize.
  pose proof (vision_validated env credentials Hvision Hcred Hcred_set).
  pose proof (pillow_validated env Hpil).
  pose proof (vision_ensured env Hvision).
  unfold_stage_a. run_M.
  repeat (case_step; simplify_eq); try congruence; done.
Qed.

(** X16.  The two validations agree.  When a submission whose name has no
    directory part is accepted, the task it schedules names a file that
    Stage A accepts: with the collaborators available, Stage A on the
    initial state of that task -- in any world that still has the files the
    submission left -- reports neither a missing file, nor an unsupported
    format, nor an oversized image, and calls the OCR collaborator on
    exactly the bytes that were uploaded. *)
Theorem accepted_upload_reaches_ocr env settings file app w resp app' w1
    credentials fname :
  Main.upload_document env settings file app w = (inr resp, app', w1) ->
  ApiUtils.filename file = Some fname ->
  Py.contains_char "/" fname = false ->
  VISION_AVAILABLE env = true ->
  GOOGLE_APPLICATION_CREDENTIALS env = Some credentials ->
  Py.truthy credentials = true ->
  PIL_AVAILABLE env = true ->
  exists task,
    Main.background_tasks app' = Main.background_tasks app ++ [task]
    /\ Main.task_job_id task = Main.up_job_id resp
    /\ files w1 !! Main.task_file_path task = Some (ApiUtils.content file)
    /\ ImageUtils.is_image_file (Main.task_file_path task) = true
    /\ forall w2,
         files w2 = files w1 ->
         let st :=
           Pipeline.create_initial_state (Main.task_file_path task)
             (Main.task_filename task) in
         trace (snd (ImageProcessing.image_processing_node env settings st w2))
         = trace w2 ++ [EvOcr (ApiUtils.content file)].
Proof.
  intros Hup Hname Hplain Hvision Hcred Hcred_set Hpil.
  unfold Main.upload_document in Hup.
  destruct (ApiUtils.validate_document env settings file) as [e|accepted] eqn:Hval.
  { cbn in Hup. by injection Hup. }
  apply validate_document_returns in Hval as (-> & fname' & Hname' & Hext & Hsize).
  assert (fname' = fname) as -> by congruence.
  rewrite Hname in Hup. unfold ApiUtils.save_temp_file in Hup.
  revert Hup. run_M.
  destruct (mkdir env _) as [e0|] eqn:Hmkdir; cbn; [by intros [=]|].
  destruct (open_for_writing env _) as [e0|] eqn:Hopen; cbn; [by intros [=]|].
  destruct (write_bytes env _ _) as [[e0 written]|] eqn:Hwrite; cbn;
    [by intros [=]|].
  rewrite lookup_insert_eq. cbn. intros [= <- <- <-]. cbn.
  eexists. split; [done|]. cbn.
  pose proof (saved_upload_is_image (Settings.temp_dir settings)
                (uuid4_hex env (S (tick w))) fname Hext Hplain) as Himage.
  split_and!; try done.
  - by rewrite lookup_insert_eq.
  - intros w2 Hfiles.
    apply (stage_a_reaches_ocr env settings _ w2 credentials); try done.
    cbn. rewrite Hfiles. cbn. by rewrite lookup_insert_eq.
Qed.

Lemma accepted_upload_reaches_ocr_witness :
  let env := Scenario.env "JUAN" "{}" in
  let file := {| ApiUtils.filename := Some "dni.png";
                 ApiUtils.content := Scenario.png_bytes |} in
  let w := {| tick := 0; files := ∅; trace := [] |} in
  let '(out, app', w1) :=
    Main.upload_document env Scenario.settings file
      {| Main.job_storage := []; Main.background_tasks := [] |} w in
  exists task,
    Main.background_tasks app' = [task]
    /\ files w1 !! Main.task_file_path task = Some Scenario.png_bytes
    /\ trace (snd (ImageProcessing.image_processing_node env Scenario.settings
                     (Pipeline.create_initial_state (Main.task_file_path task)
                        (Main.task_filename task)) w1))
       = trace w1 ++ [EvOcr Scenario.png_bytes].
Proof.
  intros env file w.
  destruct (Main.upload_document _ _ _ _ _) as [[[e|resp] app'] w1] eqn:Hup.
  { vm_compute in Hup. discriminate. }
  destruct (accepted_upload_reaches_ocr env Scenario.settings file _ w resp app' w1
              "/tmp/credentials.json" "dni.png" Hup eq_refl eq_refl eq_refl eq_refl
              eq_refl eq_refl) as (task & Htasks & _ & Hfile & _ & Hocr).
  exists task. split_and!; [done | done |]. by apply Hocr.
Defined.

(** ** The completeness score *)

Lemma filter_length_le {A} (f : A -> bool) (l : list A) :
  (length (List.filter f l) <= length l)%nat.
Proof. induction l as [|a l IH]; cbn; [lia|]. destruct (f a); cbn; lia. Qed.

Lemma filter_length_full {A} (f : A -> bool) (l : list A) :
  length (List.filter f l) = length l <-> forallb f l = true.
Proof.
  induction l as [|a l IH]; cbn; [done|].
  pose proof (filter_length_le f l). destruct (f a); cbn.
  - rewrite <- IH. lia.
  - split; [lia | done].
Qed.

Lemma filter_length_none {A} (f : A -> bool) (l : list A) :
  length (List.filter f l) = 0%nat <-> existsb f l = false.
Proof.
  induction l as [|a l IH]; cbn; [done|].
  destruct (f a); cbn; [split; [lia | done]|]. exact IH.
Qed.

Lemma percentage_bounds_Z (k n : Z) :
  (0 <= k <= n)%Z -> (0 < n)%Z ->
  let score := (inject_Z k / inject_Z n * 100)%Q in
  (0 <= score)%Q /\ (score <= 100)%Q
  /\ (score == 0 <-> k = 0%Z)%Q /\ (score == 100 <-> k = n)%Q.
Proof.
  intros Hk Hn score. subst score.
  destruct n as [|p|p]; [lia| |lia].
  unfold Qdiv, Qinv, Qmult, Qle, Qeq, inject_Z. cbn.
  rewrite ?Pos.mul_1_r. nia.
Qed.

Lemma percentage_bounds (k n : nat) :
  (k <= n)%nat -> (0 < n)%nat ->
  let score := (inject_Z (Z.of_nat k) / inject_Z (Z.of_nat n) * 100)%Q in
  (0 <= score)%Q /\ (score <= 100)%Q
  /\ (score == 0 <-> k = 0%nat)%Q /\ (score == 100 <-> k = n)%Q.
Proof.
  intros Hk Hn.
  destruct (percentage_bounds_Z (Z.of_nat k) (Z.of_nat n)) as (H0 & H100 & Hz & Hf);
    [lia | lia |].
  cbn zeta. split_and!; try done.
  - rewrite Hz. lia.
  - rewrite Hf. lia.
Qed.

(** X17.  The completeness score of a state lies between 0 and 100.  It is
    0 exactly when no extracted field is filled -- in particular when
    nothing was extracted -- and 100 exactly when something was extracted
    and every field is filled; a field is filled unless its value is null
    or a blank string. *)
Theorem completeness_score_bounds (self : PipelineState.t) :
  let values := map snd (map_to_list (PipelineState.extracted_data self)) in
  let score := Completeness.completeness_score self in
  (0 <= score)%Q /\ (score <= 100)%Q
  /\ (score == 0 <-> existsb Completeness.is_filled values = false)%Q
  /\ (score == 100 <-> values <> [] /\ forallb Completeness.is_filled values = true)%Q.
Proof.
  intros values score. subst score. unfold Completeness.completeness_score.
  fold values. clearbody values. destruct values as [|v l].
  { split_and!; try done. split; [done | by intros [? _]]. }
  set (values := v :: l).
  assert (0 < length values)%nat as Hn by (cbn; lia).
  destruct (percentage_bounds _ _ (filter_length_le Completeness.is_filled values) Hn)
    as (H0 & H100 & Hzero & Hfull).
  split_and!; try done.
  - by rewrite Hzero, filter_length_none.
  - rewrite Hfull, filter_length_full. split; [done | by intros [_ ?]].
Qed.

(** ** The OCR functions that return confidences *)

Lemma count_words_counts threshold ws total low high :
  let '(total', low', high') :=
    OcrCompat.count_words threshold ws (total, low, high) in
  (total' = total + length ws)%nat
  /\ (low <= low')%nat /\ (high <= high')%nat
  /\ ((low' - low) + (high' - high) <= length ws)%nat.
Proof.
  revert total low high. induction ws as [|c ws IH]; intros total low high; cbn.
  - lia.
  - destruct (negb (Qle_bool threshold c)); [|destruct (Qle_bool 80 c)].
    + specialize (IH (S total) (S low) high).
      destruct (OcrCompat.count_words _ _ _) as [[t l] h]. lia.
    + specialize (IH (S total) low (S high)).
      destruct (OcrCompat.count_words _ _ _) as [[t l] h]. lia.
    + specialize (IH (S total) low high).
      destruct (OcrCompat.count_words _ _ _) as [[t l] h]. lia.
Qed.

Lemma sum_bounds (l : list Q) (b : Q) :
  Forall (fun c => 0 <= c /\ c <= b)%Q l ->
  (0 <= fold_right Qplus 0 l)%Q
  /\ (fold_right Qplus 0 l <= b * inject_Z (Z.of_nat (length l)))%Q.
Proof.
  induction 1 as [|c l [Hc0 Hcb] _ [IH0 IHb]].
  - cbn. split; [apply Qle_refl|]. rewrite Qmult_0_r. apply Qle_refl.
  - cbn [fold_right length]. split.
    + exact (Qplus_le_compat _ _ _ _ Hc0 IH0).
    + rewrite Nat2Z.inj_succ, <- Z.add_1_r, inject_Z_plus.
      rewrite Qmult_plus_distr_r, Qmult_1_r, Qplus_comm.
      by apply Qplus_le_compat.
Qed.

Lemma average_confidence_bounds (words : list Q) :
  Forall (fun c => 0 <= c /\ c <= 1)%Q words ->
  (0 <= OcrUtils.average_confidence words)%Q
  /\ (OcrUtils.average_confidence words <= 100)%Q.
Proof.
  intros Hwords. unfold OcrUtils.average_confidence.
  assert (Forall (fun c => 0 <= c /\ c <= 100)%Q (map (fun c => c * 100)%Q words))
    as Hpercent.
  { apply Forall_map. eapply Forall_impl; [exact Hwords|]. cbn. intros c [H0 H1]. split.
    - rewrite <- (Qmult_0_l 100). by apply Qmult_le_compat_r.
    - rewrite <- (Qmult_1_l 100) at 2. by apply Qmult_le_compat_r. }
  destruct (map (fun c => c * 100)%Q words) as [|c l]; [done|].
  apply sum_bounds in Hpercent as [H0 H100].
  assert (0 < inject_Z (Z.of_nat (length (c :: l))))%Q as Hn.
  { unfold Qlt. cbn. lia. }
  split.
  - apply Qle_shift_div_l; [done|]. by rewrite Qmult_0_l.
  - by apply Qle_shift_div_r.
Qed.

(** X18.  [extract_text_with_tesseract], outcome by outcome.  The files
    are never changed.  A missing image is reported by the reading error
    itself, before any call; whatever the detection raises is wrapped with
    the prefix of this function, after at most one call.  A result comes
    from exactly one call on the bytes of the image; the confidence
    returned is the mean of the word confidences in percent, between 0 and
    100 when every word confidence lies between 0 and 1; the metrics count
    every word, and the three classes of the distribution are disjoint and
    cover the words: low, medium and high add up to the total and the
    medium count is never negative -- also for a threshold above 80, where
    a word of confidence 80 or more but below the threshold counts as low. *)
Theorem tesseract_metrics env image_path language threshold w :
  let '(out, w') :=
    OcrCompat.extract_text_with_tesseract env image_path language threshold w in
  files w' = files w
  /\ match out with
     | inl e =>
         (files w !! image_path = None
          /\ e = Exception ("Imagen no encontrada: " +:+ image_path)
          /\ trace w' = trace w)
         \/ exists image e0,
              files w !! image_path = Some image
              /\ e = Exception ("Error en Google Vision OCR: " +:+ exn_text env e0)
              /\ (trace w' = trace w \/ trace w' = trace w ++ [EvOcr image])
     | inr (txt, confidence, m) =>
         exists image response,
           files w !! image_path = Some image
           /\ trace w' = trace w ++ [EvOcr image]
           /\ document_text_detection env image = inr response
           /\ error_message response = ""
           /\ let words :=
                match full_text_annotation response with
                | Some annotation => word_confidences annotation
                | None => []
                end in
              confidence = OcrUtils.average_confidence words
              /\ (Forall (fun c => 0 <= c /\ c <= 1)%Q words ->
                  (0 <= confidence)%Q /\ (confidence <= 100)%Q)
              /\ OcrCompat.total_words m = length words
              /\ (0 <= OcrCompat.distribution_medium m)%Z
              /\ (Z.of_nat (OcrCompat.distribution_low m)
                  + OcrCompat.distribution_medium m
                  + Z.of_nat (OcrCompat.distribution_high m)
                  = Z.of_nat (OcrCompat.total_words m))%Z
              /\ OcrCompat.low_confidence_words m
                 = length (List.filter
                             (fun c => negb (Qle_bool threshold (c * 100)))%Q words)
     end.
Proof.
  unfold OcrCompat.extract_text_with_tesseract, OcrUtils._read_image_bytes,
    OcrUtils._call_vision_text_detection.
  run_M.
  destruct (files w !! image_path) as [image|] eqn:Hfile; cbn.
  2: { split; [done|]. left. by split_and!. }
  destruct (OcrUtils._ensure_vision_available env) as [e0|]; cbn.
  { split; [done|]. right. exists image, e0. split_and!; try done. by left. }
  destruct (document_text_detection env image) as [e0|response] eqn:Hocr; cbn.
  { split; [done|]. right. exists image, e0. split_and!; try done. by right. }
  destruct (Py.truthy (error_message response)) eqn:Herr; cbn.
  { split; [done|]. right.
    exists image, (Exception ("Vision API error: " +:+ error_message response)).
    split_and!; try done. by right. }
  apply truthy_false in Herr.
  set (words := match full_text_annotation response with
                | Some annotation => word_confidences annotation
                | None => []
                end).
  assert (match full_text_annotation response with
          | Some annotation => (text annotation, word_confidences annotation)
          | None => ("", [])
          end
          = (match full_text_annotation response with
             | Some annotation => text annotation
             | None => ""
             end, words)) as ->.
  { subst words. by destruct (full_text_annotation response). }
  pose proof (count_words_counts threshold (map (fun c => c * 100)%Q words)
                0%nat 0%nat 0%nat) as Hcount.
  assert (forall ws total low high,
            snd (fst (OcrCompat.count_words threshold (map (fun c => c * 100)%Q ws)
                        (total, low, high)))
            = (low + length (List.filter
                               (fun c => negb (Qle_bool threshold (c * 100)))%Q ws))%nat)
    as Hlow.
  { induction ws as [|c ws IH]; intros total low high; cbn; [lia|].
    destruct (negb (Qle_bool threshold (c * 100))); [|destruct (Qle_bool 80 (c * 100))];
      rewrite IH; cbn; lia. }
  specialize (Hlow words 0%nat 0%nat 0%nat).
  destruct (OcrCompat.count_words _ _ _) as [[total low] high]. cbn in Hlow.
  rewrite length_map in Hcount. cbn.
  split; [done|]. exists image, response. fold words.
  split_and!; try done; try lia.
  apply average_confidence_bounds.
Qed.

Lemma tesseract_world env image_path language threshold w :
  let w' := snd (OcrCompat.extract_text_with_tesseract env image_path language
                   threshold w) in
  files w' = files w
  /\ (trace w' = trace w \/ exists image, trace w' = trace w ++ [EvOcr image]).
Proof.
  unfold OcrCompat.extract_text_with_tesseract, OcrUtils._read_image_bytes,
    OcrUtils._call_vision_text_detection.
  run_M.
  destruct (files w !! image_path) as [image|]; cbn; [|by auto].
  destruct (OcrUtils._ensure_vision_available env); cbn; [by auto|].
  destruct (document_text_detection env image) as [e0|response]; cbn;
    [by eauto|].
  destruct (Py.truthy (error_message response)); cbn; [by eauto|].
  destruct (full_text_annotation response); cbn;
    try match goal with
        | |- context [OcrCompat.count_words ?a ?b ?c] =>
            destruct (OcrCompat.count_words a b c) as [[total low] high]
        end; cbn; by eauto.
Qed.

Lemma ocr_calls_step w w' :
  trace w' = trace w \/ (exists image, trace w' = trace w ++ [EvOcr image]) ->
  (ocr_calls w <= ocr_calls w' <= ocr_calls w + 1)%nat.
Proof.
  unfold ocr_calls. intros [-> | [image ->]]; [lia|].
  rewrite List.filter_app, length_app. cbn. lia.
Qed.

(** The loop over the pages: what each round adds to the counters. *)
Lemma process_pages_counts env language image_paths :
  forall i acc w,
    let '(acc', w') := OcrCompat.process_pages env language i image_paths acc w in
    files w' = files w
    /\ (ocr_calls w <= ocr_calls w' <= ocr_calls w + length image_paths)%nat
    /\ (OcrCompat.successful acc' + OcrCompat.failed acc'
        = OcrCompat.successful acc + OcrCompat.failed acc + length image_paths)%nat
    /\ (OcrCompat.successful acc <= OcrCompat.successful acc')%nat
    /\ (length (OcrCompat.all_texts acc') + OcrCompat.successful acc
        = length (OcrCompat.all_texts acc) + OcrCompat.successful acc')%nat
    /\ (length (OcrCompat.all_confidences acc') + OcrCompat.successful acc
        = length (OcrCompat.all_confidences acc) + OcrCompat.successful acc')%nat
    /\ (length (List.filter OcrCompat.is_success (OcrCompat.results acc'))
        + OcrCompat.successful acc
        = length (List.filter OcrCompat.is_success (OcrCompat.results acc))
          + OcrCompat.successful acc')%nat
    /\ map OcrCompat.page (OcrCompat.results acc')
       = map OcrCompat.page (OcrCompat.results acc)
         ++ seq (i + 1) (length image_paths).
Proof.
  induction image_paths as [|image_path rest IH]; intros i acc w.
  - cbn. rewrite app_nil_r. split_and!; try done; lia.
  - cbn [OcrCompat.process_pages]. unfold mbind, M_bind. cbn beta.
    unfold OcrCompat.process_page at 1. unfold mbind, M_bind, mret, M_ret. cbn beta.
    pose proof (tesseract_world env image_path language 60 w) as [Hfiles Htrace].
    apply ocr_calls_step in Htrace.
    destruct (OcrCompat.extract_text_with_tesseract env image_path language 60 w)
      as [[e|[[txt confidence] metrics]] w1]; cbn [fst snd] in *.
    2: destruct (Py.truthy (Py.strip txt)).
    all: match goal with
         | |- context [OcrCompat.process_pages ?e ?l ?j ?r ?a ?w0] =>
             specialize (IH j a w0);
             destruct (OcrCompat.process_pages e l j r a w0) as [acc' w']
         end.
    all: cbn in IH; cbn [length seq].
    all: destruct IH as (Hf & Ho & Hsum & Hmono & Htexts & Hconf & Hsucc & Hpages).
    all: rewrite ?List.filter_app, ?length_app, ?map_app in *; cbn in *.
    all: rewrite <- ?app_assoc in Hpages; cbn in Hpages.
    all: replace (S i) with (i + 1)%nat in Hpages by lia.
    all: replace (i + 1 + 1)%nat with (S (i + 1)) in Hpages by lia.
    all: split_and!; try done; try congruence; try lia.
Qed.

(** X19.  [extract_text_from_multiple_images].  The files are never
    changed and the OCR collaborator is called at most once per page.  An
    empty list of pages is answered at once, with the error entry and
    without a call.  Otherwise no page aborts the batch, whatever its
    extraction raises: every page gets exactly one result, numbered from 1
    in order; successful and failed pages add up to the total; the
    successful pages are exactly those whose result says so and those
    counted as pages with text; and when no page succeeded the combined
    text is empty and the confidence 0. *)
Theorem multiple_images_counts env image_paths language w :
  let '(text, confidence, metrics, w') :=
    OcrCompat.extract_text_from_multiple_images env image_paths language w in
  files w' = files w
  /\ (ocr_calls w <= ocr_calls w' <= ocr_calls w + length image_paths)%nat
  /\ match metrics with
     | inl msg =>
         image_paths = [] /\ msg = "No hay imágenes para procesar"
         /\ text = "" /\ confidence = 0%Q /\ w' = w
     | inr m =>
         image_paths <> []
         /\ OcrCompat.total_pages m = length image_paths
         /\ (OcrCompat.successful_pages m + OcrCompat.failed_pages m
             = OcrCompat.total_pages m)%nat
         /\ map OcrCompat.page (OcrCompat.page_results m)
            = seq 1 (OcrCompat.total_pages m)
         /\ OcrCompat.successful_pages m
            = length (List.filter OcrCompat.is_success (OcrCompat.page_results m))
         /\ OcrCompat.pages_with_text m = OcrCompat.successful_pages m
         /\ (OcrCompat.successful_pages m = 0%nat -> text = "" /\ confidence = 0%Q)
     end.
Proof.
  unfold OcrCompat.extract_text_from_multiple_images.
  destruct image_paths as [|image_path rest].
  { cbn. split_and!; try done; lia. }
  set (image_paths := image_path :: rest).
  unfold mbind, M_bind, mret, M_ret. cbn beta.
  pose proof (process_pages_counts env language image_paths 0
                {| OcrCompat.all_texts := []; OcrCompat.all_confidences := [];
                   OcrCompat.successful := 0; OcrCompat.failed := 0;
                   OcrCompat.results := [] |} w) as H.
  destruct (OcrCompat.process_pages _ _ _ _ _ _) as [acc w'].
  cbn in H. destruct H as (Hf & Ho & Hsum & _ & Htexts & Hconf & Hsucc & Hpages).
  cbn [fst snd]. split_and!; try done; cbn; try lia.
  intros Hnone.
  destruct (OcrCompat.all_texts acc); [|cbn in Htexts; lia].
  destruct (OcrCompat.all_confidences acc); [|cbn in Hconf; lia].
  done.
Qed.

(** ** The happy path, end to end *)

Lemma truthy_strip s : Py.truthy (Py.strip s) = true -> Py.truthy s = true.
Proof. destruct s; [intros H; vm_compute in H; discriminate H | done]. Qed.

(** Stage A on a readable image for which the OCR collaborator answers a
    text that is not blank. *)
Lemma stage_a_success env settings st w credentials image response annotation :
  VISION_AVAILABLE env = true ->
  GOOGLE_APPLICATION_CREDENTIALS env = Some credentials ->
  Py.truthy credentials = true ->
  PIL_AVAILABLE env = true ->
  files w !! DocumentInfo.file_path (PipelineState.document_info st) = Some image ->
  ImageUtils.is_image_file
    (DocumentInfo.file_path (PipelineState.document_info st)) = true ->
  Qle_bool (ApiUtils.size_mb (length image))
    (inject_Z (Settings.max_image_size_mb settings)) = true ->
  document_text_detection env image = inr response ->
  error_message response = "" ->
  full_text_annotation response = Some annotation ->
  Py.truthy (Py.strip (text annotation)) = true ->
  let '(st', w') := ImageProcessing.image_processing_node env settings st w in
  PipelineState.status st' = PipelineState.status st
  /\ ProcessingData.raw_text (PipelineState.processing_data st')
     = Some (Py.strip (text annotation))
  /\ files w' = files w
  /\ trace w' = trace w ++ [EvOcr image].
Proof.
  intros Hvision Hcred Hcred_set Hpil Hfile Himage Hsize Hocr Hno_error Hann Htext.
  pose proof (vision_validated env credentials Hvision Hcred Hcred_set).
  pose proof (pillow_validated env Hpil).
  pose proof (vision_ensured env Hvision).
  pose proof (truthy_strip _ Htext) as Htext'.
  assert (Py.truthy (error_message response) = false) by by rewrite Hno_error.
  unfold_stage_a. run_M.
  repeat (case_step; simplify_eq); try congruence; try done.
  all: exfalso;
    repeat match goal with
      | H : negb _ || negb _ = true |- _ => apply orb_true_iff in H as [H | H]
      | H : negb _ = true |- _ => apply negb_true_iff in H
      end; congruence.
Qed.

(** Stage B on a state with text, when the client can be created and the
    answer parses to a JSON object. *)
Lemma stage_b_success env settings st w t chat content rest answer :
  PipelineState.status st <> "FAILED" ->
  ProcessingData.raw_text (PipelineState.processing_data st) = Some t ->
  Py.truthy t = true ->
  openai_client env (Settings.openai_api_key settings) = None ->
  chat_completions_create env
    (Llm.chat_request settings Prompts.EXTRACTION_SYSTEM_PROMPT
       (Prompts.EXTRACTION_USER_PROMPT_format t)) = inr chat ->
  choices chat = Some content :: rest ->
  json_loads env (Py.strip (Llm.clean_json_format content)) = inr (JObject answer) ->
  let '(st', w') := Llm.llm_node env settings st w in
  PipelineState.status st' = "COMPLETED"
  /\ PipelineState.extracted_data st' = answer
  /\ files w' = files w
  /\ trace w' = trace w
                ++ [EvLlm (Llm.chat_request settings Prompts.EXTRACTION_SYSTEM_PROMPT
                             (Prompts.EXTRACTION_USER_PROMPT_format t))].
Proof.
  intros Hst Htext Htruthy Hclient Hchat Hchoices Hparse.
  unfold_stage_b. apply String.eqb_neq in Hst. rewrite Hst. run_M.
  rewrite Hclient, Htext, Htruthy. cbn. rewrite Hchat. cbn. rewrite Hchoices. cbn.
  rewrite Hparse. cbn. done.
Qed.

(** The orchestrator on such an image and such an answer. *)
Lemma pipeline_happy env settings file_path fname w credentials image response
    annotation chat content rest answer :
  graph_failure env = None ->
  VISION_AVAILABLE env = true ->
  GOOGLE_APPLICATION_CREDENTIALS env = Some credentials ->
  Py.truthy credentials = true ->
  PIL_AVAILABLE env = true ->
  files w !! file_path = Some image ->
  ImageUtils.is_image_file file_path = true ->
  Qle_bool (ApiUtils.size_mb (length image))
    (inject_Z (Settings.max_image_size_mb settings)) = true ->
  document_text_detection env image = inr response ->
  error_message response = "" ->
  full_text_annotation response = Some annotation ->
  Py.truthy (Py.strip (text annotation)) = true ->
  openai_client env (Settings.openai_api_key settings) = None ->
  chat_completions_create env
    (Llm.chat_request settings Prompts.EXTRACTION_SYSTEM_PROMPT
       (Prompts.EXTRACTION_USER_PROMPT_format (Py.strip (text annotation))))
  = inr chat ->
  choices chat = Some content :: rest ->
  json_loads env (Py.strip (Llm.clean_json_format content)) = inr (JObject answer) ->
  let '(r, w') := Pipeline.process env settings file_path fname w in
  files w' = files w
  /\ trace w'
     = trace w
       ++ [EvOcr image;
           EvLlm (Llm.chat_request settings Prompts.EXTRACTION_SYSTEM_PROMPT
                    (Prompts.EXTRACTION_USER_PROMPT_format
                       (Py.strip (text annotation))))]
  /\ exists result,
       r = Some result
       /\ Main.result_failed result = false
       /\ Pipeline.extracted_data result = Some answer
       /\ Pipeline.processing_data_raw_text result = None.
Proof.
  intros Hgraph Hvision Hcred Hcred_set Hpil Hfile Himage Hsize Hocr Hno_error Hann
    Htext Hclient Hchat Hchoices Hparse.
  unfold Pipeline.process, Pipeline.ainvoke.
  unfold mbind, M_bind, mret, M_ret, read_clock. cbn beta iota zeta.
  rewrite Hgraph.
  set (w0 := {| tick := S (tick w); files := files w; trace := trace w |}).
  pose proof (stage_a_success env settings
                (Pipeline.create_initial_state file_path fname) w0
                credentials image response annotation
                Hvision Hcred Hcred_set Hpil Hfile Himage Hsize Hocr Hno_error Hann Htext)
    as Ha.
  destruct (ImageProcessing.image_processing_node _ _ _ _) as [sa wa].
  destruct Ha as (Hsta & Hraw & Hfa & Hta).
  assert (PipelineState.status sa <> "FAILED") as Hok by by rewrite Hsta.
  pose proof (stage_b_success env settings sa wa _ chat content rest answer
                Hok Hraw Htext Hclient Hchat Hchoices Hparse) as Hb.
  destruct (Llm.llm_node env settings sa wa) as [sb wb].
  destruct Hb as (Hstb & Hdata & Hfb & Htb). cbn.
  split; [by rewrite Hfb, Hfa|].
  split; [by rewrite Htb, Hta, <- app_assoc|].
  unfold Pipeline.shape_result, Pipeline.channels. cbn.
  unfold PipelineState.status in Hstb. rewrite Hstb.
  rewrite bool_decide_eq_false_2 by done.
  eexists. split; [done|]. unfold Main.result_failed. cbn.
  rewrite bool_decide_eq_false_2 by done. by rewrite Hdata.
Qed.



(** ** The health endpoint *)

Lemma storage_update_count (g : Main.JobRecord -> bool) js id f js' r :
  Main.storage_update id f js = Some js' ->
  Main.storage_get js id = Some r ->
  (length (List.filter (fun j => g (snd j)) js') + (if g r then 1 else 0)
   = length (List.filter (fun j => g (snd j)) js) + (if g (f r) then 1 else 0))%nat.
Proof.
  revert js'. induction js as [|[k r0] js IH]; intros js'; cbn; [done|].
  destruct (String.eqb id k).
  - intros [= <-] [= ->]. cbn. destruct (g r), (g (f r)); cbn; lia.
  - destruct (Main.storage_update id f js) as [js''|]; [|done].
    intros [= <-] Hr. cbn. specialize (IH js'' eq_refl Hr).
    destruct (g r0); cbn; lia.
Qed.

Lemma health_check_counts env js w :
  Main.h_total_jobs (fst (Main.health_check env js w)) = length js
  /\ Main.h_active_jobs (fst (Main.health_check env js w))
     = length (List.filter (fun j => JobStore.active (snd j)) js).
Proof.
  unfold Main.health_check. run_M. split; [done|].
  f_equal. apply List.filter_ext. intros [k r]. cbn.
  unfold JobStore.active. by destruct (Main.status r).
Qed.

(** X21.  A finished job frees its slot.  For a job on record, executed
    in the background while no other request changes the store, the
    health endpoint afterwards reports the same number of jobs, and one
    active job less if the job was PENDING or PROCESSING before -- whether
    the pipeline call returned a result, returned nothing or raised an
    exception.  The one exception is a task cancelled at the [await]: its
    record stays PROCESSING and keeps counting as active. *)
Theorem background_frees_a_slot env pipeline_process id file_path fname js w r :
  Main.storage_get js id = Some r ->
  let outcome :=
    fst (pipeline_process file_path fname
           {| tick := S (tick w); files := files w; trace := trace w |}) in
  let '(raised, js', w') :=
    Main.process_file_background env pipeline_process (fun js => js)
      id file_path fname js w in
  forall w1 w2,
    let before := fst (Main.health_check env js w1) in
    let after := fst (Main.health_check env js' w2) in
    Main.h_total_jobs after = Main.h_total_jobs before
    /\ match outcome with
       | inl CancelledError =>
           (Main.h_active_jobs after
            = Main.h_active_jobs before + (if JobStore.active r then 0 else 1))%nat
       | _ =>
           (Main.h_active_jobs after + (if JobStore.active r then 1 else 0)
            = Main.h_active_jobs before)%nat
       end.
Proof.
  intros Hjob outcome.
  pose proof (background_outcome env pipeline_process (fun js => js)
                id file_path fname js w) as Hout. cbn zeta in Hout.
  fold outcome in Hout.
  destruct (Main.process_file_background _ _ _ _ _ _ _ _) as [[raised js'] w'].
  intros w1 w2 before after. subst before after.
  destruct (health_check_counts env js w1) as [-> ->].
  destruct (health_check_counts env js' w2) as [-> ->].
  destruct Hout as [(-> & Hgone & Hwhere)
                   | [(-> & Hcancel & js1 & now & Hstart & ->)
                     | (-> & js1 & now & f & Hstart & Hend & Hfin)]].
  { exfalso. destruct Hwhere as [-> | (js1 & now & Hstart & -> & _)]; [congruence|].
    apply storage_update_get in Hstart as (r1 & _ & Hjob1). congruence. }
  { pose proof (storage_update_keys _ _ _ _ Hstart) as Hk1.
    apply (f_equal (@length string)) in Hk1. rewrite !length_map in Hk1.
    split; [lia|]. rewrite Hcancel.
    pose proof (storage_update_count JobStore.active _ _ _ _ _ Hstart Hjob) as Hc1.
    assert (JobStore.active (Main.mark_processing now r) = true) as Hp by done.
    rewrite Hp in Hc1. destruct (JobStore.active r); lia. }
  pose proof (storage_update_keys _ _ _ _ Hstart) as Hk1.
  pose proof (storage_update_keys _ _ _ _ Hend) as Hk2.
  apply (f_equal (@length string)) in Hk1, Hk2. rewrite !length_map in Hk1, Hk2.
  split; [lia|].
  pose proof (storage_update_count JobStore.active _ _ _ _ _ Hstart Hjob) as Hc1.
  pose proof (storage_update_get _ _ _ _ Hstart) as (r0 & Hr0 & Hjob1).
  assert (r0 = r) as -> by congruence.
  pose proof (storage_update_count JobStore.active _ _ _ _ _ Hend Hjob1) as Hc2.
  assert (JobStore.active (Main.mark_processing now r) = true) as Hp by done.
  assert (JobStore.active (f (Main.mark_processing now r)) = false) as Hf.
  { by destruct Hfin. }
  rewrite Hp in Hc1, Hc2. rewrite Hf in Hc2.
  assert (length (List.filter (fun j => JobStore.active (snd j)) js')
          + (if JobStore.active r then 1 else 0)
          = length (List.filter (fun j => JobStore.active (snd j)) js))%nat as Hgoal.
  { destruct (JobStore.active r); lia. }
  destruct Hfin as [e now' He | now' He | result now' He Hf' | result now' He Hf'];
    rewrite He; exact Hgoal.
Qed.

Lemma background_frees_a_slot_witness :
  let env := Scenario.env "  " "{}" in
  let '(raised, js', w') := Scenario.run "  " "{}" Scenario.settings in
  Main.h_active_jobs (fst (Main.health_check env Scenario.storage Scenario.world)) = 1%nat
  /\ Main.h_active_jobs (fst (Main.health_check env js' w')) = 0%nat.
Proof.
  intros env. unfold Scenario.run.
  pose proof (background_frees_a_slot env (Main.pipeline env Scenario.settings)
                "job-0" Scenario.upload_path "dni.png"
                Scenario.storage Scenario.world Scenario.pending_job eq_refl) as H.
  cbn zeta in H.
  destruct (pipeline_returns env Scenario.settings Scenario.upload_path "dni.png"
              {| tick := S (tick Scenario.world); files := files Scenario.world;
                 trace := trace Scenario.world |}) as [res Hres].
  rewrite Hres in H.
  destruct (Main.process_file_background _ _ _ _ _ _ _ _) as [[raised js'] w'].
  destruct (H Scenario.world w') as [_ Hactive].
  split; [reflexivity|].
  change (JobStore.active Scenario.pending_job) with true in Hactive.
  change (Main.h_active_jobs
            (fst (Main.health_check env Scenario.storage Scenario.world)))
    with 1%nat in Hactive.
  cbv iota in Hactive. lia.
Defined.
